(** * EconSim: the turn-resolution engine of [geopolitical_sim.py]

    A shallow embedding of the model classes [Country] and [World]
    (lines 54-209) and of the state and the event handlers of [Game]
    (lines 216-436) of [src/geopolitical_sim.py], the properties the
    specification states about them, and further properties of the code.

    Numbers.  The program computes with Python floats.  The embedding is
    written once, over a carrier [A] with the arithmetic and comparisons
    the source uses ([Num A]), and is read at two carriers:
    - [Qc], exact rational arithmetic, where the universally quantified
      properties are proved (rounding, infinities and NaN are outside
      this reading);
    - [float], Rocq's IEEE 754 binary64 numbers, where the concrete
      scenarios are evaluated bit for bit as Python evaluates them.

    Dictionaries are [gmap string A] (a missing key is a [KeyError],
    modelled as [None]), sets of names are [gset string], the list of
    countries is a [list Country] and the in-place mutation of a country
    is an update of the list at that country's index. *)

From Stdlib Require Import QArith Qcanon Floats ZArith Lia Lqa.
From stdpp Require Import gmap strings list fin_maps.

Set Default Proof Using "Type".

(** ** The numeric carrier *)

Class Num (A : Type) := {
  lit : Q -> A;            (* a decimal literal of the source *)
  nadd : A -> A -> A;
  nsub : A -> A -> A;
  nmul : A -> A -> A;
  ndiv : A -> A -> A;
  nltb : A -> A -> bool;
  nleb : A -> A -> bool
}.

Declare Scope num_scope.
Delimit Scope num_scope with num.
Infix "+" := nadd : num_scope.
Infix "-" := nsub : num_scope.
Infix "*" := nmul : num_scope.
Infix "/" := ndiv : num_scope.
Infix "<?" := nltb : num_scope.
Infix "<=?" := nleb : num_scope.

(** Exact rationals. *)
#[export] Instance Qc_Num : Num Qc := {
  lit q := Q2Qc q;
  nadd := Qcplus;
  nsub := Qcminus;
  nmul := Qcmult;
  ndiv := Qcdiv;
  nltb x y := negb (Qle_bool y x);
  nleb x y := Qle_bool x y
}.

(** IEEE 754 binary64.  A decimal literal [n/d] with [n] and [d] exactly
    representable is the correctly rounded quotient, which is the double
    Python's parser produces for it. *)
Definition float_of_Z (z : Z) : float :=
  match z with
  | Z0 => PrimFloat.zero
  | Zpos _ => PrimFloat.of_uint63 (Uint63.of_Z z)
  | Zneg p => PrimFloat.opp (PrimFloat.of_uint63 (Uint63.of_Z (Zpos p)))
  end.

#[export] Instance float_Num : Num float := {
  lit q := PrimFloat.div (float_of_Z (Qnum q)) (float_of_Z (Zpos (Qden q)));
  nadd := PrimFloat.add;
  nsub := PrimFloat.sub;
  nmul := PrimFloat.mul;
  ndiv := PrimFloat.div;
  nltb := PrimFloat.ltb;
  nleb := PrimFloat.leb
}.

Section Model.
Context {A : Type} `{Num A}.
Local Open Scope num_scope.

(** Python's built-in [max(a, b)] and [min(a, b)] on two arguments: the
    first argument is kept unless the second compares strictly beyond it. *)
Definition pymax (a b : A) : A := if a <? b then b else a.
Definition pymin (a b : A) : A := if b <? a then b else a.

(** ** [class Country] (lines 54-146) *)

Record Country := {
  name : string;
  polygon : list (Z * Z);
  color : Z * Z * Z;
  resources : gmap string A;
  gdp : A;
  growth_rate : A;
  population : A;
  tax_rate : A;
  tariff_rate : A;
  sanctions : gset string;
  new_sanctions : gset string
}.

Definition set_resources (r : gmap string A) (c : Country) : Country :=
  {| name := name c; polygon := polygon c; color := color c;
     resources := r; gdp := gdp c; growth_rate := growth_rate c;
     population := population c; tax_rate := tax_rate c;
     tariff_rate := tariff_rate c; sanctions := sanctions c;
     new_sanctions := new_sanctions c |}.

Definition set_gdp (g : A) (c : Country) : Country :=
  {| name := name c; polygon := polygon c; color := color c;
     resources := resources c; gdp := g; growth_rate := growth_rate c;
     population := population c; tax_rate := tax_rate c;
     tariff_rate := tariff_rate c; sanctions := sanctions c;
     new_sanctions := new_sanctions c |}.

Definition set_growth_rate (g : A) (c : Country) : Country :=
  {| name := name c; polygon := polygon c; color := color c;
     resources := resources c; gdp := gdp c; growth_rate := g;
     population := population c; tax_rate := tax_rate c;
     tariff_rate := tariff_rate c; sanctions := sanctions c;
     new_sanctions := new_sanctions c |}.

Definition set_tax_rate (t : A) (c : Country) : Country :=
  {| name := name c; polygon := polygon c; color := color c;
     resources := resources c; gdp := gdp c; growth_rate := growth_rate c;
     population := population c; tax_rate := t;
     tariff_rate := tariff_rate c; sanctions := sanctions c;
     new_sanctions := new_sanctions c |}.

Definition set_tariff_rate (t : A) (c : Country) : Country :=
  {| name := name c; polygon := polygon c; color := color c;
     resources := resources c; gdp := gdp c; growth_rate := growth_rate c;
     population := population c; tax_rate := tax_rate c;
     tariff_rate := t; sanctions := sanctions c;
     new_sanctions := new_sanctions c |}.

Definition set_sanctions (s n : gset string) (c : Country) : Country :=
  {| name := name c; polygon := polygon c; color := color c;
     resources := resources c; gdp := gdp c; growth_rate := growth_rate c;
     population := population c; tax_rate := tax_rate c;
     tariff_rate := tariff_rate c; sanctions := s;
     new_sanctions := n |}.

(** The dataclass [__init__] with its defaults (lines 86-96): the three
    positional fields are required, [new_sanctions] is [init=False]. *)
Definition default_resources : gmap string A :=
  <["oil" := lit 0.0]> (<["minerals" := lit 0.0]> (<["agriculture" := lit 0.0]> ∅)).

Definition Country_init (nm : string) (poly : list (Z * Z)) (col : Z * Z * Z)
    (res : option (gmap string A)) (g gr pop tax tariff : option A)
    (sanc : option (gset string)) : Country :=
  {| name := nm; polygon := poly; color := col;
     resources := default default_resources res;
     gdp := default (lit 100.0) g;
     growth_rate := default (lit 0.02) gr;
     population := default (lit 10.0) pop;
     tax_rate := default (lit 0.2) tax;
     tariff_rate := default (lit 0.1) tariff;
     sanctions := default ∅ sanc;
     new_sanctions := ∅ |}.

(** [update_economy] (lines 98-104).  The draw of
    [random.uniform(-0.01, 0.01)] is the argument [fluctuation]. *)
Definition update_economy (fluctuation : A) (self : Country) : Country :=
  let tax_penalty := tax_rate self * lit 0.5 in
  let effective_growth := pymax (growth_rate self - tax_penalty) (lit (-0.05)) in
  let delta := gdp self * (effective_growth + fluctuation) in
  set_gdp (pymax (gdp self + delta) (lit 0.0)) self.

(** [produce_resources] (lines 106-111): every value of the dictionary is
    replaced by itself plus the production computed from it. *)
Definition produce_resources (self : Country) : Country :=
  set_resources
    ((λ stock,
        let base_production := population self * lit 0.1 in
        let reserve_bonus := stock * lit 0.02 in
        stock + (base_production + reserve_bonus)) <$> resources self)
    self.

(** [self.resources.values()] *)
Definition dict_values (m : gmap string A) : list A := (map_to_list m).*2.

(** [apply_policy] (lines 113-142).  The policy is the string the source
    compares; only the target's [name] is read. *)
Definition apply_policy (policy : string) (target : option Country)
    (self : Country) : Country :=
  if String.eqb policy "lower_taxes" then
    set_tax_rate (pymax (tax_rate self - lit 0.02) (lit 0.0)) self
  else if String.eqb policy "raise_taxes" then
    set_tax_rate (pymin (tax_rate self + lit 0.02) (lit 0.5)) self
  else if String.eqb policy "lower_tariffs" then
    set_tariff_rate (pymax (tariff_rate self - lit 0.05) (lit 0.0)) self
  else if String.eqb policy "raise_tariffs" then
    set_tariff_rate (pymin (tariff_rate self + lit 0.05) (lit 1.0)) self
  else if String.eqb policy "invest_in_infrastructure" then
    let can_invest := forallb (λ value, lit 10 <=? value) (dict_values (resources self)) in
    if can_invest then
      set_growth_rate (growth_rate self + lit 0.005)
        (set_resources ((λ stock, stock - lit 10) <$> resources self) self)
    else self
  else if String.eqb policy "sanction" then
    match target with
    | Some target =>
        if bool_decide (name target ∈ sanctions self) then self
        else set_sanctions ({[name target]} ∪ sanctions self)
                           ({[name target]} ∪ new_sanctions self) self
    | None => self
    end
  else self.

(** [reset_temp] (lines 144-146) *)
Definition reset_temp (self : Country) : Country :=
  set_sanctions (sanctions self) ∅ self.

End Model.

Arguments Country A : clear implicits.

Section Trade.
Context {A : Type} `{Num A}.
Local Open Scope num_scope.

(** ** [class World] (lines 149-209) *)

Record World := { countries : list (Country A) }.

(** The generated [__init__] of the dataclass stores the list it is given;
    there is no [__post_init__] and no check.  Construction is written as a
    fallible operation so that its outcome can be stated. *)
Inductive Constructed (T : Type) :=
  | Built (value : T)
  | ConfigurationError.
Arguments Built {T} value.
Arguments ConfigurationError {T}.

Definition World_init (cs : list (Country A)) : Constructed World :=
  Built {| countries := cs |}.

(** A [for] loop whose body may raise: the first exception ends the loop. *)
Fixpoint for_each {S X : Type} (body : X -> S -> option S) (xs : list X)
    (st : S) : option S :=
  match xs with
  | [] => Some st
  | x :: xs' => st' ← body x st; for_each body xs' st'
  end.

(** The values fixed for one resource kind before any stock is changed
    (lines 178-192). *)
Record Snapshot := {
  demands : gmap string A;
  supplies : gmap string A;
  total_demand : A;
  total_supply : A
}.

Definition empty_snapshot : Snapshot :=
  {| demands := ∅; supplies := ∅;
     total_demand := lit 0.0; total_supply := lit 0.0 |}.

Definition snapshot_step (resource : string) (s : Snapshot) (c : Country A)
    : Snapshot :=
  let consumption := population c * lit 0.2 in
  let available := default (lit 0.0) (resources c !! resource) in
  if available <? consumption then
    {| demands := <[name c := consumption - available]> (demands s);
       supplies := <[name c := lit 0.0]> (supplies s);
       total_demand := total_demand s + (consumption - available);
       total_supply := total_supply s |}
  else
    {| demands := <[name c := lit 0.0]> (demands s);
       supplies := <[name c := available - consumption]> (supplies s);
       total_demand := total_demand s;
       total_supply := total_supply s + (available - consumption) |}.

Definition take_snapshot (resource : string) (cs : list (Country A)) : Snapshot :=
  fold_left (snapshot_step resource) cs empty_snapshot.

(** [cs[k].resources[resource] = f(cs[k].resources[resource])]: the
    augmented assignments of lines 208-209.  Reading a missing key raises
    [KeyError]. *)
Definition stock_update (f : A -> A) (k : nat) (resource : string)
    (cs : list (Country A)) : option (list (Country A)) :=
  c ← cs !! k;
  v ← resources c !! resource;
  Some (<[k := set_resources (<[resource := f v]> (resources c)) c]> cs).

(** Ghost record of one executed pair (not in the source): what was taken
    from the exporter and what reached the importer. *)
Record Shipment := {
  ship_resource : string;
  ship_importer : nat;
  ship_exporter : nat;
  volume : A;
  volume_after_tariff : A
}.

Definition TradeState : Type := list (Country A) * list Shipment.

(** The body of the inner loop (lines 199-209) for the importer at index
    [i] and the exporter at index [j]. *)
Definition trade_pair (snap : Snapshot) (resource : string) (demand : A)
    (i j : nat) (st : TradeState) : option TradeState :=
  importer ← st.1 !! i;
  exporter ← st.1 !! j;
  supply ← supplies snap !! name exporter;
  if supply <=? lit 0 then Some st
  else if bool_decide (name importer ∈ sanctions exporter)
          || bool_decide (name exporter ∈ sanctions importer) then Some st
  else
    let share := supply / total_supply snap in
    let volume := share * demand in
    let volume_after_tariff := volume * (lit 1.0 - tariff_rate importer) in
    cs1 ← stock_update (λ stock, stock - volume) j resource st.1;
    cs2 ← stock_update (λ stock, stock + volume_after_tariff) i resource cs1;
    Some (cs2, st.2 ++ [ {| ship_resource := resource; ship_importer := i;
                            ship_exporter := j; volume := volume;
                            volume_after_tariff := volume_after_tariff |} ]).

(** The body of the outer loop (lines 195-209). *)
Definition trade_importer (snap : Snapshot) (resource : string)
    (exporters : list nat) (i : nat) (st : TradeState) : option TradeState :=
  importer ← st.1 !! i;
  demand ← demands snap !! name importer;
  if demand <=? lit 0 then Some st
  else for_each (trade_pair snap resource demand i) exporters st.

(** One resource kind (lines 177-209).  [importers] and [exporters] are the
    orders in which the two loops enumerate the countries, as indices into
    the list. *)
Definition trade_resource (importers exporters : list nat) (resource : string)
    (st : TradeState) : option TradeState :=
  let snap := take_snapshot resource st.1 in
  if (total_supply snap <=? lit 0) || (total_demand snap <=? lit 0) then Some st
  else for_each (trade_importer snap resource exporters) importers st.

(** [list(self.countries[0].resources.keys())].  A [gmap] lists its keys
    in an order of its own, not in Python's insertion order; the kinds are
    cleared one after the other and the clearing of one kind reads and
    writes the stocks of that kind only. *)
Definition resource_types (first : Country A) : list string :=
  (map_to_list (resources first)).*1.

(** [resolve_trade] with the two enumeration orders as parameters. *)
Definition resolve_trade_in (importers exporters : list nat) (w : World)
    : option (World * list Shipment) :=
  match countries w with
  | [] => Some (w, [])
  | first :: _ =>
      st ← for_each (trade_resource importers exporters)
                    (resource_types first) (countries w, []);
      Some ({| countries := st.1 |}, st.2)
  end.

(** Both loops of the source run over [self.countries] in list order. *)
Definition list_order (w : World) : list nat := seq 0 (length (countries w)).

Definition resolve_trade_log (w : World) : option (World * list Shipment) :=
  resolve_trade_in (list_order w) (list_order w) w.

(** [resolve_trade] (lines 166-209) *)
Definition resolve_trade (w : World) : option World :=
  fst <$> resolve_trade_log w.

(** [update] (lines 155-164); [draws i] is the fluctuation drawn for the
    country at index [i]. *)
Definition update (draws : nat -> A) (w : World) : option World :=
  let produced := produce_resources <$> countries w in
  let grown := imap (λ i c, update_economy (draws i) c) produced in
  w' ← resolve_trade {| countries := grown |};
  Some {| countries := reset_temp <$> countries w' |}.

(** The stock of a resource kind held by the country at index [k], and the
    total over the world, with [resources.get(resource, 0.0)]. *)
Definition stock_of (resource : string) (c : Country A) : A :=
  default (lit 0.0) (resources c !! resource).

Definition total_stock (resource : string) (cs : list (Country A)) : A :=
  foldr (λ c acc, stock_of resource c + acc) (lit 0.0) cs.

End Trade.

Arguments World A : clear implicits.
Arguments Snapshot A : clear implicits.
Arguments Shipment A : clear implicits.
Arguments TradeState A : clear implicits.
Arguments Built {T} value.
Arguments ConfigurationError {T}.

(** ** The end-to-end scenario of the specification *)

Section Scenario.
Context {A : Type} `{Num A}.

(** The three resource kinds, with the given stock of oil. *)
Definition with_oil (stock : A) : gmap string A :=
  <["oil" := stock]> default_resources.

Definition scenario_A : Country A :=
  Country_init "A" [] (0, 0, 0)%Z (Some (with_oil (lit 100.0)))
    None None (Some (lit 10.0)) None (Some (lit 0.1)) None.

Definition scenario_B : Country A :=
  Country_init "B" [] (0, 0, 0)%Z (Some (with_oil (lit 0.0)))
    None None (Some (lit 10.0)) None None None.

Definition scenario : World A := {| countries := [scenario_A; scenario_B] |}.

(** A world whose only exporter has a surplus smaller than the demand it
    faces: [A] holds 3 oil (surplus 1), [B] holds none and needs 20. *)
Definition short_A : Country A :=
  Country_init "A" [] (0, 0, 0)%Z (Some (with_oil (lit 3.0)))
    None None (Some (lit 10.0)) None None None.

Definition short_B : Country A :=
  Country_init "B" [] (0, 0, 0)%Z (Some (with_oil (lit 0.0)))
    None None (Some (lit 100.0)) None None None.

Definition short_supply : World A := {| countries := [short_A; short_B] |}.

(** The world [Game._create_world] builds (lines 237-266). *)
Definition resource_set (oil minerals agriculture : A) : gmap string A :=
  <["oil" := oil]> (<["minerals" := minerals]> (<["agriculture" := agriculture]> ∅)).

Definition square (x y : Z) : list (Z * Z) :=
  [(x, y); (x + 300, y); (x + 300, y + 300); (x, y + 300)]%Z.

Definition create_country (idx : Z) (nm : string) (poly : list (Z * Z))
    (col : Z * Z * Z) (res : gmap string A) : Country A :=
  Country_init nm poly col (Some res)
    (Some (lit 100.0 + lit (inject_Z idx) * lit 50.0)%num)
    (Some (lit 0.02 + lit (inject_Z idx) * lit 0.005)%num)
    (Some (lit 8.0 + lit (inject_Z idx) * lit 2.0)%num)
    (Some (lit 0.15)) (Some (lit 0.1)) None.

Definition Albia : Country A :=
  create_country 0 "Albia" (square 0 0) (200, 90, 90)%Z
    (resource_set (lit 50.0) (lit 20.0) (lit 10.0)).
Definition Borovia : Country A :=
  create_country 1 "Borovia" (square 300 0) (90, 200, 90)%Z
    (resource_set (lit 10.0) (lit 60.0) (lit 20.0)).
Definition Cyrenia : Country A :=
  create_country 2 "Cyrenia" (square 0 300) (90, 90, 200)%Z
    (resource_set (lit 20.0) (lit 10.0) (lit 70.0)).
Definition Demeria : Country A :=
  create_country 3 "Demeria" (square 300 300) (200, 200, 90)%Z
    (resource_set (lit 30.0) (lit 30.0) (lit 30.0)).

Definition create_world : World A :=
  {| countries := [Albia; Borovia; Cyrenia; Demeria] |}.

(** Lists of countries that break the invariants of a world: two
    countries of one name, two different sets of resource kinds, a
    negative population. *)
Definition second_A : Country A :=
  Country_init "A" [] (0, 0, 0)%Z (Some (with_oil (lit 5.0)))
    None None None None None None.

Definition same_name_twice : list (Country A) := [scenario_A; second_A].

Definition gold_C : Country A :=
  Country_init "C" [] (0, 0, 0)%Z (Some {[ "gold" := lit 1.0 ]})
    None None None None None None.

Definition different_kinds : list (Country A) := [scenario_A; gold_C].

Definition negative_D : Country A :=
  Country_init "D" [] (0, 0, 0)%Z None None None (Some (lit (-1.0)))
    None None None.

Definition negative_people : list (Country A) := [negative_D].

(** Two countries that levy no tariff and sanction nobody: [X] holds 4.7
    oil (surplus 2.7), [Y] holds 0.1 (short of 1.9). *)
Definition open_X : Country A :=
  Country_init "X" [] (0, 0, 0)%Z (Some (with_oil (lit 4.7)))
    None None (Some (lit 10.0)) None (Some (lit 0.0)) None.

Definition open_Y : Country A :=
  Country_init "Y" [] (0, 0, 0)%Z (Some (with_oil (lit 0.1)))
    None None (Some (lit 10.0)) None (Some (lit 0.0)) None.

Definition open_market : World A := {| countries := [open_X; open_Y] |}.

(** Two exporters with surpluses 7 and 1 and one importer short of 1, all
    with the default tariff; and the same countries with the exporters in
    the other order. *)
Definition trader (nm : string) (oil : A) : Country A :=
  Country_init nm [] (0, 0, 0)%Z (Some (with_oil oil))
    None None (Some (lit 10.0)) None None None.

Definition two_exporters : World A :=
  {| countries := [trader "X" (lit 9.0); trader "Y" (lit 3.0);
                   trader "W" (lit 1.0)] |}.

Definition two_exporters_swapped : World A :=
  {| countries := [trader "Y" (lit 3.0); trader "X" (lit 9.0);
                   trader "W" (lit 1.0)] |}.

End Scenario.

(** ** [class Game] (lines 216-436)

    The window, the clock and the fonts of pygame and the three drawing
    methods are left out; the state the handlers read and write is kept.
    A reference to a country ([player_country], [selected_country], the
    country a click hits) is the index of that country in
    [world.countries]: the list holds pairwise distinct objects, so that
    [is] on countries is equality of indices.  An operation returns
    [None] when the source raises. *)

(** *** An [int] among the numbers of the carrier

    Line 403 mixes the int coordinates with the float [1e-6].  Python
    converts an int operand of a float operation to the nearest float,
    ties to even, and raises [OverflowError] when that float would not be
    finite; it compares an int with a float by their exact values, without
    converting the int. *)
Class FromInt (A : Type) := {
  from_int : Z -> option A;   (* [None]: [OverflowError] *)
  int_ltb : Z -> A -> bool    (* [x < f] for an int [x] *)
}.

(** Among the exact rationals every int is a number. *)
#[export] Instance Qc_FromInt : FromInt Qc := {
  from_int z := Some (lit (inject_Z z));
  int_ltb x f := nltb (lit (inject_Z x)) f
}.

(** The float nearest to an int, ties to even: beyond 2^53 not every int
    is a float, and an int that is no nearer to the largest float,
    2^1024 - 2^971, than to 2^1024 has no finite nearest float. *)
Definition nearest_float (z : Z) : float :=
  SF2Prim (binary_normalize prec emax z 0 false).

Definition float_int_bound : Z := 2 ^ 1024 - 2 ^ 970.

Definition float_from_int (z : Z) : option float :=
  if (Z.abs z <? float_int_bound)%Z then Some (nearest_float z) else None.

(** [x < f] on the exact values: a float other than an infinity or NaN is
    [m * 2^e] for integers [m] and [e]. *)
Definition int_lt_float (x : Z) (f : float) : bool :=
  match Prim2SF f with
  | S754_nan => false
  | S754_infinity negative => negb negative
  | S754_zero _ => (x <? 0)%Z
  | S754_finite negative m e =>
      let v := if negative then Z.neg m else Z.pos m in
      if (0 <=? e)%Z then (x <? v * 2 ^ e)%Z else (x * 2 ^ (- e) <? v)%Z
  end.

#[export] Instance float_FromInt : FromInt float := {
  from_int := float_from_int;
  int_ltb := int_lt_float
}.

Section Game.
Context {A : Type} `{Num A} `{FromInt A}.
Local Open Scope num_scope.

Record Game := {
  map_width : Z;
  world : World A;
  player_country : option nat;
  selected_country : option nat;
  awaiting_sanction_target : bool;
  turn_count : Z;
  message : string
}.

(** [Game.__init__] (lines 219-235) *)
Definition Game_init : Game :=
  {| map_width := 600;
     world := create_world;
     player_country := None;
     selected_country := None;
     awaiting_sanction_target := false;
     turn_count := 1;
     message := "Click a country to play." |}.

Definition set_world (w : World A) (g : Game) : Game :=
  {| map_width := map_width g; world := w;
     player_country := player_country g;
     selected_country := selected_country g;
     awaiting_sanction_target := awaiting_sanction_target g;
     turn_count := turn_count g; message := message g |}.

Definition set_player_country (p : option nat) (g : Game) : Game :=
  {| map_width := map_width g; world := world g;
     player_country := p;
     selected_country := selected_country g;
     awaiting_sanction_target := awaiting_sanction_target g;
     turn_count := turn_count g; message := message g |}.

Definition set_selected_country (s : option nat) (g : Game) : Game :=
  {| map_width := map_width g; world := world g;
     player_country := player_country g;
     selected_country := s;
     awaiting_sanction_target := awaiting_sanction_target g;
     turn_count := turn_count g; message := message g |}.

Definition set_awaiting (b : bool) (g : Game) : Game :=
  {| map_width := map_width g; world := world g;
     player_country := player_country g;
     selected_country := selected_country g;
     awaiting_sanction_target := b;
     turn_count := turn_count g; message := message g |}.

Definition set_turn_count (n : Z) (g : Game) : Game :=
  {| map_width := map_width g; world := world g;
     player_country := player_country g;
     selected_country := selected_country g;
     awaiting_sanction_target := awaiting_sanction_target g;
     turn_count := n; message := message g |}.

Definition set_message (m : string) (g : Game) : Game :=
  {| map_width := map_width g; world := world g;
     player_country := player_country g;
     selected_country := selected_country g;
     awaiting_sanction_target := awaiting_sanction_target g;
     turn_count := turn_count g; message := m |}.

(** *** [get_country_at] (lines 390-408) *)

(** [min(xs)] and [max(xs)]: [ValueError] on an empty list. *)
Definition py_min_list (xs : list Z) : option Z :=
  match xs with
  | [] => None
  | x :: xs' => Some (foldl Z.min x xs')
  end.

Definition py_max_list (xs : list Z) : option Z :=
  match xs with
  | [] => None
  | x :: xs' => Some (foldl Z.max x xs')
  end.

(** The test of line 403 for the edge from [pj] to [pi].  The product
    [(xj - xi) * (y - yi)] and the difference [yj - yi] are computed on
    ints, and [and] does not evaluate its right operand when the left one
    is false.  The right operand converts [yj - yi], the product and [xi],
    in this order; its divisor never is zero, for [yj - yi] is an int. *)
Definition crosses (x y : Z) (pi pj : Z * Z) : option bool :=
  let '(xi, yi) := pi in
  let '(xj, yj) := pj in
  if negb (Bool.eqb (yi >? y)%Z (yj >? y)%Z) then
    height ← from_int (yj - yi)%Z;
    product ← from_int ((xj - xi) * (y - yi))%Z;
    start ← from_int xi;
    Some (int_ltb x (product / (height + lit (1 # 1000000)) + start))
  else Some false.

(** The loop of lines 400-405: [idxs] is what is left of [range(n)]. *)
Fixpoint ray_cast (x y : Z) (poly : list (Z * Z)) (idxs : list nat) (j : nat)
    (inside : bool) : option bool :=
  match idxs with
  | [] => Some inside
  | i :: rest =>
      pi ← poly !! i;
      pj ← poly !! j;
      crosses x y pi pj ≫= λ crossed : bool,
        ray_cast x y poly rest i (if crossed then negb inside else inside)
  end.

(** The body of the loop of line 392 for one country: is the point in its
    polygon? *)
Definition hit (x y : Z) (c : Country A) : option bool :=
  let xs := (polygon c).*1 in
  let ys := (polygon c).*2 in
  min_x ← py_min_list xs;
  max_x ← py_max_list xs;
  min_y ← py_min_list ys;
  max_y ← py_max_list ys;
  if negb ((min_x <=? x)%Z && (x <=? max_x)%Z
           && (min_y <=? y)%Z && (y <=? max_y)%Z)
  then Some false
  else
    let n := length (polygon c) in
    ray_cast x y (polygon c) (seq 0 n) (n - 1) false.

Fixpoint get_country_from (x y : Z) (cs : list (Country A)) (k : nat)
    : option (option nat) :=
  match cs with
  | [] => Some None
  | c :: rest =>
      hit x y c ≫= λ inside : bool,
        if inside then Some (Some k) else get_country_from x y rest (S k)
  end.

Definition get_country_at (g : Game) (pos : Z * Z) : option (option nat) :=
  get_country_from pos.1 pos.2 (countries (world g)) 0.

(** *** [ai_actions] (lines 410-425) *)

(** What one turn draws from [random]: for the country at index [k], the
    index [random.choice] picks among the policies, the index it picks
    among the targets, and the fluctuation of [update_economy]. *)
Record Draws := {
  policy_draws : nat -> nat;
  target_draws : nat -> nat;
  fluctuations : nat -> A
}.

(** [random.choice(xs)] with the index drawn: [IndexError] on an empty
    list. *)
Definition random_choice {X : Type} (draw : nat) (xs : list X) : option X :=
  xs !! (draw mod length xs)%nat.

Definition ai_choices : list (option string) :=
  [Some "lower_taxes"; Some "raise_taxes"; Some "lower_tariffs";
   Some "raise_tariffs"; Some "invest_in_infrastructure"; None].

(** The body of the loop for the country at index [k]. *)
Definition ai_action (d : Draws)
    (player : option nat) (k : nat) (cs : list (Country A))
    : option (list (Country A)) :=
  if bool_decide (player = Some k) then Some cs
  else
    c ← cs !! k;
    choice ← random_choice (policy_draws d k) ai_choices;
    match choice with
    | Some policy =>
        if String.eqb policy "sanction" then
          let targets := filter (λ j, j ≠ k) (seq 0 (length cs)) in
          match targets with
          | [] => Some cs
          | _ :: _ =>
              j ← random_choice (target_draws d k) targets;
              target ← cs !! j;
              Some (<[k := apply_policy "sanction" (Some target) c]> cs)
          end
        else Some (<[k := apply_policy policy None c]> cs)
    | None => Some cs
    end.

Definition ai_actions (d : Draws) (g : Game) : option Game :=
  cs ← for_each (ai_action d (player_country g))
                (seq 0 (length (countries (world g))))
                (countries (world g));
  Some (set_world {| countries := cs |} g).

(** *** [advance_turn] (lines 427-436) *)

(** The messages of lines 431-434.  A Python set is iterated in an order
    of its own; here it is the order of [elements]. *)
Definition sanctions_messages (cs : list (Country A)) : list string :=
  c ← cs;
  (λ s, name c +:+ " sanctioned " +:+ s) <$> elements (new_sanctions c).

Definition advance_turn (d : Draws) (g : Game) : option Game :=
  g1 ← ai_actions d g;
  w ← update (fluctuations d) (world g1);
  let g2 := set_turn_count (turn_count g1 + 1)%Z (set_world w g1) in
  match sanctions_messages (countries w) with
  | [] => Some g2
  | msgs => Some (set_message (String.concat ", " msgs) g2)
  end.

(** *** [handle_key] (lines 359-388) *)

(** The key codes [pygame.K_1] ... [pygame.K_6]. *)
Definition K_1 : Z := 49.
Definition K_2 : Z := 50.
Definition K_3 : Z := 51.
Definition K_4 : Z := 52.
Definition K_5 : Z := 53.
Definition K_6 : Z := 54.

(** [self.player_country.apply_policy(policy)], the message, and the
    turn. *)
Definition play_policy (d : Draws) (p : nat) (policy : string)
    (target : option nat) (msg : string) (g : Game) : option Game :=
  c ← countries (world g) !! p;
  t ← match target with
       | Some k => Some <$> countries (world g) !! k
       | None => Some None
       end;
  advance_turn d
    (set_message msg
       (set_world
          {| countries := <[p := apply_policy policy t c]> (countries (world g)) |}
          g)).

Definition handle_key (d : Draws) (key : Z) (g : Game) : option Game :=
  match player_country g, selected_country g with
  | Some p, Some s =>
      if negb (bool_decide (s = p)) then Some g
      else if awaiting_sanction_target g then Some g
      else
        let play := play_policy d p in
        if (key =? K_1)%Z then play "lower_taxes" None "Lowered taxes." g
        else if (key =? K_2)%Z then play "raise_taxes" None "Raised taxes." g
        else if (key =? K_3)%Z then play "lower_tariffs" None "Lowered tariffs." g
        else if (key =? K_4)%Z then play "raise_tariffs" None "Raised tariffs." g
        else if (key =? K_5)%Z then
          play "invest_in_infrastructure" None "Invested in infrastructure." g
        else if (key =? K_6)%Z then
          Some (set_message "Click a country to sanction." (set_awaiting true g))
        else Some g
  | _, _ => Some g
  end.

(** *** [handle_click] (lines 338-357) *)

Definition handle_click (d : Draws) (pos : Z * Z) (g : Game) : option Game :=
  if (pos.1 <? map_width g)%Z then
    clicked ← get_country_at g pos;
    match awaiting_sanction_target g, clicked, player_country g with
    | true, Some k, Some p =>
        if negb (bool_decide (k = p)) then
          ck ← countries (world g) !! k;
          play_policy d p "sanction"
            (Some k) ("You sanctioned " +:+ name ck +:+ ".")
            (set_awaiting false g)
        else
          Some (set_awaiting false
                  (set_message "Cannot sanction your own country." g))
    | _, _, _ =>
        let g1 := set_selected_country clicked g in
        match player_country g, clicked with
        | None, Some k =>
            ck ← countries (world g) !! k;
            Some (set_message ("You are now playing as " +:+ name ck +:+ ".")
                    (set_player_country (Some k) g1))
        | _, _ =>
            match clicked with
            | Some k =>
                ck ← countries (world g) !! k;
                Some (set_message ("Selected " +:+ name ck) g1)
            | None => Some (set_message EmptyString g1)
            end
        end
    end
  else Some g.

(** *** [run] (lines 321-336) *)

(** The events of pygame the loop tells apart, each with what the turn it
    may start draws. *)
Inductive Event :=
  | QUIT
  | MOUSEBUTTONDOWN (pos : Z * Z)
  | KEYDOWN (key : Z)
  | OTHER.

Definition is_quit (e : Event) : bool :=
  match e with QUIT => true | _ => false end.

(** The body of the loop of line 324. *)
Definition handle_event (ed : Event * Draws) (g : Game) : option Game :=
  match ed.1 with
  | MOUSEBUTTONDOWN pos => handle_click ed.2 pos g
  | KEYDOWN key => handle_key ed.2 key g
  | QUIT | OTHER => Some g
  end.

(** The loop of [run] over the events of the frames that are given, the
    drawing left out: the events of a frame are all handled, and no frame
    follows one that holds a [QUIT]. *)
Fixpoint run (frames : list (list (Event * Draws))) (g : Game) : option Game :=
  match frames with
  | [] => Some g
  | events :: rest =>
      for_each handle_event events g ≫= λ g' : Game,
        if existsb (λ ed, is_quit ed.1) events then Some g' else run rest g'
  end.

End Game.

Arguments Game A : clear implicits.
Arguments Draws A : clear implicits.


(** * The vocabulary of the properties

    The predicates and quantities in which the properties below are
    stated, and the quantities their proofs follow through the loops.
    From here on the arithmetic notations are those of [Qc]. *)

Local Open Scope Qc_scope.

(** ** Policies *)

(** The four policies that move a rate, and the six policies
    [apply_policy] knows. *)
Definition rate_policies : list string :=
  ["lower_taxes"; "raise_taxes"; "lower_tariffs"; "raise_tariffs"].

Definition supported_policies : list string :=
  ["lower_taxes"; "raise_taxes"; "lower_tariffs"; "raise_tariffs";
   "invest_in_infrastructure"; "sanction"].

(** A finite sequence of [apply_policy] calls on one country. *)
Definition apply_policies {A} `{Num A}
    (calls : list (string * option (Country A))) (c : Country A) : Country A :=
  fold_left (λ c call, apply_policy call.1 call.2 c) calls c.

(** [tax_rate] in [0.0, 0.5] and [tariff_rate] in [0.0, 1.0]. *)
Definition rates_in_range (c : Country Qc) : Prop :=
  (0 <= tax_rate c /\ tax_rate c <= lit 0.5) /\
  (0 <= tariff_rate c /\ tariff_rate c <= lit 1.0).

(** ** Malformed lists of countries *)

Definition duplicate_names {A} `{Num A} (cs : list (Country A)) : Prop :=
  ~ NoDup (name <$> cs).

Definition mismatched_kinds {A} `{Num A} (cs : list (Country A)) : Prop :=
  exists c1 c2, c1 ∈ cs /\ c2 ∈ cs /\ dom (resources c1) ≠ dom (resources c2).

Definition negative_population (cs : list (Country Qc)) : Prop :=
  exists c, c ∈ cs /\ population c < 0.

(** ** Stocks and shipments *)

(** Every stock of a country, and of every country of a list, is
    non-negative. *)
Definition country_stocks_nonneg (c : Country Qc) : Prop :=
  forall kind stock, resources c !! kind = Some stock -> 0 <= stock.

Definition stocks_nonneg (cs : list (Country Qc)) : Prop :=
  forall c kind stock,
    c ∈ cs -> resources c !! kind = Some stock -> 0 <= stock.

(** The oil of every country, in list order. *)
Definition oil_of {A} `{Num A} (w : World A) : list A :=
  stock_of "oil" <$> countries w.

(** The volume and the volume after tariff of every executed pair. *)
Definition shipped {A} (lg : list (Shipment A)) : list (A * A) :=
  (λ s, (volume s, volume_after_tariff s)) <$> lg.

(** The tariff-withheld volume of the executed pairs of one resource
    kind. *)
Definition withheld {A} `{Num A} (resource : string) (lg : list (Shipment A)) : A :=
  foldr (λ s acc,
           if String.eqb (ship_resource s) resource
           then ((volume s - volume_after_tariff s) + acc)%num else acc)
        (lit 0.0) lg.

(** What the specification expects of the scenario, at a carrier [A]:
    one shipment of 2.0 of which 1.8 arrives, [A] left with 98.0 and [B]
    with 1.8. *)
Definition scenario_outcome (A : Type) `{Num A} : Prop :=
  exists w' lg,
    resolve_trade_log (scenario (A := A)) = Some (w', lg) /\
    resolve_trade scenario = Some w' /\
    oil_of w' = [lit 98.0; lit 1.8] /\
    shipped lg = [(lit 2.0, lit 1.8)].

(** The world and the shipments of one run of trade clearing on the
    scenario. *)
Definition scenario_result : World Qc * list (Shipment Qc) :=
  default (scenario, []) (resolve_trade_log scenario).

(** ** Invariants of the clearing loops *)

(** The quantity every executed pair keeps: stock plus what tariffs
    withheld so far. *)
Definition balance (r : string) (st : TradeState Qc) : Qc :=
  total_stock r st.1 + withheld r st.2.

(** With every tariff at zero nothing is withheld. *)
Definition no_leak (st : TradeState Qc) : Prop :=
  Forall (λ c, tariff_rate c = 0) st.1 /\
  Forall (λ s, volume_after_tariff s = volume s) st.2.

(** ** Trade clearing as a list of additive changes *)

(** [cs[k].resources[r] += d] *)
Definition bump (r : string) (b : nat * Qc) (cs : list (Country Qc))
    : option (list (Country Qc)) :=
  stock_update (λ stock, stock + b.2) b.1 r cs.

(** What trade clearing reads of a country and never writes. *)
Definition static (c : Country Qc) : string * gset string * Qc :=
  (name c, sanctions c, tariff_rate c).

Definition statics (cs : list (Country Qc)) : list (string * gset string * Qc) :=
  static <$> cs.

(** A step is planned when its effect on the countries is that of a
    list of changes fixed by what the step reads and never writes. *)
Definition planned (r : string) (ref : list (string * gset string * Qc))
    (step : TradeState Qc -> option (TradeState Qc))
    (plan : list (nat * Qc)) : Prop :=
  forall st, statics st.1 = ref ->
    fst <$> step st = for_each (bump r) plan st.1.

(** A name, and every name of the world, has its entries in the
    snapshot. *)
Definition known (snap : Snapshot Qc) (n : string) : Prop :=
  is_Some (demands snap !! n) /\ is_Some (supplies snap !! n).

Definition names_known (snap : Snapshot Qc)
    (ref : list (string * gset string * Qc)) : Prop :=
  Forall (λ s, is_Some (demands snap !! s.1.1) /\
               is_Some (supplies snap !! s.1.1)) ref.

(** The changes of one (importer, exporter) pair. *)
Definition pair_bumps (snap : Snapshot Qc) (demand : Qc)
    (ref : list (string * gset string * Qc)) (i j : nat) : list (nat * Qc) :=
  match ref !! i, ref !! j with
  | Some importer, Some exporter =>
      match supplies snap !! exporter.1.1 with
      | Some supply =>
          if nleb supply (lit 0) then []
          else if bool_decide (importer.1.1 ∈ exporter.1.2)
                  || bool_decide (exporter.1.1 ∈ importer.1.2) then []
          else [(j, - (supply / total_supply snap * demand));
                (i, supply / total_supply snap * demand
                      * (lit 1.0 - importer.2))]
      | None => []
      end
  | _, _ => []
  end.

(** The changes of one importer. *)
Definition importer_bumps (snap : Snapshot Qc)
    (ref : list (string * gset string * Qc)) (exporters : list nat)
    (i : nat) : list (nat * Qc) :=
  match ref !! i with
  | Some importer =>
      match demands snap !! importer.1.1 with
      | Some demand =>
          if nleb demand (lit 0) then []
          else exporters ≫= pair_bumps snap demand ref i
      | None => []
      end
  | None => []
  end.

(** The orders in which a loop can enumerate a list of [n] countries. *)
Definition valid_order (n : nat) (order : list nat) : Prop :=
  order ≡ₚ seq 0 n.

(** What [trade_resource] does to the countries: the changes of all
    pairs, applied to the stocks. *)
Definition resource_bumps (importers exporters : list nat) (r : string)
    (cs : list (Country Qc)) : list (nat * Qc) :=
  let snap := take_snapshot r cs in
  if nleb (total_supply snap) (lit 0) || nleb (total_demand snap) (lit 0)
  then []
  else importers ≫= importer_bumps snap (statics cs) exporters.

(** ** Figures at the end of the binary64 range *)

(** A country whose gdp has grown beyond the largest float: it is
    [float('inf')], and the rates are the defaults. *)
Definition boundless : Country float :=
  Country_init "A" [] (0, 0, 0)%Z None (Some infinity) None None None None None.

(** A country with no gdp whose growth rate is the largest float,
    1.7976931348623157e308, and whose tax rate is the opposite of it. *)
Definition overheated : Country float :=
  Country_init "A" [] (0, 0, 0)%Z None (Some (lit 0.0))
    (Some 0x1.fffffffffffffp+1023%float) None
    (Some (-0x1.fffffffffffffp+1023)%float) None None.

(** ** What an operation leaves of a country *)

(** What a run of trade clearing leaves of a country: every field but
    the stocks, and the resource kinds. *)
Definition same_but_stocks {A} (c c' : Country A) : Prop :=
  name c' = name c /\ polygon c' = polygon c /\ color c' = color c /\
  gdp c' = gdp c /\ growth_rate c' = growth_rate c /\
  population c' = population c /\ tax_rate c' = tax_rate c /\
  tariff_rate c' = tariff_rate c /\ sanctions c' = sanctions c /\
  new_sanctions c' = new_sanctions c /\
  dom (resources c') = dom (resources c).

(** What a turn leaves of a country: every field but the stocks and the
    gdp, with the sanctions of the turn forgotten. *)
Definition turn_keeps {A} (c c' : Country A) : Prop :=
  name c' = name c /\ polygon c' = polygon c /\ color c' = color c /\
  growth_rate c' = growth_rate c /\ population c' = population c /\
  tax_rate c' = tax_rate c /\ tariff_rate c' = tariff_rate c /\
  sanctions c' = sanctions c /\ new_sanctions c' = ∅ /\
  dom (resources c') = dom (resources c).

(** Every country of the list has its entries in the snapshot. *)
Definition snapshot_covers {A} (snap : Snapshot A) (cs : list (Country A)) : Prop :=
  forall c, c ∈ cs ->
    is_Some (demands snap !! name c) /\ is_Some (supplies snap !! name c).

(** Every country holds the resource kinds of the first one. *)
Definition holds_first_kinds {A} (cs : list (Country A)) : Prop :=
  forall first c, head cs = Some first -> c ∈ cs ->
    dom (resources first) ⊆ dom (resources c).

(** Every country of the list holds the resource kind. *)
Definition all_hold {A} (r : string) (cs : list (Country A)) : Prop :=
  forall c, c ∈ cs -> r ∈ dom (resources c).

(** ** Repeated operations *)

(** [n] turns of production, [n] calls of one policy. *)
Definition produce_turns {A} `{Num A} (n : nat) (c : Country A) : Country A :=
  Nat.iter n produce_resources c.

Definition repeat_policy {A} `{Num A} (n : nat) (policy : string)
    (c : Country A) : Country A :=
  Nat.iter n (apply_policy policy None) c.

(** The number [n] among the rationals. *)
Definition count (n : nat) : Qc := Q2Qc (inject_Z (Z.of_nat n)).

(** The fields [apply_policy] has no assignment to. *)
Definition same_identity {A} (c c' : Country A) : Prop :=
  name c' = name c /\ polygon c' = polygon c /\ color c' = color c /\
  gdp c' = gdp c /\ population c' = population c.

(** ** Demand, supply and the net change of a stock *)

(** What a country consumes of every kind in a turn, what it is short of
    and what it has to spare (lines 183-192). *)
Definition consumption (c : Country Qc) : Qc := (population c * lit 0.2)%num.

Definition demand_of (r : string) (c : Country Qc) : Qc :=
  if nltb (stock_of r c) (consumption c)
  then (consumption c - stock_of r c)%num else lit 0.0.

Definition supply_of (r : string) (c : Country Qc) : Qc :=
  if nltb (stock_of r c) (consumption c)
  then lit 0.0 else (stock_of r c - consumption c)%num.

(** The sum of a quantity over a list. *)
Definition sum_of {X : Type} (f : X -> Qc) (xs : list X) : Qc :=
  foldr (λ x acc, f x + acc) 0 xs.

(** The net change a list of changes makes to the stock of the country
    at index [k]. *)
Definition net (k : nat) (plan : list (nat * Qc)) : Qc :=
  sum_of (λ b, if decide (b.1 = k) then b.2 else 0) plan.

(** The country [c'] is the country [c] with [delta] added to its stock
    of the kind [r], if it holds that kind. *)
Definition moved (r : string) (delta : Qc) (c c' : Country Qc) : Prop :=
  same_but_stocks c c' /\
  resources c' !! r = (λ stock, stock + delta) <$> resources c !! r /\
  forall r', r' ≠ r -> resources c' !! r' = resources c !! r'.

(** The country [c'] is the country [c] up to its stocks, with the same
    stock of the kind [r]. *)
Definition agrees_on (r : string) (c c' : Country Qc) : Prop :=
  same_but_stocks c c' /\ resources c' !! r = resources c !! r.

(** The quantity of the country at index [k], zero past the end of the
    list. *)
Definition at_index (f : Country Qc -> Qc) (cs : list (Country Qc))
    (k : nat) : Qc :=
  default 0 (f <$> cs !! k).

(** ** The game *)

(** The policies the computer chooses from. *)
Definition economic_policies : list string :=
  ["lower_taxes"; "raise_taxes"; "lower_tariffs"; "raise_tariffs";
   "invest_in_infrastructure"].

(** What the computer does to one country in one turn: nothing, or one
    policy, without a target. *)
Definition ai_moved {A} `{Num A} (c c' : Country A) : Prop :=
  c' = c \/
  exists policy, policy ∈ economic_policies /\ c' = apply_policy policy None c.

(** Two states of the game that differ in the world only. *)
Definition same_but_world {A} (g g' : Game A) : Prop :=
  map_width g' = map_width g /\ player_country g' = player_country g /\
  selected_country g' = selected_country g /\
  awaiting_sanction_target g' = awaiting_sanction_target g /\
  turn_count g' = turn_count g /\ message g' = message g.

(** What a game never changes of a country: its name, polygon, colour,
    population and resource kinds; and no sanction is ever lifted. *)
Definition game_keeps {A} (c c' : Country A) : Prop :=
  name c' = name c /\ polygon c' = polygon c /\ color c' = color c /\
  population c' = population c /\ sanctions c ⊆ sanctions c' /\
  dom (resources c') = dom (resources c).

(** The corners of a polygon lie in the square of the points whose
    coordinates are at most [b] in absolute value. *)
Definition within (b : Z) (poly : list (Z * Z)) : Prop :=
  forall p, p ∈ poly -> (Z.abs p.1 <= b)%Z /\ (Z.abs p.2 <= b)%Z.

(** Every int up to [m] in absolute value is a number of the carrier. *)
Definition converts (A : Type) `{FromInt A} (m : Z) : Prop :=
  forall z, (Z.abs z <= m)%Z -> is_Some (from_int (A := A) z).

(** The states in which the handlers raise nothing: every country holds
    the resource kinds of the first one and has a polygon with a corner
    and with all corners within [b], and the player's and the selected
    country are in the list. *)
Definition playable {A} (b : Z) (g : Game A) : Prop :=
  holds_first_kinds (countries (world g)) /\
  (forall c, c ∈ countries (world g) ->
     polygon c ≠ [] /\ within b (polygon c)) /\
  (forall p, player_country g = Some p ->
     (p < length (countries (world g)))%nat) /\
  (forall s, selected_country g = Some s ->
     (s < length (countries (world g)))%nat).

(** What the handlers keep of the game, from a state to a later one. *)
Definition stepped {A} (g g' : Game A) : Prop :=
  map_width g' = map_width g /\
  Forall2 game_keeps (countries (world g)) (countries (world g')) /\
  (forall p, player_country g = Some p -> player_country g' = Some p) /\
  (forall p, player_country g' = Some p ->
     player_country g = Some p \/ (p < length (countries (world g)))%nat) /\
  (forall s, selected_country g' = Some s ->
     selected_country g = Some s \/ (s < length (countries (world g)))%nat) /\
  (turn_count g <= turn_count g')%Z /\
  (player_country g' = None ->
     world g' = world g /\ turn_count g' = turn_count g).

(** ** Worlds and games the properties are read at *)

(** One turn of the scenario's world, every fluctuation at 0.005. *)
Definition steady : nat -> Qc := λ _, lit 0.005.

Definition scenario_turn : World Qc := default scenario (update steady scenario).

(** Draws with which the computer does nothing. *)
Definition idle_draws : Draws Qc :=
  {| policy_draws := λ _, 5%nat; target_draws := λ _, 0%nat;
     fluctuations := steady |}.

Definition first_turn : Game Qc :=
  default Game_init (advance_turn idle_draws Game_init).

(** A short game: Albia is chosen, lowers its taxes, and the window is
    closed. *)
Definition short_game : list (list (Event * Draws Qc)) :=
  [[(MOUSEBUTTONDOWN (10, 10)%Z, idle_draws); (KEYDOWN K_1, idle_draws)];
   [(QUIT, idle_draws)]].

Definition short_game_end : Game Qc :=
  default Game_init (run short_game Game_init).

(** The same game with binary64 figures. *)
Definition idle_draws_binary64 : Draws float :=
  {| policy_draws := λ _, 5%nat; target_draws := λ _, 0%nat;
     fluctuations := λ _, lit 0.005 |}.

Definition short_game_binary64 : list (list (Event * Draws float)) :=
  [[(MOUSEBUTTONDOWN (10, 10)%Z, idle_draws_binary64);
    (KEYDOWN K_1, idle_draws_binary64)];
   [(QUIT, idle_draws_binary64)]].

(** A country that reaches from 0 to 10^400, far beyond the floats. *)
Definition far_country : Country float :=
  Country_init "Far" [(0, 0); (10 ^ 400, 0); (10 ^ 400, 10); (0, 10)]%Z
    (0, 0, 0)%Z None None None None None None None.

Definition far_game : Game float :=
  set_world {| countries := [far_country] |} Game_init.

(** Albia plays, and has pressed 6. *)
Definition awaiting_game : Game Qc :=
  set_awaiting true
    (set_selected_country (Some 0%nat)
       (set_player_country (Some 0%nat) Game_init)).

Definition sanction_click : Game Qc :=
  default awaiting_game (handle_click idle_draws (310, 10)%Z awaiting_game).

(** [A] has sanctioned [B]. *)
Definition embargo : World Qc :=
  {| countries := [apply_policy "sanction" (Some scenario_B) scenario_A;
                   scenario_B] |}.

(** * Properties, in exact arithmetic *)

(** ** Arithmetic of the carrier [Qc] *)

(** Goals about the order of [Qc] are sent to [Q], where [lra] decides
    them. *)
Ltac qc_order :=
  unfold nadd, nsub, nmul, lit, Qc_Num in *;
  unfold Qcle, Qclt, Qcminus, Qcopp, Qcplus, Qcmult, Q2Qc in *;
  cbn [this] in *;
  rewrite ?Qred_correct in *;
  lra.

(** Structural equality of computed lists of rationals, component by
    component. *)
Ltac qc_compare :=
  vm_compute;
  repeat first
    [ apply Qc_is_canon; reflexivity
    | apply (f_equal2 (@cons _))
    | apply (f_equal2 (@pair _ _))
    | reflexivity ].

(** Equations of the field [Qc], after the carrier's operations are
    unfolded. *)
Ltac qc_ring :=
  cbn [nadd nsub nmul ndiv lit Qc_Num];
  repeat match goal with
  | |- context [Qcdiv ?a ?b] => generalize (Qcdiv a b); intro
  end;
  ring.

Lemma nleb_true (x y : Qc) : nleb x y = true <-> x <= y.
Proof. apply Qle_bool_iff. Qed.

Lemma nleb_false (x y : Qc) : nleb x y = false <-> y < x.
Proof.
  rewrite <- not_true_iff_false, nleb_true. split.
  - apply Qcnot_le_lt.
  - apply Qclt_not_le.
Qed.

Lemma nltb_true (x y : Qc) : nltb x y = true <-> x < y.
Proof.
  unfold nltb; simpl. rewrite negb_true_iff. apply (nleb_false y x).
Qed.

Lemma nltb_false (x y : Qc) : nltb x y = false <-> y <= x.
Proof.
  unfold nltb; simpl. rewrite negb_false_iff. apply (nleb_true y x).
Qed.

Lemma pymax_cases (a b : Qc) :
  (a < b /\ pymax a b = b) \/ (b <= a /\ pymax a b = a).
Proof.
  unfold pymax. destruct (nltb a b) eqn:E.
  - left. split; [by apply nltb_true | done].
  - right. split; [by apply nltb_false | done].
Qed.

Lemma pymin_cases (a b : Qc) :
  (b < a /\ pymin a b = b) \/ (a <= b /\ pymin a b = a).
Proof.
  unfold pymin. destruct (nltb b a) eqn:E.
  - left. split; [by apply nltb_true | done].
  - right. split; [by apply nltb_false | done].
Qed.

(** ** [update_economy] *)

(** C7: after [update_economy] the gdp of a country whose gdp was
    non-negative is non-negative, for every fluctuation drawn from
    [-0.01, 0.01] and every tax rate and growth rate. *)
Theorem update_economy_gdp_nonneg (c : Country Qc) (fluctuation : Qc) :
  0 <= gdp c ->
  lit (-0.01) <= fluctuation /\ fluctuation <= lit 0.01 ->
  0 <= gdp (update_economy fluctuation c).
Proof.
  intros _ _. unfold update_economy. cbn [gdp set_gdp].
  match goal with |- _ <= pymax ?a ?b =>
    destruct (pymax_cases a b) as [[Hlt ->] | [Hle ->]] end.
  - qc_order.
  - revert Hle. generalize (pymax (growth_rate c - tax_rate c * lit 0.5)%num (lit (-0.05))).
    intros g Hle. eapply Qcle_trans; [| exact Hle]. qc_order.
Qed.

Lemma update_economy_gdp_nonneg_witness :
  0 <= gdp (update_economy (lit 0.005) (scenario_A (A := Qc))).
Proof.
  apply update_economy_gdp_nonneg.
  - apply Qle_bool_iff. vm_compute. reflexivity.
  - split; apply Qle_bool_iff; vm_compute; reflexivity.
Defined.

(** ** [apply_policy]: the four rate policies *)

Lemma apply_policy_rates (policy : string) (target : option (Country Qc))
    (c : Country Qc) :
  rates_in_range c -> rates_in_range (apply_policy policy target c).
Proof.
  unfold rates_in_range, apply_policy. intros [[Ht0 Ht1] [Hf0 Hf1]].
  repeat match goal with
  | |- context [String.eqb policy ?s] => destruct (String.eqb policy s)
  end;
  try match goal with |- context [forallb ?f ?l] => destruct (forallb f l) end;
  try (destruct target as [t|]; [destruct (bool_decide _)|]);
  cbn [tax_rate tariff_rate set_tax_rate set_tariff_rate set_growth_rate
       set_resources set_sanctions];
  try match goal with
  | |- context [pymax ?a ?b] =>
      destruct (pymax_cases a b) as [[Hc ->] | [Hc ->]]
  | |- context [pymin ?a ?b] =>
      destruct (pymin_cases a b) as [[Hc ->] | [Hc ->]]
  end; repeat split; qc_order.
Qed.

(** C8: the tax rate stays in [0.0, 0.5] and the tariff rate in
    [0.0, 1.0] through every finite sequence of [lower_taxes],
    [raise_taxes], [lower_tariffs] and [raise_tariffs] calls. *)
Theorem apply_policies_rates_in_range
    (calls : list (string * option (Country Qc))) (c : Country Qc) :
  Forall (λ call, call.1 ∈ rate_policies) calls ->
  rates_in_range c ->
  rates_in_range (apply_policies calls c).
Proof.
  intros _. revert c. unfold apply_policies.
  induction calls as [|call calls IH]; intros c Hc; cbn [fold_left].
  - exact Hc.
  - apply IH. by apply apply_policy_rates.
Qed.

Lemma apply_policies_rates_in_range_witness :
  rates_in_range
    (apply_policies [("raise_taxes", None); ("lower_tariffs", None);
                     ("raise_tariffs", None); ("lower_taxes", None)]
                    (scenario_A (A := Qc))).
Proof.
  apply apply_policies_rates_in_range.
  - repeat constructor; vm_compute; set_solver.
  - repeat split; apply Qle_bool_iff; vm_compute; reflexivity.
Defined.

(** ** [apply_policy]: investment, sanctions and unknown policies *)

Section Policies.
Context {A : Type} {NumA : Num A}.

(** C9: sanctioning is idempotent.  After the first [sanction] call the
    target's name is in [sanctions]; a second call changes nothing at all;
    and [new_sanctions] gains the name exactly when it was not in
    [sanctions] before the call. *)
Theorem sanction_idempotent (a b : Country A) :
  let a1 := apply_policy "sanction" (Some b) a in
  let a2 := apply_policy "sanction" (Some b) a1 in
  name b ∈ sanctions a1 /\
  sanctions a1 = {[name b]} ∪ sanctions a /\
  sanctions a2 = sanctions a1 /\
  a2 = a1 /\
  new_sanctions a1 =
    (if bool_decide (name b ∈ sanctions a) then new_sanctions a
     else {[name b]} ∪ new_sanctions a) /\
  new_sanctions a2 = new_sanctions a1.
Proof.
  cbv zeta. cbn [apply_policy String.eqb Ascii.eqb Bool.eqb].
  destruct (bool_decide (name b ∈ sanctions a)) eqn:E.
  - apply bool_decide_eq_true in E. rewrite bool_decide_eq_true_2 by done.
    repeat split; try done.
    symmetry. apply subseteq_union_1_L, singleton_subseteq_l, E.
  - cbn [sanctions new_sanctions set_sanctions name].
    assert (Hin : name b ∈ ({[name b]} ∪ sanctions a : gset string))
      by apply elem_of_union_l, elem_of_singleton_2, eq_refl.
    rewrite bool_decide_eq_true_2 by exact Hin.
    repeat split; try done.
Qed.

(** C10: a policy name outside the six supported ones, or [sanction]
    without a target, leaves every field of the country as it was. *)
Theorem apply_policy_unsupported (policy : string) (target : option (Country A))
    (c : Country A) :
  policy ∉ supported_policies \/ (policy = "sanction" /\ target = None) ->
  apply_policy policy target c = c.
Proof.
  intros [Hout | [-> ->]]; [|reflexivity].
  unfold apply_policy.
  repeat match goal with
  | |- context [String.eqb policy ?s] =>
      destruct (String.eqb_spec policy s) as [->|_];
      [exfalso; apply Hout; unfold supported_policies; set_solver|]
  end.
  reflexivity.
Qed.

End Policies.

Lemma apply_policy_unsupported_witness :
  apply_policy "nationalise_oil" (Some scenario_B) (scenario_A (A := Qc))
    = scenario_A /\
  apply_policy "sanction" None (scenario_A (A := Qc)) = scenario_A.
Proof.
  split.
  - apply apply_policy_unsupported. left.
    unfold supported_policies. intros Hin.
    repeat (apply elem_of_cons in Hin as [Hin | Hin]; [discriminate Hin|]).
    by apply elem_of_nil in Hin.
  - apply apply_policy_unsupported. right. split; reflexivity.
Defined.

(** The test [all(value >= 10 for value in self.resources.values())]. *)
Lemma can_invest_spec (m : gmap string Qc) :
  forallb (λ value, nleb (lit 10) value) (dict_values m) = true <->
  (forall kind stock, m !! kind = Some stock -> lit 10 <= stock).
Proof.
  rewrite forallb_forall. unfold dict_values. split.
  - intros Hall kind stock Hk. apply nleb_true, Hall.
    apply list_elem_of_In, list_elem_of_fmap.
    exists (kind, stock). split; [done|]. by apply elem_of_map_to_list.
  - intros Hall stock Hin. apply nleb_true.
    apply list_elem_of_In, list_elem_of_fmap in Hin as ([kind stock'] & -> & Hin).
    apply elem_of_map_to_list in Hin. by eapply Hall.
Qed.

(** C6: [invest_in_infrastructure] changes nothing when some resource
    stock is below 10; when every stock is at least 10 it takes exactly 10
    from every stock, adds exactly 0.005 to the growth rate and leaves the
    other fields as they were. *)
Theorem invest_in_infrastructure_effect (target : option (Country Qc))
    (c : Country Qc) :
  ((exists kind stock, resources c !! kind = Some stock /\ stock < lit 10) ->
   apply_policy "invest_in_infrastructure" target c = c) /\
  ((forall kind stock, resources c !! kind = Some stock -> lit 10 <= stock) ->
   apply_policy "invest_in_infrastructure" target c =
     {| name := name c; polygon := polygon c; color := color c;
        resources := (λ stock, stock - lit 10) <$> resources c;
        gdp := gdp c;
        growth_rate := growth_rate c + lit 0.005;
        population := population c; tax_rate := tax_rate c;
        tariff_rate := tariff_rate c; sanctions := sanctions c;
        new_sanctions := new_sanctions c |}).
Proof.
  cbn [apply_policy String.eqb Ascii.eqb Bool.eqb]. split.
  - intros (kind & stock & Hk & Hlt).
    destruct (forallb _ _) eqn:E; [|reflexivity]. exfalso.
    apply can_invest_spec with (kind := kind) (stock := stock) in E; [|done].
    exact (Qclt_not_le _ _ Hlt E).
  - intros Hall. apply can_invest_spec in Hall. by rewrite Hall.
Qed.

Lemma invest_in_infrastructure_effect_witness :
  apply_policy "invest_in_infrastructure" None (scenario_A (A := Qc))
    = scenario_A /\
  resources (apply_policy "invest_in_infrastructure" None (Demeria (A := Qc)))
    = (λ stock, stock - lit 10) <$> resources Demeria.
Proof.
  split.
  - apply (proj1 (invest_in_infrastructure_effect None scenario_A)).
    exists "minerals", (lit 0.0). split.
    + vm_compute. reflexivity.
    + apply nltb_true. vm_compute. reflexivity.
  - rewrite (proj2 (invest_in_infrastructure_effect None Demeria)).
    + reflexivity.
    + apply can_invest_spec. vm_compute. reflexivity.
Defined.

(** ** Construction of a world *)

(** The claim C4 as the specification words it fails: each kind of
    malformed list is accepted and becomes a world. *)
Lemma World_init_accepts_malformed :
  (duplicate_names (same_name_twice (A := Qc)) /\
   World_init same_name_twice = Built {| countries := same_name_twice |}) /\
  (mismatched_kinds (different_kinds (A := Qc)) /\
   World_init different_kinds = Built {| countries := different_kinds |}) /\
  (negative_population negative_people /\
   World_init negative_people = Built {| countries := negative_people |}).
Proof.
  repeat split.
  - unfold duplicate_names. cbn. intros Hnd.
    apply NoDup_cons in Hnd as [Hnotin _]. apply Hnotin. by left.
  - exists scenario_A, gold_C.
    split; [by left|]. split; [right; by left|].
    intros Heq.
    assert (Hin : "gold" ∈ dom (resources (scenario_A (A := Qc)))).
    { rewrite Heq. apply elem_of_dom. eexists. vm_compute. reflexivity. }
    apply elem_of_dom in Hin as [v Hv]. vm_compute in Hv. discriminate Hv.
  - exists negative_D. split; [by left|].
    apply nltb_true. vm_compute. reflexivity.
Qed.

(** C4 (amended): construction checks nothing; every list of countries,
    well-formed or not, becomes the world that holds exactly that list. *)
Theorem World_init_accepts_every_list {A} `{Num A} (cs : list (Country A)) :
  World_init cs = Built {| countries := cs |}.
Proof. reflexivity. Qed.

(** ** Trade clearing on concrete worlds *)

(** C5: in the two-country scenario one run of trade clearing ships 2.0
    oil from [A] to [B], of which 1.8 arrives: [A] is left with 98.0 and
    [B] with 1.8.  This holds in binary64 arithmetic, bit for bit, and in
    exact arithmetic. *)
Theorem scenario_trade_clearing :
  scenario_outcome float /\ scenario_outcome Qc.
Proof.
  split.
  - eexists _, _. split; [vm_compute; reflexivity|].
    split; [vm_compute; reflexivity|].
    split; vm_compute; reflexivity.
  - eexists _, _. split; [vm_compute; reflexivity|].
    split; [vm_compute; reflexivity|].
    split; qc_compare.
Qed.

(** ** Trade clearing can overdraw an exporter *)

(** C1 fails in [resolve_trade]: in [short_supply] every stock is
    non-negative, the only exporter has a surplus of 1 and the importer a
    demand of 20; the exporter ships its share (all) of the whole demand
    and ends with -17 oil.  The same run in binary64 arithmetic gives the
    same stocks. *)
Theorem resolve_trade_overdraws_exporter :
  stocks_nonneg (countries short_supply) /\
  (exists w', resolve_trade (short_supply (A := Qc)) = Some w' /\
              oil_of w' = [lit (-17.0); lit 18.0]) /\
  (exists w', resolve_trade (short_supply (A := float)) = Some w' /\
              oil_of w' = [lit (-17.0); lit 18.0]).
Proof.
  split; [|split].
  - intros c kind stock Hc Hk.
    assert (Hall : forall c, c ∈ countries (short_supply (A := Qc)) ->
              map_Forall (λ _ v, 0 <= v) (resources c)).
    { clear. intros c Hc. apply map_Forall_to_list.
      cbn in Hc. repeat (apply elem_of_cons in Hc as [-> | Hc]);
        [| | by apply elem_of_nil in Hc];
        vm_compute; repeat constructor; discriminate. }
    exact (Hall c Hc kind stock Hk).
  - eexists. split; [vm_compute; reflexivity|]. qc_compare.
  - eexists. split; vm_compute; reflexivity.
Qed.

(** ** Trade clearing: conservation up to tariff leakage *)

Lemma lit_zero : lit 0.0 = 0 :> Qc.
Proof. apply Qc_is_canon. reflexivity. Qed.

Lemma lit_one : lit 1.0 = 1 :> Qc.
Proof. apply Qc_is_canon. reflexivity. Qed.

(** Loop invariants: what every iteration keeps, the loop keeps. *)
Lemma for_each_invariant {S X : Type} (I : S -> Prop)
    (body : X -> S -> option S) (xs : list X) (st st' : S) :
  (forall x s s', I s -> body x s = Some s' -> I s') ->
  I st -> for_each body xs st = Some st' -> I st'.
Proof.
  intros Hbody. revert st. induction xs as [|x xs IH]; intros st HI Hrun.
  - cbn in Hrun. by simplify_eq.
  - cbn in Hrun. destruct (body x st) as [s1|] eqn:E; [|done].
    cbn in Hrun. eapply IH; [|exact Hrun]. by eapply Hbody.
Qed.

Lemma total_stock_cons (r : string) (c : Country Qc) (cs : list (Country Qc)) :
  total_stock r (c :: cs) = stock_of r c + total_stock r cs.
Proof. reflexivity. Qed.

Lemma total_stock_insert (r : string) (cs : list (Country Qc)) (k : nat)
    (c c' : Country Qc) :
  cs !! k = Some c ->
  total_stock r (<[k := c']> cs)
    = total_stock r cs + (stock_of r c' - stock_of r c).
Proof.
  revert k. induction cs as [|c0 cs IH]; intros [|k] Hk; try done.
  - cbn in Hk. simplify_eq. cbn [insert list_insert].
    rewrite !total_stock_cons. ring.
  - cbn in Hk.
    change (<[S k := c']> (c0 :: cs)) with (c0 :: <[k := c']> cs).
    rewrite !total_stock_cons, (IH k Hk). ring.
Qed.

Lemma stock_update_total (f : Qc -> Qc) (k : nat) (r r' : string)
    (cs cs' : list (Country Qc)) :
  stock_update f k r cs = Some cs' ->
  exists v, (r = r' -> total_stock r' cs' = total_stock r' cs + (f v - v)) /\
            (r ≠ r' -> total_stock r' cs' = total_stock r' cs).
Proof.
  unfold stock_update. intros Hup.
  destruct (cs !! k) as [c|] eqn:Ek; [|done]. cbn in Hup.
  destruct (resources c !! r) as [v|] eqn:Ev; [|done]. cbn in Hup.
  simplify_eq. exists v. split; intros Hr.
  - subst r'. rewrite (total_stock_insert _ _ _ c) by done.
    unfold stock_of. cbn. rewrite lookup_insert_eq, Ev. reflexivity.
  - rewrite (total_stock_insert _ _ _ c) by done.
    unfold stock_of. cbn. rewrite lookup_insert_ne by done. ring.
Qed.

Lemma withheld_snoc (r : string) (lg : list (Shipment Qc)) (s : Shipment Qc) :
  withheld r (lg ++ [s])
    = withheld r lg +
      (if String.eqb (ship_resource s) r
       then volume s - volume_after_tariff s else 0).
Proof.
  unfold withheld. induction lg as [|s0 lg IH].
  - cbn [app foldr]. rewrite lit_zero.
    destruct (String.eqb _ _); cbn [nadd nsub Qc_Num]; ring.
  - cbn [app foldr]. rewrite IH.
    destruct (String.eqb (ship_resource s0) r); cbn [nadd nsub Qc_Num]; ring.
Qed.

Lemma trade_pair_balance (snap : Snapshot Qc) (r r' : string) (demand : Qc)
    (i j : nat) (st st' : TradeState Qc) :
  trade_pair snap r demand i j st = Some st' -> balance r' st' = balance r' st.
Proof.
  unfold trade_pair. intros Hrun.
  destruct (st.1 !! i) as [importer|]; [|done]. cbn [mbind option_bind] in Hrun.
  destruct (st.1 !! j) as [exporter|]; [|done]. cbn [mbind option_bind] in Hrun.
  destruct (supplies snap !! name exporter) as [supply|]; [|done]. cbn [mbind option_bind] in Hrun.
  destruct (nleb supply _); [by simplify_eq|].
  destruct (_ || _); [by simplify_eq|].
  match type of Hrun with
  | context [stock_update ?f j r st.1] =>
      destruct (stock_update f j r st.1) as [cs1|] eqn:E1; [|done]
  end.
  cbn [mbind option_bind] in Hrun.
  match type of Hrun with
  | context [stock_update ?f i r cs1] =>
      destruct (stock_update f i r cs1) as [cs2|] eqn:E2; [|done]
  end.
  cbn [mbind option_bind] in Hrun. simplify_eq.
  apply (stock_update_total _ _ _ r') in E1 as (v1 & E1eq & E1ne).
  apply (stock_update_total _ _ _ r') in E2 as (v2 & E2eq & E2ne).
  unfold balance. cbn [fst snd]. rewrite withheld_snoc. cbn [ship_resource
    volume volume_after_tariff].
  destruct (String.eqb_spec r r') as [->|Hne].
  - rewrite E2eq, E1eq by done. qc_ring.
  - rewrite E2ne, E1ne by done. qc_ring.
Qed.

Lemma trade_importer_balance (snap : Snapshot Qc) (r r' : string)
    (exporters : list nat) (i : nat) (st st' : TradeState Qc) :
  trade_importer snap r exporters i st = Some st' ->
  balance r' st' = balance r' st.
Proof.
  unfold trade_importer. intros Hrun.
  destruct (st.1 !! i) as [importer|]; [|done]. cbn [mbind option_bind] in Hrun.
  destruct (demands snap !! name importer) as [demand|]; [|done]. cbn [mbind option_bind] in Hrun.
  destruct (nleb demand _); [by simplify_eq|].
  eapply (for_each_invariant (λ s, balance r' s = balance r' st));
    [|reflexivity|exact Hrun].
  intros j s s' Hs Hstep. rewrite <- Hs. by eapply trade_pair_balance.
Qed.

Lemma trade_resource_balance (importers exporters : list nat) (r r' : string)
    (st st' : TradeState Qc) :
  trade_resource importers exporters r st = Some st' ->
  balance r' st' = balance r' st.
Proof.
  unfold trade_resource. intros Hrun.
  destruct (_ || _); [by simplify_eq|].
  eapply (for_each_invariant (λ s, balance r' s = balance r' st));
    [|reflexivity|exact Hrun].
  intros i s s' Hs Hstep. rewrite <- Hs. by eapply trade_importer_balance.
Qed.

Lemma resolve_trade_in_balance (importers exporters : list nat)
    (w w' : World Qc) (lg : list (Shipment Qc)) (r : string) :
  resolve_trade_in importers exporters w = Some (w', lg) ->
  total_stock r (countries w') + withheld r lg = total_stock r (countries w).
Proof.
  unfold resolve_trade_in. intros Hrun.
  destruct (countries w) as [|first rest] eqn:Ecs.
  - simplify_eq. unfold withheld. cbn [foldr]. rewrite lit_zero, Ecs. ring.
  - destruct (for_each _ _ _) as [st|] eqn:Eloop; [|done].
    cbn [mbind option_bind] in Hrun. simplify_eq. cbn [countries].
    change (balance r st = total_stock r (first :: rest)).
    transitivity (balance r (first :: rest, [])).
    + eapply (for_each_invariant
                (λ s, balance r s = balance r (first :: rest, [])));
        [|reflexivity|exact Eloop].
      intros r0 s s' Hs Hstep. rewrite <- Hs.
      by eapply trade_resource_balance.
    + unfold balance, withheld. cbn [fst snd foldr]. rewrite lit_zero. ring.
Qed.

Lemma stock_update_tariffs (f : Qc -> Qc) (k : nat) (r : string)
    (cs cs' : list (Country Qc)) :
  stock_update f k r cs = Some cs' ->
  Forall (λ c, tariff_rate c = 0) cs -> Forall (λ c, tariff_rate c = 0) cs'.
Proof.
  unfold stock_update. intros Hup Hall.
  destruct (cs !! k) as [c|] eqn:Ek; [|done]. cbn in Hup.
  destruct (resources c !! r) as [v|]; [|done]. cbn in Hup. simplify_eq.
  apply Forall_insert; [done|]. cbn.
  by eapply (Forall_lookup_1 _ _ _ _ Hall Ek).
Qed.

Lemma trade_pair_no_leak (snap : Snapshot Qc) (r : string) (demand : Qc)
    (i j : nat) (st st' : TradeState Qc) :
  no_leak st -> trade_pair snap r demand i j st = Some st' -> no_leak st'.
Proof.
  unfold trade_pair. intros [Htar Hlog] Hrun.
  destruct (st.1 !! i) as [importer|] eqn:Ei; [|done]. cbn [mbind option_bind] in Hrun.
  destruct (st.1 !! j) as [exporter|]; [|done]. cbn [mbind option_bind] in Hrun.
  destruct (supplies snap !! name exporter) as [supply|]; [|done]. cbn [mbind option_bind] in Hrun.
  destruct (nleb supply _); [by simplify_eq|].
  destruct (_ || _); [by simplify_eq|].
  match type of Hrun with
  | context [stock_update ?f j r st.1] =>
      destruct (stock_update f j r st.1) as [cs1|] eqn:E1; [|done]
  end.
  cbn [mbind option_bind] in Hrun.
  match type of Hrun with
  | context [stock_update ?f i r cs1] =>
      destruct (stock_update f i r cs1) as [cs2|] eqn:E2; [|done]
  end.
  cbn [mbind option_bind] in Hrun. simplify_eq. split; cbn [fst snd].
  - eapply stock_update_tariffs; [exact E2|].
    eapply stock_update_tariffs; [exact E1|done].
  - apply Forall_app. split; [done|].
    apply Forall_singleton. cbn [volume volume_after_tariff].
    rewrite (Forall_lookup_1 _ _ _ _ Htar Ei).
    change (Q2Qc 1.0) with (lit (A := Qc) 1.0). rewrite lit_one.
    qc_ring.
Qed.

Lemma withheld_no_leak (r : string) (lg : list (Shipment Qc)) :
  Forall (λ s, volume_after_tariff s = volume s) lg -> withheld r lg = 0.
Proof.
  unfold withheld. induction 1 as [|s lg Hs _ IH]; cbn [foldr].
  - apply lit_zero.
  - rewrite IH, Hs. destruct (String.eqb _ _); qc_ring.
Qed.

Lemma resolve_trade_in_no_leak (importers exporters : list nat)
    (w w' : World Qc) (lg : list (Shipment Qc)) :
  Forall (λ c, tariff_rate c = 0) (countries w) ->
  resolve_trade_in importers exporters w = Some (w', lg) ->
  Forall (λ s, volume_after_tariff s = volume s) lg.
Proof.
  unfold resolve_trade_in. intros Htar Hrun.
  destruct (countries w) as [|first rest] eqn:Ecs; [by simplify_eq|].
  destruct (for_each _ _ _) as [st|] eqn:Eloop; [|done].
  cbn [mbind option_bind] in Hrun. simplify_eq.
  refine (proj2 (for_each_invariant no_leak _ _ _ _ _ _ Eloop)).
  - intros r s s' Hs. unfold trade_resource.
    destruct (_ || _); [by intros; simplify_eq|].
    apply for_each_invariant; [|done].
    intros i s1 s1' Hs1. unfold trade_importer.
    destruct (s1.1 !! i) as [importer|]; [|done]. cbn [mbind option_bind].
    destruct (demands _ !! name importer) as [demand|]; [|done].
    cbn [mbind option_bind].
    destruct (nleb demand _); [by intros; simplify_eq|].
    apply for_each_invariant; [|done].
    intros j s2 s2' Hs2. by apply trade_pair_no_leak.
  - split; [done|]. constructor.
Qed.

(** C2: one run of trade clearing changes the total stock of every
    resource kind by exactly minus the tariff-withheld volume of the
    executed pairs; when every tariff rate is 0 and nobody sanctions
    anybody, every total is conserved. *)
Theorem resolve_trade_conservation (w w' : World Qc)
    (lg : list (Shipment Qc)) (resource : string) :
  resolve_trade_log w = Some (w', lg) ->
  total_stock resource (countries w')
    = total_stock resource (countries w) - withheld resource lg /\
  ((forall c, c ∈ countries w -> tariff_rate c = 0 /\ sanctions c = ∅) ->
   total_stock resource (countries w') = total_stock resource (countries w)).
Proof.
  unfold resolve_trade_log. intros Hrun.
  pose proof (resolve_trade_in_balance _ _ _ _ _ resource Hrun) as Hbal.
  split.
  - rewrite <- Hbal. ring.
  - intros Hzero. rewrite <- Hbal.
    rewrite (withheld_no_leak resource lg); [ring|].
    eapply resolve_trade_in_no_leak; [|exact Hrun].
    apply Forall_forall. intros c Hc. by apply Hzero.
Qed.

Lemma resolve_trade_conservation_witness :
  total_stock "oil" (countries scenario_result.1)
    = total_stock "oil" (countries scenario) - withheld "oil" scenario_result.2 /\
  ((forall c, c ∈ countries (scenario (A := Qc)) ->
      tariff_rate c = 0 /\ sanctions c = ∅) ->
   total_stock "oil" (countries scenario_result.1)
     = total_stock "oil" (countries scenario)).
Proof.
  apply (resolve_trade_conservation scenario scenario_result.1
           scenario_result.2 "oil").
  vm_compute. reflexivity.
Defined.

(** ** Trade clearing: independence of the enumeration order *)

(** *** Loops *)

Lemma for_each_app {S X : Type} (body : X -> S -> option S) (xs ys : list X)
    (st : S) :
  for_each body (xs ++ ys) st = for_each body xs st ≫= for_each body ys.
Proof.
  revert st. induction xs as [|x xs IH]; intros st; [done|].
  cbn [app for_each]. destruct (body x st) as [s1|]; [apply IH|done].
Qed.

(** Iterations that commute pairwise may run in any order. *)
Lemma for_each_Permutation {S X : Type} (body : X -> S -> option S)
    (xs ys : list X) :
  (forall x y s, body x s ≫= body y = body y s ≫= body x) ->
  xs ≡ₚ ys -> forall st, for_each body xs st = for_each body ys st.
Proof.
  intros Hcomm. induction 1 as [|x xs ys _ IH|x y xs|xs ys zs _ IH1 _ IH2];
    intros st.
  - reflexivity.
  - cbn [for_each]. destruct (body x st); [apply IH|done].
  - cbn [for_each]. specialize (Hcomm x y st).
    destruct (body x st) as [s1|], (body y st) as [s2|];
      cbn [mbind option_bind] in *;
      first [ reflexivity
            | rewrite Hcomm; reflexivity
            | rewrite <- Hcomm; reflexivity ].
  - by rewrite IH1.
Qed.

(** *** Additive changes of one stock *)

Lemma bump_Some (r : string) (k : nat) (d : Qc) (cs : list (Country Qc))
    (c : Country Qc) (v : Qc) :
  cs !! k = Some c -> resources c !! r = Some v ->
  bump r (k, d) cs
    = Some (<[k := set_resources (<[r := v + d]> (resources c)) c]> cs).
Proof.
  intros Hk Hr. unfold bump, stock_update. cbn [fst snd].
  rewrite Hk. cbn [mbind option_bind]. rewrite Hr. reflexivity.
Qed.

Lemma bump_None (r : string) (k : nat) (d : Qc) (cs : list (Country Qc)) :
  cs !! k = None \/ (exists c, cs !! k = Some c /\ resources c !! r = None) ->
  bump r (k, d) cs = None.
Proof.
  unfold bump, stock_update. cbn [fst snd].
  intros [-> | (c & -> & Hr)]; [done|].
  cbn [mbind option_bind]. by rewrite Hr.
Qed.

Lemma bump_twice (r : string) (k : nat) (d d' : Qc) (cs : list (Country Qc))
    (c : Country Qc) (v : Qc) :
  cs !! k = Some c -> resources c !! r = Some v ->
  bump r (k, d) cs ≫= bump r (k, d')
    = Some (<[k := set_resources (<[r := v + d + d']> (resources c)) c]> cs).
Proof.
  intros Hk Hr. rewrite (bump_Some r k d cs c v) by done.
  cbn [mbind option_bind].
  assert (Hlt : (k < length cs)%nat) by (eapply lookup_lt_Some; eauto).
  rewrite (bump_Some r k d'
             (<[k := set_resources (<[r := v + d]> (resources c)) c]> cs)
             (set_resources (<[r := v + d]> (resources c)) c) (v + d));
    [| by apply list_lookup_insert_eq | by apply lookup_insert_eq].
  rewrite list_insert_insert_eq. unfold set_resources.
  cbn [name polygon color resources gdp growth_rate population tax_rate
       tariff_rate sanctions new_sanctions].
  by rewrite insert_insert_eq.
Qed.

Lemma bump_comm (r : string) (b1 b2 : nat * Qc) (cs : list (Country Qc)) :
  bump r b1 cs ≫= bump r b2 = bump r b2 cs ≫= bump r b1.
Proof.
  destruct b1 as [k1 d1], b2 as [k2 d2].
  destruct (cs !! k1) as [c1|] eqn:E1; cycle 1.
  { rewrite (bump_None r k1 d1 cs) by auto. cbn.
    destruct (cs !! k2) as [c2|] eqn:E2;
      [|by rewrite (bump_None r k2 d2 cs) by auto].
    destruct (resources c2 !! r) as [v2|] eqn:Ev2;
      [|by rewrite (bump_None r k2 d2 cs) by eauto].
    rewrite (bump_Some r k2 d2 cs c2 v2) by done. cbn.
    symmetry. apply bump_None. left.
    destruct (decide (k2 = k1)) as [->|Hne]; [congruence|].
    by rewrite list_lookup_insert_ne. }
  destruct (resources c1 !! r) as [v1|] eqn:Ev1; cycle 1.
  { rewrite (bump_None r k1 d1 cs) by eauto. cbn.
    destruct (cs !! k2) as [c2|] eqn:E2;
      [|by rewrite (bump_None r k2 d2 cs) by auto].
    destruct (resources c2 !! r) as [v2|] eqn:Ev2;
      [|by rewrite (bump_None r k2 d2 cs) by eauto].
    rewrite (bump_Some r k2 d2 cs c2 v2) by done. cbn.
    symmetry. apply bump_None.
    destruct (decide (k2 = k1)) as [->|Hne]; [congruence|].
    right. exists c1. by rewrite list_lookup_insert_ne. }
  destruct (decide (k1 = k2)) as [<-|Hne].
  - rewrite (bump_twice r k1 d1 d2 cs c1 v1), (bump_twice r k1 d2 d1 cs c1 v1)
      by done.
    replace (v1 + d1 + d2) with (v1 + d2 + d1) by ring. reflexivity.
  - rewrite (bump_Some r k1 d1 cs c1 v1) by done. cbn [mbind option_bind].
    destruct (cs !! k2) as [c2|] eqn:E2; cycle 1.
    { rewrite (bump_None r k2 d2 cs) by auto.
      apply bump_None. left. by rewrite list_lookup_insert_ne. }
    destruct (resources c2 !! r) as [v2|] eqn:Ev2; cycle 1.
    { rewrite (bump_None r k2 d2 cs) by eauto.
      apply bump_None. right. exists c2. by rewrite list_lookup_insert_ne. }
    rewrite (bump_Some r k2 d2 cs c2 v2) by done. cbn [mbind option_bind].
    rewrite (bump_Some r k2 d2 _ c2 v2);
      [|by rewrite list_lookup_insert_ne|done].
    rewrite (bump_Some r k1 d1 _ c1 v1);
      [|by rewrite list_lookup_insert_ne|done].
    f_equal. by apply list_insert_insert_ne.
Qed.

(** The order in which a list of changes is applied does not matter. *)
Lemma bumps_Permutation (r : string) (bs bs' : list (nat * Qc))
    (cs : list (Country Qc)) :
  bs ≡ₚ bs' -> for_each (bump r) bs cs = for_each (bump r) bs' cs.
Proof.
  intros Hperm. apply for_each_Permutation; [|done].
  intros b1 b2 s. apply bump_comm.
Qed.

Lemma bump_statics (r : string) (b : nat * Qc) (cs cs' : list (Country Qc)) :
  bump r b cs = Some cs' -> statics cs' = statics cs.
Proof.
  unfold bump, stock_update. intros Hb.
  destruct (cs !! b.1) as [c|] eqn:Ek; [|done]. cbn in Hb.
  destruct (resources c !! r) as [v|]; [|done]. cbn in Hb. simplify_eq.
  unfold statics. rewrite list_fmap_insert. apply list_insert_id.
  by rewrite list_lookup_fmap, Ek.
Qed.

Lemma bumps_statics (r : string) (bs : list (nat * Qc))
    (cs cs' : list (Country Qc)) :
  for_each (bump r) bs cs = Some cs' -> statics cs' = statics cs.
Proof.
  apply (for_each_invariant (λ s, statics s = statics cs)); [|done].
  intros b s s' Hs Hb. rewrite <- Hs. by eapply bump_statics.
Qed.

(** *** Trade clearing as a list of additive changes *)

Lemma planned_skip (r : string) (ref : list (string * gset string * Qc)) :
  planned r ref Some [].
Proof. intros st _. reflexivity. Qed.

Lemma planned_for_each {X : Type} (r : string)
    (ref : list (string * gset string * Qc))
    (body : X -> TradeState Qc -> option (TradeState Qc))
    (plan : X -> list (nat * Qc)) (xs : list X) :
  Forall (λ x, planned r ref (body x) (plan x)) xs ->
  planned r ref (for_each body xs) (xs ≫= plan).
Proof.
  induction 1 as [|x xs Hx _ IH]; intros st Href; [reflexivity|].
  cbn [for_each]. rewrite bind_cons, for_each_app.
  specialize (Hx st Href).
  destruct (body x st) as [st1|]; cbn [fmap option_fmap option_map] in Hx;
    rewrite <- Hx; cbn [mbind option_bind]; [|reflexivity].
  apply IH. rewrite <- Href. symmetry in Hx. by eapply bumps_statics.
Qed.

Lemma statics_lookup (cs : list (Country Qc)) (k : nat) :
  (k < length (statics cs))%nat ->
  exists c, cs !! k = Some c /\ statics cs !! k = Some (static c).
Proof.
  unfold statics. rewrite length_fmap. intros Hk.
  destruct (lookup_lt_is_Some_2 cs k Hk) as [c Hc].
  exists c. split; [done|]. by rewrite list_lookup_fmap, Hc.
Qed.

Lemma trade_pair_planned (snap : Snapshot Qc) (r : string) (demand : Qc)
    (ref : list (string * gset string * Qc)) (i j : nat) :
  (i < length ref)%nat -> (j < length ref)%nat -> names_known snap ref ->
  planned r ref (trade_pair snap r demand i j) (pair_bumps snap demand ref i j).
Proof.
  intros Hi Hj Hnames st Href. subst ref.
  destruct (statics_lookup _ _ Hi) as (importer & Ei & Esi).
  destruct (statics_lookup _ _ Hj) as (exporter & Ej & Esj).
  unfold trade_pair, pair_bumps. rewrite Ei, Ej, Esi, Esj.
  cbn [mbind option_bind static fst snd].
  pose proof (Forall_lookup_1 _ _ _ _ Hnames Esj) as [_ [supply Es]].
  cbn [static fst snd] in Es. rewrite Es. cbn [mbind option_bind].
  destruct (nleb supply (lit 0)); [reflexivity|].
  destruct (_ || _); [reflexivity|].
  cbn [for_each].
  change (stock_update _ j r st.1)
    with (bump r (j, - (supply / total_supply snap * demand)) st.1).
  destruct (bump r (j, _) st.1) as [cs1|]; [|reflexivity].
  cbn [mbind option_bind].
  change (stock_update _ i r cs1)
    with (bump r (i, supply / total_supply snap * demand
                       * (lit 1.0 - tariff_rate importer)) cs1).
  destruct (bump r (i, _) cs1) as [cs2|]; reflexivity.
Qed.

Lemma trade_importer_planned (snap : Snapshot Qc) (r : string)
    (ref : list (string * gset string * Qc)) (exporters : list nat) (i : nat) :
  (i < length ref)%nat -> Forall (λ j, (j < length ref)%nat) exporters ->
  names_known snap ref ->
  planned r ref (trade_importer snap r exporters i)
    (importer_bumps snap ref exporters i).
Proof.
  intros Hi Hexp Hnames st Href.
  assert (Hi' := Hi). rewrite <- Href in Hi'.
  destruct (statics_lookup _ _ Hi') as (importer & Ei & Esi).
  rewrite Href in Esi.
  unfold trade_importer, importer_bumps. rewrite Ei, Esi.
  cbn [mbind option_bind static fst snd].
  pose proof (Forall_lookup_1 _ _ _ _ Hnames Esi) as [[demand Ed] _].
  cbn [static fst snd] in Ed. rewrite Ed. cbn [mbind option_bind].
  destruct (nleb demand (lit 0)); [reflexivity|].
  refine (planned_for_each r ref _ _ exporters _ st Href).
  eapply Forall_impl; [exact Hexp|]. intros j Hj.
  by apply trade_pair_planned.
Qed.

(** *** The snapshot knows every country *)

Lemma snapshot_step_known (r : string) (s : Snapshot Qc) (c : Country Qc)
    (n : string) :
  known s n \/ n = name c -> known (snapshot_step r s c) n.
Proof.
  unfold known, snapshot_step. intros Hn.
  destruct (nltb _ _); cbn [demands supplies];
    rewrite !lookup_insert_is_Some;
    destruct (decide (name c = n)) as [Heq|Hne]; try (split; by left);
    destruct Hn as [[Hd Hs]|Heq']; try congruence; split; by right.
Qed.

Lemma snapshot_fold_known (r : string) (cs : list (Country Qc))
    (s0 : Snapshot Qc) (n : string) :
  known s0 n \/ n ∈ name <$> cs ->
  known (fold_left (snapshot_step r) cs s0) n.
Proof.
  revert s0. induction cs as [|c cs IH]; intros s0 Hn; cbn [fold_left].
  - destruct Hn as [Hn|Hn]; [done|]. by apply elem_of_nil in Hn.
  - apply IH. destruct Hn as [Hn|Hn].
    + left. apply snapshot_step_known. by left.
    + rewrite fmap_cons in Hn. apply elem_of_cons in Hn as [->|Hn].
      * left. apply snapshot_step_known. by right.
      * by right.
Qed.

Lemma take_snapshot_names (r : string) (cs : list (Country Qc)) :
  names_known (take_snapshot r cs) (statics cs).
Proof.
  unfold names_known, statics. apply Forall_fmap, Forall_forall.
  intros c Hc. cbn [static fst snd compose].
  apply (snapshot_fold_known r cs empty_snapshot (name c)). right.
  by apply list_elem_of_fmap_2.
Qed.

(** *** One resource kind, in any order *)

Lemma bind_Permutation_pointwise {X Y : Type} (f g : X -> list Y)
    (xs : list X) :
  (forall x, f x ≡ₚ g x) -> xs ≫= f ≡ₚ xs ≫= g.
Proof.
  intros Hfg. induction xs as [|x xs IH]; [done|].
  rewrite !bind_cons. by apply Permutation_app.
Qed.

Lemma importer_bumps_Permutation (snap : Snapshot Qc)
    (ref : list (string * gset string * Qc))
    (importers importers' exporters exporters' : list nat) :
  importers ≡ₚ importers' -> exporters ≡ₚ exporters' ->
  importers ≫= importer_bumps snap ref exporters
    ≡ₚ importers' ≫= importer_bumps snap ref exporters'.
Proof.
  intros Himp Hexp. rewrite Himp.
  apply bind_Permutation_pointwise. intros i. unfold importer_bumps.
  destruct (ref !! i) as [importer|]; [|done].
  destruct (demands snap !! importer.1.1) as [demand|]; [|done].
  destruct (nleb demand (lit 0)); [done|]. by rewrite Hexp.
Qed.

Lemma valid_order_lt (n : nat) (order : list nat) :
  valid_order n order -> Forall (λ k, (k < n)%nat) order.
Proof.
  intros Hperm. apply Forall_forall. intros k Hk.
  rewrite Hperm in Hk. apply elem_of_seq in Hk. lia.
Qed.

Lemma trade_resource_bumps (importers exporters : list nat) (r : string)
    (st : TradeState Qc) :
  valid_order (length st.1) importers ->
  valid_order (length st.1) exporters ->
  fst <$> trade_resource importers exporters r st
    = for_each (bump r) (resource_bumps importers exporters r st.1) st.1.
Proof.
  intros Himp Hexp. unfold trade_resource, resource_bumps.
  destruct (_ || _); [reflexivity|].
  assert (Hlen : length (statics st.1) = length st.1)
    by apply length_fmap.
  refine (planned_for_each r (statics st.1) _ _ importers _ st eq_refl).
  eapply Forall_impl; [exact (valid_order_lt _ _ Himp)|].
  intros i Hi. apply trade_importer_planned.
  - by rewrite Hlen.
  - rewrite Hlen. by apply valid_order_lt.
  - apply take_snapshot_names.
Qed.

Lemma trade_resource_length (importers exporters : list nat) (r : string)
    (st st' : TradeState Qc) :
  valid_order (length st.1) importers ->
  valid_order (length st.1) exporters ->
  trade_resource importers exporters r st = Some st' ->
  length st'.1 = length st.1.
Proof.
  intros Himp Hexp Hrun.
  pose proof (trade_resource_bumps importers exporters r st Himp Hexp) as Hb.
  rewrite Hrun in Hb. cbn in Hb. symmetry in Hb.
  apply bumps_statics in Hb. unfold statics in Hb.
  by rewrite <- (length_fmap static st'.1), Hb, length_fmap.
Qed.

Lemma trade_resource_order (importers exporters importers' exporters' : list nat)
    (r : string) (st st' : TradeState Qc) :
  valid_order (length st.1) importers ->
  valid_order (length st.1) exporters ->
  valid_order (length st.1) importers' ->
  valid_order (length st.1) exporters' ->
  st.1 = st'.1 ->
  fst <$> trade_resource importers exporters r st
    = fst <$> trade_resource importers' exporters' r st'.
Proof.
  intros Hi He Hi' He' Heq.
  rewrite trade_resource_bumps by done.
  rewrite (trade_resource_bumps importers' exporters' r st')
    by (by rewrite <- Heq).
  rewrite <- Heq. apply bumps_Permutation. unfold resource_bumps.
  destruct (_ || _); [done|].
  apply importer_bumps_Permutation.
  - unfold valid_order in *. by rewrite Hi, Hi'.
  - unfold valid_order in *. by rewrite He, He'.
Qed.

(** *** All resource kinds *)

Lemma trade_resources_order
    (importers exporters importers' exporters' : list nat) (n : nat)
    (rs : list string) :
  valid_order n importers -> valid_order n exporters ->
  valid_order n importers' -> valid_order n exporters' ->
  forall st st' : TradeState Qc,
    length st.1 = n -> st.1 = st'.1 ->
    fst <$> for_each (trade_resource importers exporters) rs st
      = fst <$> for_each (trade_resource importers' exporters') rs st'.
Proof.
  intros Hi He Hi' He'.
  induction rs as [|r rs IH]; intros st st' Hlen Heq; cbn [for_each].
  - cbn. by f_equal.
  - subst n.
    pose proof (trade_resource_order importers exporters importers'
                  exporters' r st st' Hi He Hi' He' Heq) as Hstep.
    destruct (trade_resource importers exporters r st) as [st1|] eqn:E1,
             (trade_resource importers' exporters' r st') as [st1'|] eqn:E1';
      cbn in Hstep; try discriminate Hstep; cbn [mbind option_bind];
      [|reflexivity].
    apply IH; [|congruence].
    exact (trade_resource_length importers exporters r st st1 Hi He E1).
Qed.

(** C3: the result of trade clearing does not depend on the order in
    which the two loops enumerate the countries: whatever permutations of
    the list order the importer loop and the exporter loop follow, the
    final world is the one [resolve_trade] computes. *)
Theorem resolve_trade_order_independent (w : World Qc)
    (importers exporters : list nat) :
  importers ≡ₚ list_order w -> exporters ≡ₚ list_order w ->
  fst <$> resolve_trade_in importers exporters w = resolve_trade w.
Proof.
  intros Hi He. unfold resolve_trade, resolve_trade_log, resolve_trade_in.
  destruct (countries w) as [|first rest] eqn:Ecs; [reflexivity|].
  pose proof (trade_resources_order importers exporters (list_order w)
                (list_order w) (length (countries w)) (resource_types first)
                Hi He (reflexivity _) (reflexivity _)
                (first :: rest, []) (first :: rest, [])) as Hloop.
  rewrite Ecs in Hloop. specialize (Hloop eq_refl eq_refl).
  destruct (for_each (trade_resource importers exporters) _ _) as [st|],
           (for_each (trade_resource (list_order w) (list_order w)) _ _)
             as [st'|];
    cbn in Hloop; try discriminate Hloop; cbn; [|reflexivity].
  destruct st, st'. cbn in *. congruence.
Qed.

Lemma resolve_trade_order_independent_witness :
  fst <$> resolve_trade_in [1; 0]%nat [1; 0]%nat (scenario (A := Qc))
    = resolve_trade scenario.
Proof.
  apply resolve_trade_order_independent; apply perm_swap.
Defined.

(** ** Binary64 arithmetic: rounding shows in the last place *)

(** With no tariff and no sanction, in binary64 arithmetic: [X] ships 1.9
    to [Y] and nothing is withheld, yet [X] is left with
    2.8000000000000003 and [Y] with 2.0, so that the total goes from 4.8 to
    4.800000000000001. *)
Lemma resolve_trade_binary64_total :
  (forall c, c ∈ countries (open_market (A := float)) ->
     tariff_rate c = lit 0.0 /\ sanctions c = ∅) /\
  exists w' lg,
    resolve_trade_log (open_market (A := float)) = Some (w', lg) /\
    shipped lg = [(lit 1.9, lit 1.9)] /\
    withheld "oil" lg = lit 0.0 /\
    oil_of w' = [0x1.6666666666667p+1%float; lit 2.0] /\
    total_stock "oil" (countries open_market) = lit 4.8 /\
    total_stock "oil" (countries w') = 0x1.3333333333334p+2%float /\
    total_stock "oil" (countries w')
      <> total_stock "oil" (countries open_market).
Proof.
  split.
  - intros c Hc. cbn in Hc.
    repeat (apply elem_of_cons in Hc as [-> | Hc]);
      [| | by apply elem_of_nil in Hc]; split; reflexivity.
  - eexists _, _. split; [vm_compute; reflexivity|].
    repeat (split; [vm_compute; reflexivity|]).
    intros Heq.
    apply (f_equal (λ total, PrimFloat.eqb total (lit 4.8))) in Heq.
    vm_compute in Heq. discriminate Heq.
Qed.

(** In binary64 arithmetic the importer [W] of [two_exporters] ends with
    1.9000000000000001 when it is served by [X] first and with 1.9 when it
    is served by [Y] first, be it that the loops enumerate the countries in
    another order or that the list itself is in another order. *)
Lemma resolve_trade_binary64_order :
  [1; 0; 2]%nat ≡ₚ list_order (two_exporters (A := float)) /\
  oil_of <$> resolve_trade (two_exporters (A := float))
    = Some [lit 8.125; lit 2.875; 0x1.e666666666667p+0%float] /\
  oil_of <$> (fst <$> resolve_trade_in [1; 0; 2]%nat [1; 0; 2]%nat
                        (two_exporters (A := float)))
    = Some [lit 8.125; lit 2.875; lit 1.9] /\
  oil_of <$> resolve_trade (two_exporters_swapped (A := float))
    = Some [lit 2.875; lit 8.125; lit 1.9] /\
  fst <$> resolve_trade_in [1; 0; 2]%nat [1; 0; 2]%nat
            (two_exporters (A := float))
    <> resolve_trade two_exporters.
Proof.
  split; [apply perm_swap|].
  repeat (split; [vm_compute; reflexivity|]).
  intros Heq.
  apply (f_equal (λ r, match oil_of <$> r with
                       | Some [_; _; stock] => PrimFloat.eqb stock (lit 1.9)
                       | _ => false
                       end)) in Heq.
  vm_compute in Heq. discriminate Heq.
Qed.

(** ** Binary64 arithmetic: a gdp that is not a number *)

(** In binary64 arithmetic a gdp that is [>= 0] can become NaN, which is
    not [>= 0].  With the default rates and no fluctuation an infinite gdp
    loses [inf * 0.05 = inf], and [inf + (-inf)] is NaN; with a gdp of 0.0,
    the largest float as growth rate and its opposite as tax rate the
    effective growth overflows to [inf], and [0.0 * inf] is NaN.  In both
    cases [max(nan, 0.0)] is NaN, for [0.0 > nan] is false. *)
Lemma update_economy_binary64_nan :
  nleb (lit (-0.01)) (lit 0.0 : float) = true /\
  nleb (lit 0.0 : float) (lit 0.01) = true /\
  (nleb (lit 0.0) (gdp boundless) = true /\
   growth_rate boundless = lit 0.02 /\ tax_rate boundless = lit 0.2 /\
   PrimFloat.is_nan (gdp (update_economy (lit 0.0) boundless)) = true /\
   nleb (lit 0.0) (gdp (update_economy (lit 0.0) boundless)) = false) /\
  (nleb (lit 0.0) (gdp overheated) = true /\
   PrimFloat.is_finite (growth_rate overheated) = true /\
   PrimFloat.is_finite (tax_rate overheated) = true /\
   PrimFloat.is_nan (gdp (update_economy (lit 0.0) overheated)) = true /\
   nleb (lit 0.0) (gdp (update_economy (lit 0.0) overheated)) = false).
Proof. repeat split; vm_compute; reflexivity. Qed.

(** ** The operations on one country keep its stocks non-negative *)

(** X1: no operation on one country makes a stock negative: production
    adds a non-negative amount when the population is not negative, growth
    and the end-of-turn reset do not touch the stocks, and an investment is
    made only when every stock covers it. *)
Lemma entity_operations_keep_stocks_nonneg (c : Country Qc) :
  0 <= population c -> country_stocks_nonneg c ->
  country_stocks_nonneg (produce_resources c) /\
  (forall fluctuation, country_stocks_nonneg (update_economy fluctuation c)) /\
  (forall policy target, country_stocks_nonneg (apply_policy policy target c)) /\
  country_stocks_nonneg (reset_temp c).
Proof.
  intros Hpop Hc. repeat split.
  - intros kind stock. cbn [produce_resources set_resources resources].
    rewrite lookup_fmap.
    destruct (resources c !! kind) as [old|] eqn:Hk; [|discriminate].
    intros [= <-]. specialize (Hc kind old Hk). qc_order.
  - intros fluctuation. exact Hc.
  - intros policy target. unfold apply_policy.
    repeat (destruct (String.eqb policy _); [exact Hc|]).
    destruct (String.eqb policy _).
    + destruct (forallb _ _) eqn:Hall; [|exact Hc].
      intros kind stock.
      cbn [set_growth_rate set_resources resources]. rewrite lookup_fmap.
      destruct (resources c !! kind) as [old|] eqn:Hk; [|discriminate].
      intros [= <-].
      pose proof (proj1 (can_invest_spec (resources c)) Hall kind old Hk).
      qc_order.
    + destruct (String.eqb policy _); [|exact Hc].
      destruct target as [target|]; [|exact Hc].
      destruct (bool_decide _); exact Hc.
  - exact Hc.
Qed.

(** The country [A] of the scenario. *)
Lemma entity_operations_keep_stocks_nonneg_witness :
  country_stocks_nonneg (produce_resources scenario_A) /\
  (forall fluctuation,
     country_stocks_nonneg (update_economy fluctuation scenario_A)) /\
  (forall policy target,
     country_stocks_nonneg (apply_policy policy target scenario_A)) /\
  country_stocks_nonneg (reset_temp scenario_A).
Proof.
  apply entity_operations_keep_stocks_nonneg.
  - apply Qle_bool_iff. vm_compute. reflexivity.
  - intros kind stock Hstock.
    apply (map_Forall_lookup_1 (λ _ v, 0 <= v) (resources scenario_A) kind);
      [|exact Hstock].
    apply (bool_decide_unpack
             (map_Forall (λ (_ : string) (v : Qc), 0 <= v)
                         (resources scenario_A))).
    vm_compute. exact I.
Defined.

(** * Further properties of the code *)

(** ** Trade clearing changes stocks only *)

Section Frame.
Context {A : Type} `{Num A}.

Lemma same_but_stocks_refl (c : Country A) : same_but_stocks c c.
Proof. by repeat split. Qed.

Lemma same_but_stocks_trans (c1 c2 c3 : Country A) :
  same_but_stocks c1 c2 -> same_but_stocks c2 c3 -> same_but_stocks c1 c3.
Proof.
  unfold same_but_stocks. intros H12 H23.
  destruct_and!. repeat split; congruence.
Qed.

Lemma frame_refl (cs : list (Country A)) : Forall2 same_but_stocks cs cs.
Proof. apply Forall_Forall2_diag, Forall_forall. intros c _. apply same_but_stocks_refl. Qed.

Lemma frame_trans (cs1 cs2 cs3 : list (Country A)) :
  Forall2 same_but_stocks cs1 cs2 -> Forall2 same_but_stocks cs2 cs3 ->
  Forall2 same_but_stocks cs1 cs3.
Proof.
  intros H12. revert cs3. induction H12 as [|c1 c2 cs1 cs2 Hc _ IH];
    intros cs3 H23; inversion H23; subst; constructor.
  - by eapply same_but_stocks_trans.
  - by apply IH.
Qed.

Lemma stock_update_frame (f : A -> A) (k : nat) (r : string)
    (cs cs' : list (Country A)) :
  stock_update f k r cs = Some cs' -> Forall2 same_but_stocks cs cs'.
Proof.
  unfold stock_update. intros Hup.
  destruct (cs !! k) as [c|] eqn:Ek; [|done]. cbn in Hup.
  destruct (resources c !! r) as [v|] eqn:Ev; [|done]. cbn in Hup.
  simplify_eq. rewrite <- (list_insert_id cs k c) at 1 by done.
  apply Forall2_insert; [apply frame_refl|].
  repeat split. cbn [resources set_resources]. rewrite dom_insert_L.
  apply subseteq_union_1_L, singleton_subseteq_l, elem_of_dom. eauto.
Qed.

Lemma trade_pair_frame (snap : Snapshot A) (r : string) (demand : A)
    (i j : nat) (st st' : TradeState A) :
  trade_pair snap r demand i j st = Some st' ->
  Forall2 same_but_stocks st.1 st'.1.
Proof.
  unfold trade_pair. intros Hrun.
  destruct (st.1 !! i) as [importer|]; [|done]. cbn [mbind option_bind] in Hrun.
  destruct (st.1 !! j) as [exporter|]; [|done]. cbn [mbind option_bind] in Hrun.
  destruct (supplies snap !! name exporter) as [supply|]; [|done].
  cbn [mbind option_bind] in Hrun.
  destruct (nleb supply _); [simplify_eq; apply frame_refl|].
  destruct (_ || _); [simplify_eq; apply frame_refl|].
  match type of Hrun with
  | context [stock_update ?f j r st.1] =>
      destruct (stock_update f j r st.1) as [cs1|] eqn:E1; [|done]
  end.
  cbn [mbind option_bind] in Hrun.
  match type of Hrun with
  | context [stock_update ?f i r cs1] =>
      destruct (stock_update f i r cs1) as [cs2|] eqn:E2; [|done]
  end.
  cbn [mbind option_bind] in Hrun. simplify_eq. cbn [fst].
  eapply frame_trans; by eapply stock_update_frame.
Qed.

Lemma trade_importer_frame (snap : Snapshot A) (r : string)
    (exporters : list nat) (i : nat) (st st' : TradeState A) :
  trade_importer snap r exporters i st = Some st' ->
  Forall2 same_but_stocks st.1 st'.1.
Proof.
  unfold trade_importer. intros Hrun.
  destruct (st.1 !! i) as [importer|]; [|done]. cbn [mbind option_bind] in Hrun.
  destruct (demands snap !! name importer) as [demand|]; [|done].
  cbn [mbind option_bind] in Hrun.
  destruct (nleb demand _); [simplify_eq; apply frame_refl|].
  eapply (for_each_invariant (λ s, Forall2 same_but_stocks st.1 s.1));
    [|apply frame_refl|exact Hrun].
  intros j s s' Hs Hstep. eapply frame_trans; [exact Hs|].
  by eapply trade_pair_frame.
Qed.

Lemma trade_resource_frame (importers exporters : list nat) (r : string)
    (st st' : TradeState A) :
  trade_resource importers exporters r st = Some st' ->
  Forall2 same_but_stocks st.1 st'.1.
Proof.
  unfold trade_resource. intros Hrun.
  destruct (_ || _); [simplify_eq; apply frame_refl|].
  eapply (for_each_invariant (λ s, Forall2 same_but_stocks st.1 s.1));
    [|apply frame_refl|exact Hrun].
  intros i s s' Hs Hstep. eapply frame_trans; [exact Hs|].
  by eapply trade_importer_frame.
Qed.

Lemma resolve_trade_in_frame (importers exporters : list nat) (w w' : World A)
    (lg : list (Shipment A)) :
  resolve_trade_in importers exporters w = Some (w', lg) ->
  Forall2 same_but_stocks (countries w) (countries w').
Proof.
  unfold resolve_trade_in. intros Hrun.
  destruct (countries w) as [|first rest] eqn:Ecs.
  - simplify_eq. rewrite Ecs. constructor.
  - destruct (for_each _ _ _) as [st|] eqn:Eloop; [|done].
    cbn [mbind option_bind] in Hrun. simplify_eq. cbn [countries].
    refine (for_each_invariant
              (λ s, Forall2 same_but_stocks (first :: rest) s.1)
              _ _ _ _ _ _ Eloop); [|apply frame_refl].
    intros r s s' Hs Hstep. eapply frame_trans; [exact Hs|].
    by eapply trade_resource_frame.
Qed.

(** X2: trade clearing moves stocks and nothing else. *)
Theorem resolve_trade_only_moves_stocks (w w' : World A) :
  resolve_trade w = Some w' ->
  length (countries w') = length (countries w) /\
  forall k c c', countries w !! k = Some c -> countries w' !! k = Some c' ->
    same_but_stocks c c'.
Proof.
  unfold resolve_trade, resolve_trade_log. intros Hrun.
  destruct (resolve_trade_in _ _ w) as [[w1 lg]|] eqn:E; [|done].
  cbn in Hrun. simplify_eq.
  apply resolve_trade_in_frame in E. split.
  - symmetry. by eapply Forall2_length.
  - intros k c c' Hc Hc'. by eapply Forall2_lookup_lr.
Qed.

End Frame.

(** The scenario of the specification. *)
Lemma resolve_trade_only_moves_stocks_witness :
  length (countries scenario_result.1) = length (countries (scenario (A := Qc))) /\
  forall k c c', countries scenario !! k = Some c ->
    countries scenario_result.1 !! k = Some c' -> same_but_stocks c c'.
Proof.
  apply (resolve_trade_only_moves_stocks scenario scenario_result.1).
  vm_compute. reflexivity.
Defined.

(** ** When trade clearing raises nothing *)

Section Runs.
Context {A : Type} `{Num A}.

(** A loop whose iterations all succeed and keep an invariant succeeds. *)
Lemma for_each_runs {S X : Type} (I : S -> Prop) (body : X -> S -> option S)
    (xs : list X) (st : S) :
  (forall x s, x ∈ xs -> I s -> exists s', body x s = Some s' /\ I s') ->
  I st -> exists st', for_each body xs st = Some st' /\ I st'.
Proof.
  revert st. induction xs as [|x xs IH]; intros st Hbody HI; cbn [for_each].
  - eauto.
  - destruct (Hbody x st) as (s1 & -> & HI1); [by left|done|].
    cbn [mbind option_bind]. apply IH; [|done].
    intros y s Hy. apply Hbody. by right.
Qed.

Lemma snapshot_step_covers (r : string) (s : Snapshot A) (c : Country A)
    (n : string) :
  (is_Some (demands s !! n) /\ is_Some (supplies s !! n)) \/ n = name c ->
  is_Some (demands (snapshot_step r s c) !! n) /\
  is_Some (supplies (snapshot_step r s c) !! n).
Proof.
  unfold snapshot_step. intros Hn.
  destruct (nltb _ _); cbn [demands supplies];
    rewrite !lookup_insert_is_Some;
    destruct (decide (name c = n)) as [Heq|Hne]; try (split; by left);
    destruct Hn as [[Hd Hs]|Heq']; try congruence; split; by right.
Qed.

Lemma snapshot_fold_covers (r : string) (cs : list (Country A))
    (s0 : Snapshot A) (n : string) :
  (is_Some (demands s0 !! n) /\ is_Some (supplies s0 !! n)) \/ n ∈ name <$> cs ->
  is_Some (demands (fold_left (snapshot_step r) cs s0) !! n) /\
  is_Some (supplies (fold_left (snapshot_step r) cs s0) !! n).
Proof.
  revert s0. induction cs as [|c cs IH]; intros s0 Hn; cbn [fold_left].
  - destruct Hn as [Hn|Hn]; [done|]. by apply elem_of_nil in Hn.
  - apply IH. destruct Hn as [Hn|Hn].
    + left. apply snapshot_step_covers. by left.
    + rewrite fmap_cons in Hn. apply elem_of_cons in Hn as [->|Hn].
      * left. apply snapshot_step_covers. by right.
      * by right.
Qed.

Lemma take_snapshot_covers (r : string) (cs : list (Country A)) :
  snapshot_covers (take_snapshot r cs) cs.
Proof.
  intros c Hc. apply snapshot_fold_covers. right.
  by apply list_elem_of_fmap_2.
Qed.

(** Countries that differ in their stocks only are covered by the same
    snapshots and hold the same kinds. *)
Lemma frame_covers (snap : Snapshot A) (cs cs' : list (Country A)) :
  Forall2 same_but_stocks cs cs' -> snapshot_covers snap cs ->
  snapshot_covers snap cs'.
Proof.
  intros Hframe Hcov c' Hc'.
  apply list_elem_of_lookup in Hc' as [k Hk].
  destruct (Forall2_lookup_r _ _ _ _ _ Hframe Hk) as (c & Hc & Hsame).
  destruct Hsame as (-> & _). apply Hcov. by eapply list_elem_of_lookup_2.
Qed.

Lemma frame_all_hold (r : string) (cs cs' : list (Country A)) :
  Forall2 same_but_stocks cs cs' -> all_hold r cs -> all_hold r cs'.
Proof.
  intros Hframe Hall c' Hc'.
  apply list_elem_of_lookup in Hc' as [k Hk].
  destruct (Forall2_lookup_r _ _ _ _ _ Hframe Hk) as (c & Hc & Hsame).
  destruct Hsame as (_ & _ & _ & _ & _ & _ & _ & _ & _ & _ & ->).
  apply Hall. by eapply list_elem_of_lookup_2.
Qed.

Lemma stock_update_runs (f : A -> A) (k : nat) (r : string)
    (cs : list (Country A)) :
  (k < length cs)%nat -> all_hold r cs -> is_Some (stock_update f k r cs).
Proof.
  intros Hk Hall. unfold stock_update.
  destruct (lookup_lt_is_Some_2 cs k Hk) as [c Hc]. rewrite Hc.
  cbn [mbind option_bind].
  destruct (proj1 (elem_of_dom _ _) (Hall c (list_elem_of_lookup_2 _ _ _ Hc)))
    as [v Hv].
  rewrite Hv. by eexists.
Qed.

Lemma trade_pair_runs (snap : Snapshot A) (r : string) (demand : A)
    (i j : nat) (st : TradeState A) :
  (i < length st.1)%nat -> (j < length st.1)%nat ->
  snapshot_covers snap st.1 -> all_hold r st.1 ->
  is_Some (trade_pair snap r demand i j st).
Proof.
  intros Hi Hj Hcov Hall. unfold trade_pair.
  destruct (lookup_lt_is_Some_2 _ _ Hi) as [importer Ei].
  destruct (lookup_lt_is_Some_2 _ _ Hj) as [exporter Ej].
  rewrite Ei, Ej. cbn [mbind option_bind].
  destruct (Hcov exporter (list_elem_of_lookup_2 _ _ _ Ej)) as [_ [supply Es]].
  rewrite Es. cbn [mbind option_bind].
  destruct (nleb supply _); [by eexists|].
  destruct (_ || _); [by eexists|].
  match goal with
  | |- context [stock_update ?f j r st.1] =>
      destruct (stock_update_runs f j r st.1 Hj Hall) as [cs1 E1]; rewrite E1
  end.
  cbn [mbind option_bind].
  pose proof (stock_update_frame _ _ _ _ _ E1) as Hframe.
  match goal with
  | |- context [stock_update ?f i r cs1] =>
      destruct (stock_update_runs f i r cs1) as [cs2 E2];
        [ by rewrite <- (Forall2_length _ _ _ Hframe)
        | by eapply frame_all_hold
        | rewrite E2 ]
  end.
  by eexists.
Qed.

(** The invariant of the loops of one resource kind: the countries are
    those the snapshot was taken of, up to their stocks. *)
Lemma trade_importer_runs (snap : Snapshot A) (r : string)
    (exporters : list nat) (i : nat) (cs : list (Country A))
    (st : TradeState A) :
  Forall2 same_but_stocks cs st.1 ->
  snapshot_covers snap cs -> all_hold r cs ->
  (i < length cs)%nat -> Forall (λ j, (j < length cs)%nat) exporters ->
  exists st', trade_importer snap r exporters i st = Some st' /\
              Forall2 same_but_stocks cs st'.1.
Proof.
  intros Hframe Hcov Hall Hi Hexp. unfold trade_importer.
  assert (Hlen : length st.1 = length cs)
    by (symmetry; by eapply Forall2_length).
  destruct (lookup_lt_is_Some_2 st.1 i) as [importer Ei]; [by rewrite Hlen|].
  rewrite Ei. cbn [mbind option_bind].
  destruct (frame_covers _ _ _ Hframe Hcov importer
              (list_elem_of_lookup_2 _ _ _ Ei)) as [[demand Ed] _].
  rewrite Ed. cbn [mbind option_bind].
  destruct (nleb demand _); [by eauto|].
  apply (for_each_runs (λ s, Forall2 same_but_stocks cs s.1)); [|done].
  intros j s Hj Hs.
  assert (Hlens : length s.1 = length cs)
    by (symmetry; by eapply Forall2_length).
  destruct (trade_pair_runs snap r demand i j s) as [s' Hs'].
  - by rewrite Hlens.
  - rewrite Hlens. by eapply (proj1 (Forall_forall _ _) Hexp).
  - by eapply frame_covers.
  - by eapply frame_all_hold.
  - exists s'. split; [done|].
    eapply frame_trans; [exact Hs|]. by eapply trade_pair_frame.
Qed.

Lemma trade_resource_runs (importers exporters : list nat) (r : string)
    (st : TradeState A) :
  all_hold r st.1 ->
  Forall (λ i, (i < length st.1)%nat) importers ->
  Forall (λ j, (j < length st.1)%nat) exporters ->
  exists st', trade_resource importers exporters r st = Some st' /\
              Forall2 same_but_stocks st.1 st'.1.
Proof.
  intros Hall Himp Hexp. unfold trade_resource.
  destruct (_ || _); [exists st; split; [done|apply frame_refl]|].
  apply (for_each_runs (λ s, Forall2 same_but_stocks st.1 s.1));
    [|apply frame_refl].
  intros i s Hi Hs.
  apply trade_importer_runs; try done.
  - apply take_snapshot_covers.
  - by eapply (proj1 (Forall_forall _ _) Himp).
Qed.

Lemma resource_types_dom (first : Country A) (r : string) :
  r ∈ resource_types first <-> r ∈ dom (resources first).
Proof.
  unfold resource_types. rewrite list_elem_of_fmap, elem_of_dom. split.
  - intros ([k v] & -> & Hkv). apply elem_of_map_to_list in Hkv. by exists v.
  - intros [v Hv]. exists (r, v). split; [done|].
    by apply elem_of_map_to_list.
Qed.

Lemma list_order_lt (w : World A) :
  Forall (λ k, (k < length (countries w))%nat) (list_order w).
Proof.
  apply Forall_forall. intros k Hk. unfold list_order in Hk.
  apply elem_of_seq in Hk. lia.
Qed.

Lemma resolve_trade_defined (w : World A) :
  holds_first_kinds (countries w) -> is_Some (resolve_trade w).
Proof.
  intros Hkinds. unfold resolve_trade, resolve_trade_log, resolve_trade_in.
  pose proof (list_order_lt w) as Horder.
  destruct (countries w) as [|first rest] eqn:Ecs; [by eexists|].
  destruct (for_each_runs
              (λ s : TradeState A, Forall2 same_but_stocks (first :: rest) s.1)
              (trade_resource (list_order w) (list_order w))
              (resource_types first) (first :: rest, []))
    as (st' & -> & _); [|apply frame_refl|by eexists].
  intros r s Hr Hs.
  assert (Hlens : length s.1 = length (first :: rest))
    by (symmetry; by eapply Forall2_length).
  destruct (trade_resource_runs (list_order w) (list_order w) r s)
    as (s' & Hs' & Hframe).
  - eapply frame_all_hold; [exact Hs|].
    intros c Hc. apply (Hkinds first c eq_refl Hc).
    by apply resource_types_dom.
  - by rewrite Hlens.
  - by rewrite Hlens.
  - exists s'. split; [done|]. by eapply frame_trans.
Qed.

End Runs.

(** ** [produce_resources] *)

Lemma produce_turns_S {A} `{Num A} (n : nat) (c : Country A) :
  produce_turns (S n) c = produce_resources (produce_turns n c).
Proof. reflexivity. Qed.

Lemma produce_turns_population (n : nat) (c : Country Qc) :
  population (produce_turns n c) = population c.
Proof.
  induction n as [|n IH]; [reflexivity|].
  rewrite produce_turns_S. exact IH.
Qed.

(** X3: [n] turns of production compound: a stock [s] of a country with
    population [p] becomes [1.02^n * (s + 5 p) - 5 p], and no kind is added
    or lost. *)
Theorem produce_resources_compounds (n : nat) (c : Country Qc) (kind : string) :
  resources (produce_turns n c) !! kind
    = (λ stock, lit 1.02 ^ n * (stock + lit 5.0 * population c)
                  - lit 5.0 * population c) <$> resources c !! kind.
Proof.
  induction n as [|n IH].
  - change (produce_turns 0 c) with c. destruct (resources c !! kind) as [s|];
      cbn [fmap option_fmap option_map]; [|reflexivity].
    f_equal. cbn [Qcpower]. ring.
  - rewrite produce_turns_S. cbn [produce_resources set_resources resources].
    rewrite lookup_fmap, IH, produce_turns_population.
    destruct (resources c !! kind) as [s|];
      cbn [fmap option_fmap option_map]; [|reflexivity].
    f_equal. cbn [Qcpower]. unfold nadd, nmul, lit, Qc_Num.
    generalize (Q2Qc 1.02 ^ n). intros pw.
    replace (Q2Qc 0.1) with (Q2Qc 0.02 * Q2Qc 5.0)
      by (apply Qc_is_canon; reflexivity).
    replace (Q2Qc 1.02) with (1 + Q2Qc 0.02)
      by (apply Qc_is_canon; reflexivity).
    ring.
Qed.

(** ** [update_economy] *)

(** Goals about products in [Qc] are sent to [Q], where [nra] decides
    them. *)
Ltac qc_products :=
  unfold nadd, nsub, nmul, lit, Qc_Num in *;
  unfold Qcle, Qclt, Qcminus, Qcopp, Qcplus, Qcmult, Q2Qc in *;
  cbn [this] in *;
  rewrite ?Qred_correct in *;
  nra.

(** X4: with a fluctuation in [-0.01, 0.01] a non-negative gdp falls by at
    most 6 percent in one turn and grows by at most the effective growth
    rate plus 1 percent. *)
Theorem update_economy_bounds (c : Country Qc) (fluctuation : Qc) :
  0 <= gdp c -> lit (-0.01) <= fluctuation -> fluctuation <= lit 0.01 ->
  lit 0.94 * gdp c <= gdp (update_economy fluctuation c) /\
  gdp (update_economy fluctuation c)
    <= gdp c * (lit 1.01 + pymax (growth_rate c - tax_rate c * lit 0.5)%num
                                 (lit (-0.05))).
Proof.
  intros Hgdp Hlo Hhi. unfold update_economy. cbn [gdp set_gdp].
  assert (Hg : lit (-0.05)
               <= pymax (growth_rate c - tax_rate c * lit 0.5)%num (lit (-0.05))).
  { destruct (pymax_cases (growth_rate c - tax_rate c * lit 0.5)%num
                (lit (-0.05))) as [[_ ->] | [Hle ->]];
      [apply Qcle_refl | exact Hle]. }
  revert Hg.
  generalize (pymax (growth_rate c - tax_rate c * lit 0.5)%num (lit (-0.05))).
  intros g Hg.
  match goal with |- context [pymax ?a ?b] =>
    destruct (pymax_cases a b) as [[Hlt ->] | [Hle ->]] end;
    split; qc_products.
Qed.

(** The country [A] of the scenario, with a fluctuation of 0.005. *)
Lemma update_economy_bounds_witness :
  lit 0.94 * gdp (scenario_A (A := Qc))
    <= gdp (update_economy (lit 0.005) scenario_A) /\
  gdp (update_economy (lit 0.005) (scenario_A (A := Qc)))
    <= gdp scenario_A
       * (lit 1.01 + pymax (growth_rate scenario_A - tax_rate scenario_A * lit 0.5)%num
                           (lit (-0.05))).
Proof.
  apply update_economy_bounds; apply Qle_bool_iff; vm_compute; reflexivity.
Defined.

(** ** [apply_policy] *)

(** X5: whatever the policy and the target, [apply_policy] leaves the
    name, the polygon, the colour, the gdp and the population alone, lifts
    no sanction and neither adds nor drops a resource kind. *)
Theorem apply_policy_frame {A} `{Num A} (policy : string)
    (target : option (Country A)) (c : Country A) :
  same_identity c (apply_policy policy target c) /\
  sanctions c ⊆ sanctions (apply_policy policy target c) /\
  new_sanctions c ⊆ new_sanctions (apply_policy policy target c) /\
  dom (resources (apply_policy policy target c)) = dom (resources c).
Proof.
  unfold apply_policy, same_identity.
  repeat match goal with
  | |- context [String.eqb policy ?s] => destruct (String.eqb policy s)
  end;
  try match goal with |- context [forallb ?f ?l] => destruct (forallb f l) end;
  try (destruct target as [t|]; [destruct (bool_decide _)|]);
  cbn [name polygon color gdp population sanctions new_sanctions resources
       set_tax_rate set_tariff_rate set_growth_rate set_resources
       set_sanctions];
  repeat split; try reflexivity; try apply union_subseteq_r.
  apply dom_fmap_L.
Qed.

(** X6: no policy lowers the growth rate and no policy raises a stock. *)
Theorem apply_policy_spends (policy : string) (target : option (Country Qc))
    (c : Country Qc) :
  growth_rate c <= growth_rate (apply_policy policy target c) /\
  forall kind old new,
    resources c !! kind = Some old ->
    resources (apply_policy policy target c) !! kind = Some new ->
    new <= old.
Proof.
  unfold apply_policy.
  repeat match goal with
  | |- context [String.eqb policy ?s] => destruct (String.eqb policy s)
  end;
  try match goal with |- context [forallb ?f ?l] => destruct (forallb f l) end;
  try (destruct target as [t|]; [destruct (bool_decide _)|]);
  cbn [growth_rate resources set_tax_rate set_tariff_rate set_growth_rate
       set_resources set_sanctions];
  (split; [try apply Qcle_refl | intros kind old new Hold Hnew]);
  try (rewrite Hold in Hnew; injection Hnew as <-; apply Qcle_refl).
  - qc_order.
  - rewrite lookup_fmap, Hold in Hnew. injection Hnew as <-. qc_order.
Qed.

Lemma repeat_policy_S {A} `{Num A} (n : nat) (policy : string) (c : Country A) :
  repeat_policy (S n) policy c
    = apply_policy policy None (repeat_policy n policy c).
Proof. reflexivity. Qed.

Lemma count_S (n : nat) : count (S n) = count n + 1.
Proof.
  unfold count. apply Qc_is_canon. unfold Qcplus, Q2Qc. cbn [this].
  rewrite !Qred_correct, Nat2Z.inj_succ. unfold Z.succ.
  rewrite inject_Z_plus. reflexivity.
Qed.

Lemma count_0 : count 0 = 0.
Proof. apply Qc_is_canon. reflexivity. Qed.

(** Equalities between clamped rates are decided case by case. *)
Ltac clamp_cases :=
  repeat match goal with
  | |- context [pymax ?a ?b] =>
      let Hr := fresh in
      destruct (pymax_cases a b) as [[? Hr] | [? Hr]]; rewrite !Hr in *; clear Hr
  | |- context [pymin ?a ?b] =>
      let Hr := fresh in
      destruct (pymin_cases a b) as [[? Hr] | [? Hr]]; rewrite !Hr in *; clear Hr
  | _ : context [pymax ?a ?b] |- _ =>
      let Hr := fresh in
      destruct (pymax_cases a b) as [[? Hr] | [? Hr]]; rewrite !Hr in *; clear Hr
  | _ : context [pymin ?a ?b] |- _ =>
      let Hr := fresh in
      destruct (pymin_cases a b) as [[? Hr] | [? Hr]]; rewrite !Hr in *; clear Hr
  end;
  apply Qc_is_canon; qc_order.

(** X7: [n] calls of a rate policy move the rate by [n] steps and clamp it
    once: from a rate in range, lowering gives [max(rate - n * step, 0)]
    and raising gives [min(rate + n * step, bound)]. *)
Theorem rate_policy_repeated (n : nat) (c : Country Qc) :
  rates_in_range c ->
  tax_rate (repeat_policy n "lower_taxes" c)
    = pymax (tax_rate c - count n * lit 0.02) (lit 0.0) /\
  tax_rate (repeat_policy n "raise_taxes" c)
    = pymin (tax_rate c + count n * lit 0.02) (lit 0.5) /\
  tariff_rate (repeat_policy n "lower_tariffs" c)
    = pymax (tariff_rate c - count n * lit 0.05) (lit 0.0) /\
  tariff_rate (repeat_policy n "raise_tariffs" c)
    = pymin (tariff_rate c + count n * lit 0.05) (lit 1.0).
Proof.
  intros [[Ht0 Ht1] [Hf0 Hf1]].
  induction n as [|n (IH1 & IH2 & IH3 & IH4)].
  - change (repeat_policy 0 ?p c) with c. rewrite count_0.
    repeat split; clamp_cases.
  - rewrite !repeat_policy_S, count_S.
    cbn [apply_policy String.eqb Ascii.eqb Bool.eqb tax_rate tariff_rate
         set_tax_rate set_tariff_rate].
    rewrite IH1, IH2, IH3, IH4. clear IH1 IH2 IH3 IH4.
    generalize (count n). intros m.
    repeat split; clamp_cases.
Qed.

(** Three calls on the country [A] of the scenario. *)
Lemma rate_policy_repeated_witness :
  tax_rate (repeat_policy 3 "lower_taxes" (scenario_A (A := Qc)))
    = pymax (tax_rate scenario_A - count 3 * lit 0.02) (lit 0.0) /\
  tax_rate (repeat_policy 3 "raise_taxes" (scenario_A (A := Qc)))
    = pymin (tax_rate scenario_A + count 3 * lit 0.02) (lit 0.5) /\
  tariff_rate (repeat_policy 3 "lower_tariffs" (scenario_A (A := Qc)))
    = pymax (tariff_rate scenario_A - count 3 * lit 0.05) (lit 0.0) /\
  tariff_rate (repeat_policy 3 "raise_tariffs" (scenario_A (A := Qc)))
    = pymin (tariff_rate scenario_A + count 3 * lit 0.05) (lit 1.0).
Proof.
  apply (rate_policy_repeated 3 scenario_A).
  repeat split; apply Qle_bool_iff; vm_compute; reflexivity.
Defined.

(** X8: away from the bounds a lowering and a raising undo each other, in
    either order: the country is exactly what it was. *)
Theorem rate_policies_undo (c : Country Qc) :
  (lit 0.02 <= tax_rate c /\ tax_rate c <= lit 0.48 ->
   apply_policy "raise_taxes" None (apply_policy "lower_taxes" None c) = c /\
   apply_policy "lower_taxes" None (apply_policy "raise_taxes" None c) = c) /\
  (lit 0.05 <= tariff_rate c /\ tariff_rate c <= lit 0.95 ->
   apply_policy "raise_tariffs" None (apply_policy "lower_tariffs" None c) = c /\
   apply_policy "lower_tariffs" None (apply_policy "raise_tariffs" None c) = c).
Proof.
  destruct c as [nm poly col res g gr pop tax tariff sanc new].
  cbn [apply_policy String.eqb Ascii.eqb Bool.eqb].
  unfold set_tax_rate, set_tariff_rate.
  cbn [tax_rate tariff_rate name polygon color resources gdp
       growth_rate population sanctions new_sanctions].
  split; intros [Hlo Hhi]; split; f_equal; clamp_cases.
Qed.

(** The country [A] of the scenario: its rates are 0.2 and 0.1. *)
Lemma rate_policies_undo_witness :
  (apply_policy "raise_taxes" None
     (apply_policy "lower_taxes" None (scenario_A (A := Qc))) = scenario_A /\
   apply_policy "lower_taxes" None
     (apply_policy "raise_taxes" None (scenario_A (A := Qc))) = scenario_A) /\
  (apply_policy "raise_tariffs" None
     (apply_policy "lower_tariffs" None (scenario_A (A := Qc))) = scenario_A /\
   apply_policy "lower_tariffs" None
     (apply_policy "raise_tariffs" None (scenario_A (A := Qc))) = scenario_A).
Proof.
  destruct (rate_policies_undo scenario_A) as [Htax Htariff].
  split; [apply Htax|apply Htariff];
    split; apply Qle_bool_iff; vm_compute; reflexivity.
Defined.

(** ** [World.update] *)

Lemma update_lookup {A} `{Num A} (draws : nat -> A) (w w' : World A)
    (k : nat) (c' : Country A) :
  update draws w = Some w' -> countries w' !! k = Some c' ->
  exists c c1,
    countries w !! k = Some c /\
    same_but_stocks (update_economy (draws k) (produce_resources c)) c1 /\
    c' = reset_temp c1.
Proof.
  unfold update, resolve_trade, resolve_trade_log. intros Hrun Hk.
  destruct (resolve_trade_in _ _ _) as [[w1 lg]|] eqn:E; [|done].
  cbn in Hrun. simplify_eq. cbn [countries] in Hk.
  apply resolve_trade_in_frame in E. cbn [countries] in E.
  rewrite list_lookup_fmap in Hk.
  destruct (countries w1 !! k) as [c1|] eqn:E1; [|done].
  cbn in Hk. simplify_eq.
  destruct (Forall2_lookup_r _ _ _ _ _ E E1) as (c0 & Hc0 & Hsame).
  rewrite list_lookup_imap, list_lookup_fmap in Hc0.
  destruct (countries w !! k) as [c|] eqn:Ec; [|done].
  cbn in Hc0. simplify_eq. by exists c, c1.
Qed.

Lemma update_length {A} `{Num A} (draws : nat -> A) (w w' : World A) :
  update draws w = Some w' -> length (countries w') = length (countries w).
Proof.
  unfold update, resolve_trade, resolve_trade_log. intros Hrun.
  destruct (resolve_trade_in _ _ _) as [[w1 lg]|] eqn:E; [|done].
  cbn in Hrun. simplify_eq. cbn [countries].
  apply resolve_trade_in_frame, Forall2_length in E. cbn [countries] in E.
  by rewrite length_fmap, <- E, length_imap, length_fmap.
Qed.

Lemma update_turn_keeps {A} `{Num A} (draws : nat -> A) (w w' : World A) :
  update draws w = Some w' -> Forall2 turn_keeps (countries w) (countries w').
Proof.
  intros Hrun. apply Forall2_same_length_lookup_2.
  { symmetry. by eapply update_length. }
  intros k c c' Hc Hc'.
  destruct (update_lookup draws w w' k c' Hrun Hc') as (c0 & c1 & Hc0 & Hsame & ->).
  rewrite Hc in Hc0. injection Hc0 as <-.
  destruct Hsame as (Hn & Hp & Hcol & Hg & Hgr & Hpop & Htax & Htar & Hs & Hns & Hd).
  unfold turn_keeps.
  cbn [reset_temp set_sanctions name polygon color growth_rate population
       tax_rate tariff_rate sanctions new_sanctions resources].
  rewrite Hn, Hp, Hcol, Hgr, Hpop, Htax, Htar, Hs, Hd.
  repeat split. cbn [update_economy set_gdp resources produce_resources
                     set_resources].
  apply dom_fmap_L.
Qed.

(** X9: a turn keeps the countries, their order and everything of a
    country but its stocks and its gdp, and it ends with no country
    holding a sanction of the turn. *)
Theorem update_keeps {A} `{Num A} (draws : nat -> A) (w w' : World A) :
  update draws w = Some w' ->
  length (countries w') = length (countries w) /\
  forall k c c', countries w !! k = Some c -> countries w' !! k = Some c' ->
    turn_keeps c c'.
Proof.
  intros Hrun. split; [by eapply update_length|].
  intros k c c' Hc Hc'.
  exact (Forall2_lookup_lr _ _ _ k c c' (update_turn_keeps draws w w' Hrun) Hc Hc').
Qed.

(** One turn of the scenario. *)
Lemma update_keeps_witness :
  length (countries scenario_turn) = length (countries (scenario (A := Qc))) /\
  forall k c c', countries scenario !! k = Some c ->
    countries scenario_turn !! k = Some c' -> turn_keeps c c'.
Proof.
  apply (update_keeps steady scenario scenario_turn).
  vm_compute. reflexivity.
Defined.

Lemma pymax_zero (a : Qc) : 0 <= pymax a (lit 0.0).
Proof.
  destruct (pymax_cases a (lit 0.0)) as [[_ ->] | [Hle ->]]; [|exact Hle].
  apply Qle_bool_iff. reflexivity.
Qed.

(** X10: after a turn no country has a negative gdp, whatever was drawn and
    whatever the gdp, the rates and the stocks were. *)
Theorem update_gdp_nonneg (draws : nat -> Qc) (w w' : World Qc) :
  update draws w = Some w' ->
  forall c', c' ∈ countries w' -> 0 <= gdp c'.
Proof.
  intros Hrun c' Hc'. apply list_elem_of_lookup in Hc' as [k Hk].
  destruct (update_lookup draws w w' k c' Hrun Hk) as (c & c1 & _ & Hsame & ->).
  destruct Hsame as (_ & _ & _ & Hg & _).
  cbn [reset_temp set_sanctions gdp]. rewrite Hg.
  cbn [update_economy set_gdp gdp]. apply pymax_zero.
Qed.

(** One turn of the scenario. *)
Lemma update_gdp_nonneg_witness :
  Forall (λ c, 0 <= gdp c) (countries scenario_turn).
Proof.
  apply Forall_forall. apply (update_gdp_nonneg steady scenario).
  vm_compute. reflexivity.
Defined.

(** ** The snapshot, country by country *)

Lemma demand_of_nonneg (r : string) (c : Country Qc) : 0 <= demand_of r c.
Proof.
  unfold demand_of. destruct (nltb _ _) eqn:E.
  - apply nltb_true in E. qc_order.
  - qc_order.
Qed.

Lemma supply_of_nonneg (r : string) (c : Country Qc) : 0 <= supply_of r c.
Proof.
  unfold supply_of. destruct (nltb _ _) eqn:E.
  - qc_order.
  - apply nltb_false in E. qc_order.
Qed.

Lemma snapshot_step_eq (r : string) (s : Snapshot Qc) (c : Country Qc) :
  snapshot_step r s c
    = {| demands := <[name c := demand_of r c]> (demands s);
         supplies := <[name c := supply_of r c]> (supplies s);
         total_demand := total_demand s + demand_of r c;
         total_supply := total_supply s + supply_of r c |}.
Proof.
  unfold snapshot_step, demand_of, supply_of, consumption, stock_of.
  destruct (nltb _ _); f_equal; rewrite ?lit_zero;
    unfold nadd, Qc_Num; ring.
Qed.

Lemma sum_of_nonneg {X : Type} (f : X -> Qc) (xs : list X) :
  (forall x, 0 <= f x) -> 0 <= sum_of f xs.
Proof.
  intros Hf. induction xs as [|x xs IH]; cbn [sum_of foldr].
  - apply Qcle_refl.
  - specialize (Hf x). fold (sum_of f xs). qc_order.
Qed.

Lemma snapshot_fold_totals (r : string) (cs : list (Country Qc))
    (s0 : Snapshot Qc) :
  total_demand (fold_left (snapshot_step r) cs s0)
    = total_demand s0 + sum_of (demand_of r) cs /\
  total_supply (fold_left (snapshot_step r) cs s0)
    = total_supply s0 + sum_of (supply_of r) cs.
Proof.
  revert s0. induction cs as [|c cs IH]; intros s0; cbn [fold_left sum_of foldr].
  - split; ring.
  - destruct (IH (snapshot_step r s0 c)) as [-> ->].
    rewrite snapshot_step_eq. cbn [total_demand total_supply].
    fold (sum_of (demand_of r) cs). fold (sum_of (supply_of r) cs).
    split; ring.
Qed.

Lemma take_snapshot_totals (r : string) (cs : list (Country Qc)) :
  total_demand (take_snapshot r cs) = sum_of (demand_of r) cs /\
  total_supply (take_snapshot r cs) = sum_of (supply_of r) cs.
Proof.
  unfold take_snapshot.
  destruct (snapshot_fold_totals r cs empty_snapshot) as [-> ->].
  cbn [empty_snapshot total_demand total_supply]. rewrite lit_zero.
  split; ring.
Qed.

Lemma snapshot_fold_other (r : string) (cs : list (Country Qc))
    (s0 : Snapshot Qc) (n : string) :
  n ∉ name <$> cs ->
  demands (fold_left (snapshot_step r) cs s0) !! n = demands s0 !! n /\
  supplies (fold_left (snapshot_step r) cs s0) !! n = supplies s0 !! n.
Proof.
  revert s0. induction cs as [|c cs IH]; intros s0 Hn; cbn [fold_left]; [done|].
  rewrite fmap_cons in Hn. apply not_elem_of_cons in Hn as [Hne Hn].
  destruct (IH (snapshot_step r s0 c) Hn) as [-> ->].
  rewrite snapshot_step_eq. cbn [demands supplies].
  by rewrite !lookup_insert_ne.
Qed.

Lemma snapshot_fold_lookup (r : string) (cs : list (Country Qc))
    (s0 : Snapshot Qc) (c : Country Qc) :
  NoDup (name <$> cs) -> c ∈ cs ->
  demands (fold_left (snapshot_step r) cs s0) !! name c = Some (demand_of r c) /\
  supplies (fold_left (snapshot_step r) cs s0) !! name c = Some (supply_of r c).
Proof.
  revert s0. induction cs as [|c0 cs IH]; intros s0 Hnd Hc.
  - by apply elem_of_nil in Hc.
  - rewrite fmap_cons in Hnd. apply NoDup_cons in Hnd as [Hfresh Hnd].
    cbn [fold_left]. apply elem_of_cons in Hc as [->|Hc].
    + destruct (snapshot_fold_other r cs (snapshot_step r s0 c0) (name c0) Hfresh)
        as [-> ->].
      rewrite snapshot_step_eq. cbn [demands supplies].
      by rewrite !lookup_insert_eq.
    + by apply IH.
Qed.

Lemma take_snapshot_lookup (r : string) (cs : list (Country Qc))
    (c : Country Qc) :
  NoDup (name <$> cs) -> c ∈ cs ->
  demands (take_snapshot r cs) !! name c = Some (demand_of r c) /\
  supplies (take_snapshot r cs) !! name c = Some (supply_of r c).
Proof. apply snapshot_fold_lookup. Qed.

(** ** The net change of one stock *)

Lemma sum_of_app {X : Type} (f : X -> Qc) (xs ys : list X) :
  sum_of f (xs ++ ys) = sum_of f xs + sum_of f ys.
Proof.
  induction xs as [|x xs IH]; cbn [app sum_of foldr].
  - fold (sum_of f ys). ring.
  - fold (sum_of f (xs ++ ys)). fold (sum_of f xs). rewrite IH. ring.
Qed.

Lemma sum_of_cons {X : Type} (f : X -> Qc) (x : X) (xs : list X) :
  sum_of f (x :: xs) = f x + sum_of f xs.
Proof. reflexivity. Qed.

Lemma sum_of_bind {X Y : Type} (f : Y -> Qc) (g : X -> list Y) (xs : list X) :
  sum_of f (xs ≫= g) = sum_of (λ x, sum_of f (g x)) xs.
Proof.
  induction xs as [|x xs IH]; [reflexivity|].
  rewrite bind_cons, sum_of_app, sum_of_cons, IH. reflexivity.
Qed.

Lemma sum_of_le {X : Type} (f g : X -> Qc) (xs : list X) :
  (forall x, x ∈ xs -> f x <= g x) -> sum_of f xs <= sum_of g xs.
Proof.
  induction xs as [|x xs IH]; intros Hfg.
  - apply Qcle_refl.
  - rewrite !sum_of_cons. apply Qcplus_le_compat.
    + apply Hfg. by left.
    + apply IH. intros y Hy. apply Hfg. by right.
Qed.

Lemma sum_of_scale {X : Type} (a : Qc) (f : X -> Qc) (xs : list X) :
  sum_of (λ x, a * f x) xs = a * sum_of f xs.
Proof.
  induction xs as [|x xs IH]; [cbn; ring|].
  rewrite !sum_of_cons, IH. ring.
Qed.

Lemma net_cons (k : nat) (b : nat * Qc) (plan : list (nat * Qc)) :
  net k (b :: plan) = (if decide (b.1 = k) then b.2 else 0) + net k plan.
Proof. reflexivity. Qed.

Lemma moved_refl (r : string) (c : Country Qc) : moved r 0 c c.
Proof.
  split; [apply same_but_stocks_refl|]. split; [|done].
  destruct (resources c !! r) as [v|]; cbn; [|done]. f_equal. ring.
Qed.

Lemma moved_trans (r : string) (d1 d2 : Qc) (c1 c2 c3 : Country Qc) :
  moved r d1 c1 c2 -> moved r d2 c2 c3 -> moved r (d1 + d2) c1 c3.
Proof.
  intros (Hs1 & Hr1 & Ho1) (Hs2 & Hr2 & Ho2).
  split; [by eapply same_but_stocks_trans|]. split.
  - rewrite Hr2, Hr1. destruct (resources c1 !! r) as [v|]; cbn; [|done].
    f_equal. ring.
  - intros r' Hne. by rewrite Ho2, Ho1.
Qed.

Lemma bump_moved (r : string) (b : nat * Qc) (cs cs' : list (Country Qc))
    (k : nat) (c : Country Qc) :
  bump r b cs = Some cs' -> cs !! k = Some c ->
  exists c', cs' !! k = Some c' /\
             moved r (if decide (b.1 = k) then b.2 else 0) c c'.
Proof.
  destruct b as [k0 d]. unfold bump, stock_update. cbn [fst snd].
  intros Hb Hk.
  destruct (cs !! k0) as [c0|] eqn:E0; [|done]. cbn in Hb.
  destruct (resources c0 !! r) as [v|] eqn:Ev; [|done]. cbn in Hb.
  injection Hb as <-. destruct (decide (k0 = k)) as [->|Hne].
  - rewrite Hk in E0. injection E0 as ->. eexists. split.
    + apply list_lookup_insert_eq. by eapply lookup_lt_Some.
    + split; [|split].
      * repeat split. cbn [resources set_resources]. rewrite dom_insert_L.
        apply subseteq_union_1_L, singleton_subseteq_l, elem_of_dom. eauto.
      * cbn [resources set_resources]. by rewrite lookup_insert_eq, Ev.
      * intros r' Hr'. cbn [resources set_resources].
        by rewrite lookup_insert_ne.
  - exists c. split; [by rewrite list_lookup_insert_ne|apply moved_refl].
Qed.

Lemma bumps_moved (r : string) (plan : list (nat * Qc))
    (cs cs' : list (Country Qc)) (k : nat) (c : Country Qc) :
  for_each (bump r) plan cs = Some cs' -> cs !! k = Some c ->
  exists c', cs' !! k = Some c' /\ moved r (net k plan) c c'.
Proof.
  revert cs c. induction plan as [|b plan IH]; intros cs c Hrun Hk.
  - cbn in Hrun. simplify_eq. exists c. split; [done|apply moved_refl].
  - cbn [for_each] in Hrun.
    destruct (bump r b cs) as [cs1|] eqn:E1; [|done].
    cbn [mbind option_bind] in Hrun.
    destruct (bump_moved r b cs cs1 k c E1 Hk) as (c1 & Hk1 & Hm1).
    destruct (IH cs1 c1 Hrun Hk1) as (c' & Hk' & Hm').
    exists c'. split; [done|]. rewrite net_cons. by eapply moved_trans.
Qed.

(** ** One kind after the other *)

Lemma snapshot_agrees (r : string) (cs cs' : list (Country Qc)) :
  Forall2 (agrees_on r) cs cs' -> take_snapshot r cs' = take_snapshot r cs.
Proof.
  unfold take_snapshot. generalize (empty_snapshot (A := Qc)).
  intros s0 Hagree. revert s0.
  induction Hagree as [|c c' cs cs' Hc _ IH]; intros s0; [done|].
  cbn [fold_left]. rewrite IH. f_equal.
  destruct Hc as ((Hn & _ & _ & _ & _ & Hp & _) & Hr).
  unfold snapshot_step. by rewrite Hn, Hp, Hr.
Qed.

Lemma statics_agree (cs cs' : list (Country Qc)) :
  Forall2 same_but_stocks cs cs' -> statics cs' = statics cs.
Proof.
  unfold statics. induction 1 as [|c c' cs cs' Hc _ IH]; [done|].
  rewrite !fmap_cons, IH. f_equal.
  destruct Hc as (Hn & _ & _ & _ & _ & _ & _ & Ht & Hs & _).
  unfold static. by rewrite Hn, Ht, Hs.
Qed.

Lemma resource_bumps_agree (importers exporters : list nat) (r : string)
    (cs cs' : list (Country Qc)) :
  Forall2 (agrees_on r) cs cs' ->
  resource_bumps importers exporters r cs'
    = resource_bumps importers exporters r cs.
Proof.
  intros Hagree. unfold resource_bumps.
  rewrite (snapshot_agrees r cs cs' Hagree).
  rewrite (statics_agree cs cs'); [done|].
  eapply Forall2_impl; [exact Hagree|]. by intros c c' [Hs _].
Qed.

(** One kind: every country has the net change of the plan added to its
    stock of that kind and is otherwise as it was. *)
Lemma trade_resource_moved (order : list nat) (r : string)
    (st st' : TradeState Qc) :
  valid_order (length st.1) order ->
  trade_resource order order r st = Some st' ->
  length st'.1 = length st.1 /\
  forall k c, st.1 !! k = Some c ->
    exists c', st'.1 !! k = Some c' /\
               moved r (net k (resource_bumps order order r st.1)) c c'.
Proof.
  intros Horder Hrun. split; [by eapply trade_resource_length|].
  intros k c Hk.
  pose proof (trade_resource_bumps order order r st Horder Horder) as Hb.
  rewrite Hrun in Hb. cbn in Hb. symmetry in Hb.
  by eapply bumps_moved.
Qed.

Lemma moved_agrees (r r' : string) (d : nat -> Qc)
    (cs cs' : list (Country Qc)) :
  r' ≠ r -> length cs' = length cs ->
  (forall k c, cs !! k = Some c ->
     exists c', cs' !! k = Some c' /\ moved r (d k) c c') ->
  Forall2 (agrees_on r') cs cs'.
Proof.
  intros Hne Hlen Hmoved. apply Forall2_same_length_lookup_2; [done|].
  intros k c c' Hc Hc'. destruct (Hmoved k c Hc) as (c1 & Hc1 & Hs & _ & Ho).
  rewrite Hc' in Hc1. injection Hc1 as <-. split; [done|]. by apply Ho.
Qed.

Lemma trade_resources_moved (order : list nat) (rs : list string) :
  NoDup rs -> forall st st' : TradeState Qc,
  valid_order (length st.1) order ->
  for_each (trade_resource order order) rs st = Some st' ->
  length st'.1 = length st.1 /\
  forall k c, st.1 !! k = Some c ->
    exists c', st'.1 !! k = Some c' /\ same_but_stocks c c' /\
      (forall r, r ∈ rs ->
         resources c' !! r
           = (λ stock, stock + net k (resource_bumps order order r st.1))
               <$> resources c !! r) /\
      (forall r, r ∉ rs -> resources c' !! r = resources c !! r).
Proof.
  induction 1 as [|r0 rs Hfresh Hnd IH]; intros st st' Horder Hrun.
  - cbn in Hrun. injection Hrun as <-. split; [done|].
    intros k c Hk. exists c. split; [done|].
    split; [apply same_but_stocks_refl|]. split; [|done].
    intros r Hr. by apply elem_of_nil in Hr.
  - cbn [for_each] in Hrun.
    destruct (trade_resource order order r0 st) as [st1|] eqn:E1; [|done].
    cbn [mbind option_bind] in Hrun.
    destruct (trade_resource_moved order r0 st st1 Horder E1) as [Hlen1 Hmoved1].
    assert (Horder1 : valid_order (length st1.1) order) by by rewrite Hlen1.
    destruct (IH st1 st' Horder1 Hrun) as [Hlen' Hmoved'].
    split; [congruence|]. intros k c Hk.
    destruct (Hmoved1 k c Hk) as (c1 & Hk1 & Hs1 & Hr1 & Ho1).
    destruct (Hmoved' k c1 Hk1) as (c' & Hk' & Hs' & Hin' & Hout').
    exists c'. split; [done|].
    split; [by eapply same_but_stocks_trans|]. split.
    + intros r Hr. apply elem_of_cons in Hr as [->|Hr].
      * rewrite (Hout' r0 Hfresh), Hr1. reflexivity.
      * assert (Hne : r ≠ r0) by (intros ->; done).
        rewrite (Hin' r Hr), (Ho1 r Hne).
        rewrite (resource_bumps_agree order order r st.1 st1.1);
          [reflexivity|].
        exact (moved_agrees r0 r
                 (λ k, net k (resource_bumps order order r0 st.1))
                 st.1 st1.1 Hne Hlen1 Hmoved1).
    + intros r Hr. apply not_elem_of_cons in Hr as [Hne Hr].
      rewrite (Hout' r Hr), (Ho1 r Hne). reflexivity.
Qed.

(** ** Shares *)

Lemma lit_one_eq : 1 = Q2Qc 1.0.
Proof. apply Qc_is_canon. reflexivity. Qed.

Lemma lit_zero_int : lit 0 = 0 :> Qc.
Proof. apply Qc_is_canon. reflexivity. Qed.

Lemma Qc_share_nonneg (s t : Qc) : 0 <= s -> 0 < t -> 0 <= s / t.
Proof.
  intros Hs Ht. unfold Qcdiv.
  assert (Hinv : 0 < / t).
  { unfold Qclt, Qcinv, Q2Qc in Ht |- *. cbn [this] in Ht |- *.
    rewrite ?Qred_correct in Ht. rewrite !Qred_correct.
    by apply Qinv_lt_0_compat. }
  qc_products.
Qed.

Lemma sum_of_ext {X : Type} (f g : X -> Qc) (xs : list X) :
  (forall x, x ∈ xs -> f x = g x) -> sum_of f xs = sum_of g xs.
Proof.
  induction xs as [|x xs IH]; intros Hfg; [reflexivity|].
  rewrite !sum_of_cons, (Hfg x) by (by left).
  rewrite IH; [reflexivity|]. intros y Hy. apply Hfg. by right.
Qed.

Lemma sum_of_fmap {X Y : Type} (f : Y -> Qc) (g : X -> Y) (xs : list X) :
  sum_of f (g <$> xs) = sum_of (λ x, f (g x)) xs.
Proof.
  induction xs as [|x xs IH]; [reflexivity|].
  rewrite fmap_cons, !sum_of_cons, IH. reflexivity.
Qed.

Lemma sum_of_zero {X : Type} (xs : list X) : sum_of (λ _, 0) xs = 0.
Proof.
  induction xs as [|x xs IH]; [reflexivity|].
  rewrite sum_of_cons, IH. ring.
Qed.

(** A sum over the indices of a list is the sum over the list. *)
Lemma sum_of_indices (f : Country Qc -> Qc) (cs : list (Country Qc)) :
  sum_of (at_index f cs) (seq 0 (length cs)) = sum_of f cs.
Proof.
  induction cs as [|c cs IH]; [reflexivity|].
  cbn [length seq]. rewrite !sum_of_cons, <- fmap_S_seq, sum_of_fmap.
  rewrite <- IH. reflexivity.
Qed.

(** Only the index [k] contributes to a sum of terms tagged with [k]. *)
Lemma sum_of_tagged (g : nat -> Qc) (k start len : nat) :
  sum_of (λ j, if decide (j = k) then g j else 0) (seq start len)
    = if decide (start <= k < start + len)%nat then g k else 0.
Proof.
  revert start. induction len as [|len IH]; intros start.
  - cbn. destruct (decide _); [lia|reflexivity].
  - cbn [seq]. rewrite sum_of_cons, IH.
    destruct (decide (start = k)) as [->|Hne].
    + destruct (decide (S k <= k < _)%nat); [lia|].
      destruct (decide (k <= k < _)%nat); [ring|lia].
    + destruct (decide (S start <= k < S start + len)%nat),
               (decide (start <= k < start + S len)%nat); try lia; ring.
Qed.

(** ** The changes of one kind, bounded *)

Section Bounds.
Variable r : string.
Variable cs : list (Country Qc).
Hypothesis Hnames : NoDup (name <$> cs).
Hypothesis Htariffs :
  forall c, c ∈ cs -> 0 <= tariff_rate c /\ tariff_rate c <= 1.

Local Abbreviation snap := (take_snapshot r cs).
Local Abbreviation T := (total_supply (take_snapshot r cs)).
Local Abbreviation sigma := (at_index (supply_of r) cs).
Local Abbreviation delta := (at_index (demand_of r) cs).

Lemma at_index_lookup (f : Country Qc -> Qc) (k : nat) (c : Country Qc) :
  cs !! k = Some c -> at_index f cs k = f c.
Proof. intros Hk. unfold at_index. by rewrite Hk. Qed.

Lemma at_index_nonneg (f : Country Qc -> Qc) (k : nat) :
  (forall c, 0 <= f c) -> 0 <= at_index f cs k.
Proof.
  intros Hf. unfold at_index. destruct (cs !! k) as [c|]; cbn; [apply Hf|].
  apply Qcle_refl.
Qed.

Lemma sigma_nonneg (k : nat) : 0 <= sigma k.
Proof. apply at_index_nonneg, supply_of_nonneg. Qed.

Lemma delta_nonneg (k : nat) : 0 <= delta k.
Proof. apply at_index_nonneg, demand_of_nonneg. Qed.

Lemma pair_bumps_at (d : Qc) (i j : nat) (ci cj : Country Qc) :
  cs !! i = Some ci -> cs !! j = Some cj ->
  pair_bumps snap d (statics cs) i j
    = if nleb (supply_of r cj) (lit 0) then []
      else if bool_decide (name ci ∈ sanctions cj)
              || bool_decide (name cj ∈ sanctions ci) then []
      else [(j, - (supply_of r cj / T * d));
            (i, supply_of r cj / T * d * (lit 1.0 - tariff_rate ci))].
Proof using Hnames.
  intros Hi Hj. unfold pair_bumps, statics.
  rewrite !list_lookup_fmap, Hi, Hj. cbn [fmap option_fmap option_map static fst snd].
  destruct (take_snapshot_lookup r cs cj Hnames (list_elem_of_lookup_2 _ _ _ Hj))
    as [_ Hs].
  rewrite Hs. reflexivity.
Qed.

Lemma net_nil (k : nat) : net k [] = 0.
Proof. reflexivity. Qed.

Lemma pair_net_bounds (d : Qc) (i j k : nat) (ci cj : Country Qc) :
  cs !! i = Some ci -> cs !! j = Some cj -> 0 < T -> 0 <= d ->
  - (if decide (j = k) then sigma j / T * d else 0)
    <= net k (pair_bumps snap d (statics cs) i j) /\
  net k (pair_bumps snap d (statics cs) i j)
    <= (if decide (i = k) then sigma j / T * d else 0).
Proof using Hnames Htariffs.
  intros Hi Hj HT Hd. rewrite (pair_bumps_at d i j ci cj Hi Hj).
  rewrite (at_index_lookup _ j cj Hj).
  pose proof (Qc_share_nonneg _ _ (supply_of_nonneg r cj) HT) as Hshare.
  revert Hshare. generalize (supply_of r cj / T). intros share Hshare.
  destruct (Htariffs ci (list_elem_of_lookup_2 _ _ _ Hi)) as [Ht0 Ht1].
  assert (Hvol : 0 <= share * d) by qc_products.
  assert (Hvat : 0 <= share * d * (lit 1.0 - tariff_rate ci)
                 /\ share * d * (lit 1.0 - tariff_rate ci) <= share * d).
  { change (lit (A := Qc) 1.0) with (Q2Qc 1.0). rewrite <- lit_one_eq.
    revert Hvol. generalize (share * d). intros v Hv. split; qc_products. }
  destruct Hvat as [Hvat0 Hvat1].
  revert Hvol Hvat0 Hvat1.
  generalize (share * d * (lit 1.0 - tariff_rate ci)). generalize (share * d).
  intros v vat Hv Hvat0 Hvat1.
  destruct (nleb _ _); [|destruct (_ || _)]; rewrite ?net_nil;
    try (destruct (decide (j = k)), (decide (i = k)); split; qc_order).
  rewrite !net_cons, net_nil. cbn [fst snd].
  destruct (decide (j = k)), (decide (i = k)); split; qc_order.
Qed.

Lemma sum_of_opp {X : Type} (f : X -> Qc) (xs : list X) :
  sum_of (λ x, - f x) xs = - sum_of f xs.
Proof.
  induction xs as [|x xs IH]; [cbn; ring|].
  rewrite !sum_of_cons, IH. ring.
Qed.

Lemma net_bind {X : Type} (k : nat) (g : X -> list (nat * Qc)) (xs : list X) :
  net k (xs ≫= g) = sum_of (λ x, net k (g x)) xs.
Proof. unfold net. apply sum_of_bind. Qed.

Lemma at_index_past (f : Country Qc -> Qc) (k : nat) :
  (length cs <= k)%nat -> at_index f cs k = 0.
Proof.
  intros Hk. unfold at_index. by rewrite (lookup_ge_None_2 cs k Hk).
Qed.

Lemma sum_of_sigma : sum_of sigma (seq 0 (length cs)) = T.
Proof.
  rewrite sum_of_indices.
  by destruct (take_snapshot_totals r cs) as [_ ->].
Qed.

Lemma sum_of_delta : sum_of delta (seq 0 (length cs)) = total_demand snap.
Proof.
  rewrite sum_of_indices.
  by destruct (take_snapshot_totals r cs) as [-> _].
Qed.

Lemma T_nonneg : 0 <= T.
Proof.
  rewrite <- sum_of_sigma. apply sum_of_nonneg, sigma_nonneg.
Qed.

Lemma share_times_nonneg (k : nat) (d : Qc) : 0 <= d -> 0 <= sigma k / T * d.
Proof.
  intros Hd. destruct (Qclt_le_dec 0 T) as [HT|HT].
  - pose proof (Qc_share_nonneg _ _ (sigma_nonneg k) HT) as Hshare.
    revert Hshare. generalize (sigma k / T). intros share Hshare. qc_products.
  - assert (HT0 : T = 0) by (apply Qcle_antisym; [exact HT|apply T_nonneg]).
    rewrite HT0. unfold Qcdiv.
    replace (/ 0) with 0 by (apply Qc_is_canon; reflexivity).
    replace (sigma k * 0 * d) with 0 by ring. apply Qcle_refl.
Qed.

Lemma importer_bumps_at (exporters : list nat) (i : nat) (ci : Country Qc) :
  cs !! i = Some ci ->
  importer_bumps snap (statics cs) exporters i
    = if nleb (demand_of r ci) (lit 0) then []
      else exporters ≫= pair_bumps snap (demand_of r ci) (statics cs) i.
Proof using Hnames.
  intros Hi. unfold importer_bumps, statics.
  rewrite list_lookup_fmap, Hi.
  cbn [fmap option_fmap option_map static fst snd].
  destruct (take_snapshot_lookup r cs ci Hnames (list_elem_of_lookup_2 _ _ _ Hi))
    as [Hd _].
  rewrite Hd. reflexivity.
Qed.

Lemma importer_net_bounds (i k : nat) (ci : Country Qc) :
  cs !! i = Some ci -> 0 < T ->
  - (sigma k / T * delta i)
    <= net k (importer_bumps snap (statics cs) (seq 0 (length cs)) i) /\
  net k (importer_bumps snap (statics cs) (seq 0 (length cs)) i)
    <= (if decide (i = k) then delta i else 0).
Proof using Hnames Htariffs.
  intros Hi HT. rewrite (importer_bumps_at _ i ci Hi).
  rewrite (at_index_lookup (demand_of r) i ci Hi).
  pose proof (demand_of_nonneg r ci) as Hd.
  pose proof (share_times_nonneg k _ Hd) as Hlow.
  destruct (nleb _ _).
  { rewrite net_nil. split; [qc_order|].
    destruct (decide (i = k)); [exact Hd|apply Qcle_refl]. }
  rewrite net_bind. split.
  - eapply Qcle_trans; [|apply sum_of_le].
    2:{ intros j Hj. apply elem_of_seq in Hj.
        destruct (lookup_lt_is_Some_2 cs j) as [cj Hcj]; [lia|].
        exact (proj1 (pair_net_bounds (demand_of r ci) i j k ci cj Hi Hcj HT Hd)). }
    rewrite sum_of_opp, (sum_of_tagged (λ j, sigma j / T * demand_of r ci)).
    destruct (decide (0 <= k < 0 + length cs)%nat); [apply Qcle_refl|].
    rewrite at_index_past by lia.
    unfold Qcdiv. replace (0 * / T * demand_of r ci) with 0 by ring.
    apply Qcle_refl.
  - eapply Qcle_trans; [apply sum_of_le|].
    { intros j Hj. apply elem_of_seq in Hj.
      destruct (lookup_lt_is_Some_2 cs j) as [cj Hcj]; [lia|].
      exact (proj2 (pair_net_bounds (demand_of r ci) i j k ci cj Hi Hcj HT Hd)). }
    destruct (decide (i = k)); [|rewrite sum_of_zero; apply Qcle_refl].
    rewrite (sum_of_ext _ (λ j, demand_of r ci * / T * sigma j));
      [|intros j _; unfold Qcdiv; ring].
    rewrite sum_of_scale, sum_of_sigma.
    replace (demand_of r ci * / T * T) with (demand_of r ci * (/ T * T)) by ring.
    rewrite Qcmult_inv_l; [ring_simplify; apply Qcle_refl|].
    intros HT0. rewrite HT0 in HT. by apply Qclt_not_le in HT.
Qed.

Lemma resource_net_bounds (k : nat) :
  - (sigma k / T * total_demand snap)
    <= net k (resource_bumps (seq 0 (length cs)) (seq 0 (length cs)) r cs) /\
  net k (resource_bumps (seq 0 (length cs)) (seq 0 (length cs)) r cs)
    <= delta k.
Proof using Hnames Htariffs.
  unfold resource_bumps.
  assert (HD : 0 <= total_demand snap)
    by (rewrite <- sum_of_delta; apply sum_of_nonneg, delta_nonneg).
  pose proof (share_times_nonneg k _ HD) as Hlow.
  destruct (nleb T (lit 0)) eqn:ET; cbn [orb].
  { rewrite net_nil. split; [qc_order|apply delta_nonneg]. }
  destruct (nleb (total_demand snap) (lit 0)).
  { rewrite net_nil. split; [qc_order|apply delta_nonneg]. }
  apply nleb_false in ET. rewrite lit_zero_int in ET.
  rewrite net_bind. split.
  - eapply Qcle_trans; [|apply sum_of_le].
    2:{ intros i Hi. apply elem_of_seq in Hi.
        destruct (lookup_lt_is_Some_2 cs i) as [ci Hci]; [lia|].
        exact (proj1 (importer_net_bounds i k ci Hci ET)). }
    rewrite sum_of_opp, sum_of_scale, sum_of_delta. apply Qcle_refl.
  - eapply Qcle_trans; [apply sum_of_le|].
    { intros i Hi. apply elem_of_seq in Hi.
      destruct (lookup_lt_is_Some_2 cs i) as [ci Hci]; [lia|].
      exact (proj2 (importer_net_bounds i k ci Hci ET)). }
    rewrite (sum_of_tagged delta).
    destruct (decide (0 <= k < 0 + length cs)%nat); [apply Qcle_refl|].
    apply delta_nonneg.
Qed.

End Bounds.

(** ** Trade clearing, stock by stock *)

Lemma resource_types_NoDup {A} `{Num A} (first : Country A) :
  NoDup (resource_types first).
Proof. apply NoDup_fst_map_to_list. Qed.

Lemma resolve_trade_moved (w w' : World Qc) (first : Country Qc) :
  head (countries w) = Some first -> resolve_trade w = Some w' ->
  forall k c, countries w !! k = Some c ->
    exists c', countries w' !! k = Some c' /\ same_but_stocks c c' /\
      (forall r, r ∈ dom (resources first) ->
         resources c' !! r
           = (λ stock, stock + net k (resource_bumps (list_order w) (list_order w)
                                        r (countries w)))
               <$> resources c !! r) /\
      (forall r, r ∉ dom (resources first) ->
         resources c' !! r = resources c !! r).
Proof.
  unfold resolve_trade, resolve_trade_log, resolve_trade_in.
  intros Hfirst Hrun k c Hk.
  destruct (countries w) as [|first' rest] eqn:Ecs; [done|].
  cbn in Hfirst. injection Hfirst as ->.
  destruct (for_each _ _ _) as [st|] eqn:Eloop; [|done].
  cbn in Hrun. injection Hrun as <-. cbn [countries].
  destruct (trade_resources_moved (list_order w) (resource_types first)
              (resource_types_NoDup first) (first :: rest, []) st)
    as [_ Hmoved]; [|exact Eloop|].
  { unfold valid_order, list_order. by rewrite Ecs. }
  destruct (Hmoved k c Hk) as (c' & Hk' & Hs & Hin & Hout).
  exists c'. split; [exact Hk'|]. split; [exact Hs|]. split.
  - intros r Hr. apply Hin. by apply resource_types_dom.
  - intros r Hr. apply Hout. by rewrite resource_types_dom.
Qed.

Lemma stock_of_lookup (r : string) (c : Country Qc) (v : Qc) :
  resources c !! r = Some v -> stock_of r c = v.
Proof. intros Hv. unfold stock_of. by rewrite Hv. Qed.

Lemma share_of_demand (s t d : Qc) :
  0 <= s -> 0 <= d -> d <= t -> s / t * d <= s.
Proof.
  intros Hs Hd Hdt. destruct (Qclt_le_dec 0 t) as [Ht|Ht].
  - unfold Qcdiv.
    assert (Hinv : / t * t = 1).
    { apply Qcmult_inv_l. intros Ht0. rewrite Ht0 in Ht.
      by apply Qclt_not_le in Ht. }
    assert (Hpos : 0 <= / t).
    { pose proof (Qc_share_nonneg 1 t) as Hone. unfold Qcdiv in Hone.
      rewrite Qcmult_1_l in Hone. apply Hone; [|exact Ht].
      apply Qle_bool_iff. reflexivity. }
    revert Hinv Hpos. generalize (/ t). intros i Hinv Hpos.
    assert (Hid : i * d <= 1).
    { rewrite <- Hinv. clear Hinv. qc_products. }
    revert Hid. replace (s * i * d) with (s * (i * d)) by ring.
    generalize (i * d). intros x Hx. qc_products.
  - assert (Ht0 : t = 0).
    { apply Qcle_antisym; [exact Ht|]. by eapply Qcle_trans. }
    rewrite Ht0. unfold Qcdiv.
    replace (/ 0) with 0 by (apply Qc_is_canon; reflexivity).
    replace (s * 0 * d) with 0 by ring. exact Hs.
Qed.

(** X11: trade clearing moves a stock towards the level of consumption: a
    country short of a kind loses nothing of it and ends at most at its
    consumption, a country with a surplus gains nothing, and it is left
    with at least its consumption as long as the total demand does not
    exceed the total supply. *)
Theorem resolve_trade_towards_consumption (w w' : World Qc) (k : nat)
    (c c' : Country Qc) (r : string) (old new : Qc) :
  NoDup (name <$> countries w) ->
  (forall c, c ∈ countries w -> 0 <= tariff_rate c /\ tariff_rate c <= 1) ->
  resolve_trade w = Some w' ->
  countries w !! k = Some c -> countries w' !! k = Some c' ->
  resources c !! r = Some old -> resources c' !! r = Some new ->
  (old < consumption c -> old <= new /\ new <= consumption c) /\
  (consumption c <= old ->
     new <= old /\
     (sum_of (demand_of r) (countries w) <= sum_of (supply_of r) (countries w) ->
      consumption c <= new)).
Proof.
  intros Hnames Htariffs Hrun Hk Hk' Hold Hnew.
  destruct (countries w) as [|first rest] eqn:Ecs; [done|].
  rewrite <- Ecs in *.
  destruct (resolve_trade_moved w w' first) with (k := k) (c := c)
    as (c1 & Hk1 & _ & Hin & Hout); [by rewrite Ecs|exact Hrun|exact Hk|].
  rewrite Hk' in Hk1. injection Hk1 as <-.
  destruct (decide (r ∈ dom (resources first))) as [Hr|Hr]; cycle 1.
  { rewrite (Hout r Hr), Hold in Hnew. injection Hnew as <-.
    split; [intros Hlt; split; [apply Qcle_refl|by apply Qclt_le_weak]|].
    intros Hle. split; [apply Qcle_refl|]. intros _. exact Hle. }
  rewrite (Hin r Hr), Hold in Hnew. cbn in Hnew. injection Hnew as <-.
  destruct (resource_net_bounds r (countries w) Hnames Htariffs k) as [Hlow Hup].
  unfold list_order.
  rewrite (at_index_lookup (countries w) (supply_of r) k c Hk) in Hlow.
  rewrite (at_index_lookup (countries w) (demand_of r) k c Hk) in Hup.
  destruct (take_snapshot_totals r (countries w)) as [HD HT].
  rewrite HD, HT in Hlow.
  revert Hlow Hup.
  generalize (net k (resource_bumps (seq 0 (length (countries w)))
                       (seq 0 (length (countries w))) r (countries w))).
  intros delta Hlow Hup.
  pose proof (sum_of_nonneg (demand_of r) (countries w) (demand_of_nonneg r)) as HD0.
  revert Hlow HD0.
  generalize (sum_of (demand_of r) (countries w)).
  generalize (sum_of (supply_of r) (countries w)).
  intros T D Hlow HD0.
  unfold demand_of, supply_of in Hlow, Hup.
  rewrite (stock_of_lookup r c old Hold) in Hlow, Hup.
  split.
  - intros Hlt. rewrite (proj2 (nltb_true _ _) Hlt) in Hlow, Hup.
    rewrite lit_zero in Hlow. unfold Qcdiv in Hlow.
    replace (0 * / T * D) with 0 in Hlow by ring.
    split; qc_order.
  - intros Hle. rewrite (proj2 (nltb_false _ _) Hle) in Hlow, Hup.
    split; [qc_order|]. intros Hcover.
    assert (Hsur : 0 <= (old - consumption c)%num) by qc_order.
    pose proof (share_of_demand _ _ _ Hsur HD0 Hcover) as Hshare.
    revert Hlow Hshare.
    generalize ((old - consumption c)%num / T * D).
    intros x Hlow Hshare. qc_order.
Qed.

(** The importer [B] of the scenario and its oil. *)
Lemma resolve_trade_towards_consumption_witness :
  (stock_of "oil" (scenario_B (A := Qc)) < consumption (scenario_B (A := Qc)) ->
   stock_of "oil" (scenario_B (A := Qc))
     <= stock_of "oil" (default scenario_B (countries scenario_result.1 !! 1%nat)) /\
   stock_of "oil" (default scenario_B (countries scenario_result.1 !! 1%nat))
     <= consumption (scenario_B (A := Qc))) /\
  (consumption (scenario_B (A := Qc)) <= stock_of "oil" (scenario_B (A := Qc)) ->
   stock_of "oil" (default scenario_B (countries scenario_result.1 !! 1%nat))
     <= stock_of "oil" (scenario_B (A := Qc)) /\
   (sum_of (demand_of "oil") (countries (scenario (A := Qc)))
      <= sum_of (supply_of "oil") (countries (scenario (A := Qc))) ->
    consumption (scenario_B (A := Qc))
      <= stock_of "oil" (default scenario_B (countries scenario_result.1 !! 1%nat)))).
Proof.
  apply (resolve_trade_towards_consumption scenario scenario_result.1 1
           scenario_B (default scenario_B (countries scenario_result.1 !! 1%nat))
           "oil").
  - apply (bool_decide_unpack (NoDup (name <$> countries scenario))).
    vm_compute. exact I.
  - intros c Hc. cbn [scenario countries] in Hc.
    repeat (apply elem_of_cons in Hc as [->|Hc]); [..|by apply elem_of_nil in Hc];
      split; apply Qle_bool_iff; vm_compute; reflexivity.
  - vm_compute. reflexivity.
  - reflexivity.
  - vm_compute. reflexivity.
  - vm_compute. reflexivity.
  - vm_compute. reflexivity.
Defined.

(** ** Turns without trade *)

Lemma for_each_idle {S X : Type} (body : X -> S -> option S) (xs : list X)
    (st : S) :
  (forall x, x ∈ xs -> body x st = Some st) -> for_each body xs st = Some st.
Proof.
  induction xs as [|x xs IH]; intros Hbody; [reflexivity|].
  cbn [for_each]. rewrite (Hbody x) by (by left). cbn [mbind option_bind].
  apply IH. intros y Hy. apply Hbody. by right.
Qed.

Lemma sum_of_all_zero {X : Type} (f : X -> Qc) (xs : list X) :
  (forall x, x ∈ xs -> f x = 0) -> sum_of f xs = 0.
Proof.
  intros Hf. rewrite (sum_of_ext f (λ _, 0)) by exact Hf. apply sum_of_zero.
Qed.

Lemma resolve_trade_same (w : World Qc) :
  (forall first r st, head (countries w) = Some first ->
     r ∈ dom (resources first) -> st.1 = countries w ->
     fst <$> trade_resource (list_order w) (list_order w) r st
       = Some (countries w)) ->
  resolve_trade w = Some w.
Proof.
  intros Hidle. unfold resolve_trade, resolve_trade_log, resolve_trade_in.
  destruct w as [cs]. cbn [countries] in *.
  destruct cs as [|first rest]; [reflexivity|].
  destruct (for_each_runs (λ s : TradeState Qc, s.1 = first :: rest)
              (trade_resource (list_order {| countries := first :: rest |})
                              (list_order {| countries := first :: rest |}))
              (resource_types first) (first :: rest, []))
    as (st' & -> & Hst'); [|reflexivity|].
  - intros r st Hr Hst.
    specialize (Hidle first r st eq_refl (proj1 (resource_types_dom _ _) Hr) Hst).
    destruct (trade_resource _ _ r st) as [st1|]; [|discriminate Hidle].
    cbn in Hidle. injection Hidle as Hst1. by exists st1.
  - cbn. by rewrite Hst'.
Qed.

(** X12: a kind of which no country is short, or of which no country has
    anything to spare, is not traded; when this holds of every kind, trade
    clearing leaves the world as it is. *)
Theorem resolve_trade_idle (w : World Qc) :
  (forall first r, head (countries w) = Some first ->
     r ∈ dom (resources first) ->
     (forall c, c ∈ countries w -> consumption c <= stock_of r c) \/
     (forall c, c ∈ countries w -> stock_of r c <= consumption c)) ->
  resolve_trade w = Some w.
Proof.
  intros Hkinds. apply resolve_trade_same. intros first r st Hfirst Hr Hst.
  unfold trade_resource. rewrite Hst.
  destruct (take_snapshot_totals r (countries w)) as [-> ->].
  destruct (Hkinds first r Hfirst Hr) as [Hfull | Hbare].
  - rewrite (sum_of_all_zero (demand_of r)).
    + rewrite orb_true_r. cbn. by rewrite Hst.
    + intros c Hc. unfold demand_of.
      rewrite (proj2 (nltb_false _ _) (Hfull c Hc)). apply lit_zero.
  - rewrite (sum_of_all_zero (supply_of r)).
    { change (nleb (A := Qc) 0 (lit 0)) with true. cbn. by rewrite Hst. }
    intros c Hc. unfold supply_of. destruct (nltb _ _) eqn:E; [apply lit_zero|].
    apply nltb_false in E. apply Qc_is_canon.
    specialize (Hbare c Hc). qc_order.
Qed.

(** In the created world every stock covers the consumption. *)
Lemma resolve_trade_idle_witness :
  resolve_trade (create_world (A := Qc)) = Some create_world.
Proof.
  apply resolve_trade_idle. intros first r Hfirst Hr. left. intros c Hc.
  cbn in Hfirst. injection Hfirst as <-.
  cbn [resources Albia create_country Country_init default] in Hr.
  unfold id, resource_set in Hr. rewrite !dom_insert_L, dom_empty_L in Hr.
  cbn [create_world countries] in Hc.
  repeat (apply elem_of_union in Hr as [Hr|Hr]);
    [apply elem_of_singleton in Hr as ->..|by apply elem_of_empty in Hr];
    (repeat (apply elem_of_cons in Hc as [->|Hc]);
     [..|by apply elem_of_nil in Hc]);
    apply Qle_bool_iff; vm_compute; reflexivity.
Defined.

Lemma NoDup_names_lookup (cs : list (Country Qc)) (i j : nat)
    (ci cj : Country Qc) :
  NoDup (name <$> cs) -> cs !! i = Some ci -> cs !! j = Some cj ->
  name ci = name cj -> i = j.
Proof.
  intros Hnd Hi Hj Heq.
  eapply (NoDup_lookup _ i j (name ci) Hnd); rewrite list_lookup_fmap.
  - by rewrite Hi.
  - by rewrite Hj, Heq.
Qed.

Lemma bind_nil_all {X Y : Type} (g : X -> list Y) (xs : list X) :
  (forall x, x ∈ xs -> g x = []) -> xs ≫= g = [].
Proof.
  induction xs as [|x xs IH]; intros Hg; [reflexivity|].
  rewrite bind_cons, (Hg x) by (by left). cbn [app].
  apply IH. intros y Hy. apply Hg. by right.
Qed.

(** X13: when every two countries are separated by a sanction, one way or
    the other, trade clearing leaves the world as it is. *)
Theorem resolve_trade_embargo (w : World Qc) :
  NoDup (name <$> countries w) ->
  (forall c1 c2, c1 ∈ countries w -> c2 ∈ countries w ->
     name c1 ≠ name c2 ->
     name c1 ∈ sanctions c2 \/ name c2 ∈ sanctions c1) ->
  resolve_trade w = Some w.
Proof.
  intros Hnames Hblocked. apply resolve_trade_same.
  intros first r st _ _ Hst.
  pose proof (trade_resource_bumps (list_order w) (list_order w) r st) as Hb.
  rewrite Hst in Hb. specialize (Hb (reflexivity _) (reflexivity _)).
  assert (Hplan : resource_bumps (list_order w) (list_order w) r (countries w)
                  = []).
  { unfold resource_bumps. destruct (_ || _); [reflexivity|].
    apply bind_nil_all. intros i Hi. apply elem_of_seq in Hi.
    destruct (lookup_lt_is_Some_2 (countries w) i) as [ci Hci]; [lia|].
    rewrite (importer_bumps_at r (countries w) Hnames _ i ci Hci).
    destruct (nleb (demand_of r ci) (lit 0)) eqn:Ed; [reflexivity|].
    apply bind_nil_all. intros j Hj. apply elem_of_seq in Hj.
    destruct (lookup_lt_is_Some_2 (countries w) j) as [cj Hcj]; [lia|].
    rewrite (pair_bumps_at r (countries w) Hnames _ i j ci cj Hci Hcj).
    destruct (nleb (supply_of r cj) (lit 0)) eqn:Es; [reflexivity|].
    destruct (decide (name ci = name cj)) as [Heq|Hne].
    - assert (i = j) by by eapply NoDup_names_lookup.
      subst j. rewrite Hci in Hcj. injection Hcj as <-. exfalso.
      apply nleb_false in Ed, Es. revert Ed Es.
      unfold demand_of, supply_of. destruct (nltb _ _); qc_order.
    - destruct (Hblocked ci cj (list_elem_of_lookup_2 _ _ _ Hci)
                  (list_elem_of_lookup_2 _ _ _ Hcj) Hne) as [Hin|Hin].
      + by rewrite (bool_decide_eq_true_2 _ Hin).
      + rewrite (bool_decide_eq_true_2 _ Hin), orb_true_r. reflexivity. }
  rewrite Hb, Hplan. reflexivity.
Qed.

(** The scenario after [A] has sanctioned [B]. *)
Lemma resolve_trade_embargo_witness : resolve_trade embargo = Some embargo.
Proof.
  apply resolve_trade_embargo.
  - apply (bool_decide_unpack (NoDup (name <$> countries embargo))).
    vm_compute. exact I.
  - intros c1 c2 Hc1 Hc2 Hne. cbn [embargo countries] in Hc1, Hc2.
    repeat (apply elem_of_cons in Hc1 as [->|Hc1]);
      [..|by apply elem_of_nil in Hc1];
      (repeat (apply elem_of_cons in Hc2 as [->|Hc2]);
       [..|by apply elem_of_nil in Hc2]);
      try (exfalso; apply Hne; reflexivity).
    + right. apply (bool_decide_unpack (_ ∈ _)). vm_compute. exact I.
    + left. apply (bool_decide_unpack (_ ∈ _)). vm_compute. exact I.
Defined.

(** ** A country that lacks a kind *)

Lemma bumps_fail (r : string) (plan : list (nat * Qc)) (i : nat) (d : Qc) :
  (i, d) ∈ plan ->
  forall (cs : list (Country Qc)) (c : Country Qc),
    cs !! i = Some c -> resources c !! r = None ->
    for_each (bump r) plan cs = None.
Proof.
  induction plan as [|b plan IH]; intros Hin cs c Hi Hr.
  - by apply elem_of_nil in Hin.
  - cbn [for_each]. destruct (bump r b cs) as [cs1|] eqn:E1; [|reflexivity].
    cbn [mbind option_bind]. apply elem_of_cons in Hin as [<-|Hin].
    + rewrite (bump_None r i d cs) in E1; [discriminate E1|].
      right. by exists c.
    + destruct (bump_moved r b cs cs1 i c E1 Hi) as (c1 & Hi1 & _ & Hr1 & _).
      apply (IH Hin cs1 c1 Hi1). by rewrite Hr1, Hr.
Qed.

Lemma sum_of_member_le {X : Type} (f : X -> Qc) (xs : list X) (x : X) :
  (forall y, 0 <= f y) -> x ∈ xs -> f x <= sum_of f xs.
Proof.
  intros Hf. induction xs as [|y xs IH]; intros Hx.
  - by apply elem_of_nil in Hx.
  - rewrite sum_of_cons. apply elem_of_cons in Hx as [<-|Hx].
    + pose proof (sum_of_nonneg f xs Hf). qc_order.
    + specialize (IH Hx). specialize (Hf y). qc_order.
Qed.

Lemma agrees_on_refl (r : string) (cs : list (Country Qc)) :
  Forall2 (agrees_on r) cs cs.
Proof.
  apply Forall_Forall2_diag, Forall_forall. intros c _.
  split; [apply same_but_stocks_refl|reflexivity].
Qed.

Lemma agrees_on_trans (r : string) (cs1 cs2 cs3 : list (Country Qc)) :
  Forall2 (agrees_on r) cs1 cs2 -> Forall2 (agrees_on r) cs2 cs3 ->
  Forall2 (agrees_on r) cs1 cs3.
Proof.
  intros H12. revert cs3. induction H12 as [|c1 c2 cs1 cs2 Hc _ IH];
    intros cs3 H23; inversion H23 as [|? c3 ? ? Hc' ?]; subst; constructor.
  - destruct Hc as [Hs Hr], Hc' as [Hs' Hr']. split.
    + by eapply same_but_stocks_trans.
    + by rewrite Hr', Hr.
  - by apply IH.
Qed.

(** The pass of the kind [r] fails when its plan changes the stock of a
    country that lacks [r]. *)
Lemma trade_resources_fail (order : list nat) (r : string) (i : nat) (d : Qc)
    (cs : list (Country Qc)) (c : Country Qc) (rs : list string) :
  valid_order (length cs) order ->
  (i, d) ∈ resource_bumps order order r cs ->
  cs !! i = Some c -> resources c !! r = None -> r ∈ rs ->
  forall st : TradeState Qc,
    Forall2 (agrees_on r) cs st.1 ->
    for_each (trade_resource order order) rs st = None.
Proof.
  intros Horder Hplan Hi Hr. induction rs as [|r0 rs IH]; intros Hin st Hagree.
  - by apply elem_of_nil in Hin.
  - cbn [for_each].
    assert (Hlen : length st.1 = length cs)
      by (symmetry; by eapply Forall2_length).
    assert (Horder' : valid_order (length st.1) order) by by rewrite Hlen.
    destruct (trade_resource order order r0 st) as [st1|] eqn:E1; [|reflexivity].
    cbn [mbind option_bind].
    destruct (decide (r0 = r)) as [->|Hne].
    + exfalso.
      pose proof (trade_resource_bumps order order r st Horder' Horder') as Hb.
      rewrite E1, (resource_bumps_agree order order r cs st.1 Hagree) in Hb.
      destruct (Forall2_lookup_l _ _ _ _ _ Hagree Hi) as (c' & Hi' & _ & Hr').
      rewrite (bumps_fail r _ i d Hplan st.1 c' Hi') in Hb; [discriminate Hb|].
      by rewrite Hr', Hr.
    + apply elem_of_cons in Hin as [->|Hin]; [done|].
      apply (IH Hin). eapply agrees_on_trans; [exact Hagree|].
      destruct (trade_resource_moved order r0 st st1 Horder' E1) as [Hlen1 Hmoved].
      assert (Hne' : r ≠ r0) by (intros ->; done).
      exact (moved_agrees r0 r _ st.1 st1.1 Hne' Hlen1 Hmoved).
Qed.

(** X14: trade clearing raises [KeyError] when a country that lacks a kind
    of the first country has to import it: it has a population to feed,
    some country has a surplus of the kind, and no sanction stands between
    the two. *)
Theorem resolve_trade_missing_kind (w : World Qc)
    (first importer exporter : Country Qc) (r : string) :
  NoDup (name <$> countries w) ->
  head (countries w) = Some first -> r ∈ dom (resources first) ->
  importer ∈ countries w -> exporter ∈ countries w ->
  resources importer !! r = None -> 0 < population importer ->
  0 < supply_of r exporter ->
  name importer ∉ sanctions exporter -> name exporter ∉ sanctions importer ->
  resolve_trade w = None.
Proof.
  intros Hnames Hfirst Hr Himp Hexp Hlack Hpop Hsup Hs1 Hs2.
  assert (Hdem : 0 < demand_of r importer).
  { unfold demand_of, stock_of, consumption. rewrite Hlack. cbn [default].
    destruct (nltb _ _) eqn:E.
    - apply nltb_true in E. qc_order.
    - apply nltb_false in E. exfalso. qc_order. }
  apply list_elem_of_lookup in Himp as [i Hi].
  apply list_elem_of_lookup in Hexp as [j Hj].
  assert (Hplan : exists d, (i, d) ∈ resource_bumps (list_order w) (list_order w)
                                      r (countries w)).
  { unfold resource_bumps.
    destruct (take_snapshot_totals r (countries w)) as [-> ->].
    pose proof (sum_of_member_le (demand_of r) (countries w) importer
                  (demand_of_nonneg r) (list_elem_of_lookup_2 _ _ _ Hi)) as HD.
    pose proof (sum_of_member_le (supply_of r) (countries w) exporter
                  (supply_of_nonneg r) (list_elem_of_lookup_2 _ _ _ Hj)) as HT.
    rewrite (proj2 (nleb_false _ _)) by (rewrite lit_zero_int; qc_order).
    rewrite (proj2 (nleb_false _ _)) by (rewrite lit_zero_int; qc_order).
    cbn [orb]. eexists. apply list_elem_of_bind. exists i. split.
    - rewrite (importer_bumps_at r (countries w) Hnames _ i importer Hi).
      rewrite (proj2 (nleb_false _ _)) by (rewrite lit_zero_int; exact Hdem).
      apply list_elem_of_bind. exists j. split.
      + rewrite (pair_bumps_at r (countries w) Hnames _ i j importer exporter Hi Hj).
        rewrite (proj2 (nleb_false _ _)) by (rewrite lit_zero_int; exact Hsup).
        rewrite (bool_decide_eq_false_2 _ Hs1), (bool_decide_eq_false_2 _ Hs2).
        cbn [orb]. right. left.
      + apply elem_of_seq. apply lookup_lt_Some in Hj. lia.
    - apply elem_of_seq. apply lookup_lt_Some in Hi. lia. }
  destruct Hplan as [d Hplan].
  unfold resolve_trade, resolve_trade_log, resolve_trade_in.
  destruct (countries w) as [|first' rest] eqn:Ecs; [done|].
  cbn in Hfirst. injection Hfirst as ->. rewrite <- Ecs in *.
  rewrite (trade_resources_fail (list_order w) r i d (countries w) importer
             (resource_types first)); try done.
  - unfold valid_order, list_order. reflexivity.
  - by apply resource_types_dom.
  - cbn [fst]. apply agrees_on_refl.
Qed.

(** A country that holds gold only, beside the country [A] of the scenario. *)
Lemma resolve_trade_missing_kind_witness :
  resolve_trade {| countries := different_kinds (A := Qc) |} = None.
Proof.
  apply (resolve_trade_missing_kind {| countries := different_kinds |}
           scenario_A gold_C scenario_A "oil").
  - apply (bool_decide_unpack (NoDup (name <$> different_kinds))).
    vm_compute. exact I.
  - reflexivity.
  - apply elem_of_dom. eexists. reflexivity.
  - right. left.
  - left.
  - reflexivity.
  - apply nltb_true. vm_compute. reflexivity.
  - apply nltb_true. vm_compute. reflexivity.
  - apply not_elem_of_empty.
  - apply not_elem_of_empty.
Defined.

(** ** [Game.get_country_at] *)

Lemma int_ltb_exact (a b : Z) :
  int_ltb (A := Qc) a (lit (inject_Z b)) = (a <? b)%Z.
Proof.
  unfold int_ltb, Qc_FromInt. destruct (Z.ltb_spec a b) as [Hlt|Hle].
  - apply nltb_true. unfold lit, Qc_Num, Qclt. cbn [this Q2Qc].
    rewrite !Qred_correct. by rewrite <- Zlt_Qlt.
  - apply nltb_false. unfold lit, Qc_Num, Qcle. cbn [this Q2Qc].
    rewrite !Qred_correct. by rewrite <- Zle_Qle.
Qed.

(** An edge parallel to the y axis is crossed by the ray of the points to
    its left whose height lies between its ends, the lower end
    included. *)
Lemma crosses_vertical (x y xv ya yb : Z) :
  crosses (A := Qc) x y (xv, ya) (xv, yb)
  = Some (negb (Bool.eqb (ya >? y)%Z (yb >? y)%Z) && (x <? xv)%Z).
Proof.
  unfold crosses. destruct (negb _); [|reflexivity].
  cbn [from_int Qc_FromInt mbind option_bind andb]. f_equal.
  rewrite Z.sub_diag, Z.mul_0_l. rewrite <- int_ltb_exact. f_equal.
  unfold nadd, ndiv, lit, Qc_Num.
  replace (Q2Qc (inject_Z 0)) with 0 by (apply Qc_is_canon; reflexivity).
  unfold Qcdiv. ring.
Qed.

(** An edge parallel to the x axis is never crossed. *)
Lemma crosses_horizontal (x y xa xb yh : Z) :
  crosses (A := Qc) x y (xa, yh) (xb, yh) = Some false.
Proof. unfold crosses. by destruct (yh >? y)%Z. Qed.

Lemma ray_cast_rectangle (x y x0 y0 x1 y1 : Z) :
  ray_cast (A := Qc) x y [(x0, y0); (x1, y0); (x1, y1); (x0, y1)] (seq 0 4) 3
    false
  = Some (xorb (negb (Bool.eqb (y1 >? y)%Z (y0 >? y)%Z) && (x <? x1)%Z)
               (negb (Bool.eqb (y0 >? y)%Z (y1 >? y)%Z) && (x <? x0)%Z)).
Proof.
  cbn [seq ray_cast lookup list_lookup mbind option_bind].
  rewrite !crosses_vertical, !crosses_horizontal.
  cbn [mbind option_bind]. f_equal.
  by destruct (negb _ && _), (negb _ && _).
Qed.

Lemma corners_x (a b : Z) :
  (Z.min (Z.min (Z.min a b) b) a = Z.min a b /\
   Z.max (Z.max (Z.max a b) b) a = Z.max a b)%Z.
Proof. lia. Qed.

Lemma corners_y (a b : Z) :
  (Z.min (Z.min (Z.min a a) b) b = Z.min a b /\
   Z.max (Z.max (Z.max a a) b) b = Z.max a b)%Z.
Proof. lia. Qed.

(** X15: a country drawn as a rectangle with sides parallel to the axes is
    hit by the points of the rectangle, its left and upper sides included
    and its right and lower sides excluded (y grows downwards). *)
Theorem hit_rectangle (c : Country Qc) (x0 y0 x1 y1 x y : Z) :
  polygon c = [(x0, y0); (x1, y0); (x1, y1); (x0, y1)] ->
  hit x y c
  = Some (bool_decide ((Z.min x0 x1 <= x < Z.max x0 x1)%Z /\
                       (Z.min y0 y1 <= y < Z.max y0 y1)%Z)).
Proof.
  intros Hpoly. unfold hit. rewrite Hpoly.
  cbn [fmap list_fmap fst snd py_min_list py_max_list foldl mbind option_bind
       length Nat.sub].
  rewrite ray_cast_rectangle.
  rewrite (proj1 (corners_x x0 x1)), (proj2 (corners_x x0 x1)),
          (proj1 (corners_y y0 y1)), (proj2 (corners_y y0 y1)).
  destruct (_ && _ && _ && _) eqn:Ebox; cbn [negb].
  - f_equal. repeat (apply andb_prop in Ebox as [Ebox ?]).
    repeat match goal with
           | Hb : (_ <=? _)%Z = true |- _ => apply Z.leb_le in Hb
           end.
    destruct (Z.gtb_spec y1 y), (Z.gtb_spec y0 y),
             (Z.ltb_spec x x1), (Z.ltb_spec x x0);
      cbn; symmetry;
      first [ apply bool_decide_eq_true_2 | apply bool_decide_eq_false_2 ]; lia.
  - f_equal. symmetry. apply bool_decide_eq_false_2. intros [Hx Hy].
    apply andb_false_iff in Ebox as [Ebox|Ebox]; [|apply Z.leb_gt in Ebox; lia].
    apply andb_false_iff in Ebox as [Ebox|Ebox]; [|apply Z.leb_gt in Ebox; lia].
    apply andb_false_iff in Ebox as [Ebox|Ebox]; apply Z.leb_gt in Ebox; lia.
Qed.

(** Albia and a point of its right side. *)
Lemma hit_rectangle_witness :
  hit 300 20 (Albia (A := Qc))
  = Some (bool_decide ((Z.min 0 300 <= 300 < Z.max 0 300)%Z /\
                       (Z.min 0 300 <= 20 < Z.max 0 300)%Z)).
Proof. apply (hit_rectangle Albia 0 0 300 300 300 20). reflexivity. Defined.

(** The hit test of one of the four squares of the created world. *)
Lemma hit_square (c : Country Qc) (x0 y0 x y : Z) :
  polygon c = square x0 y0 ->
  hit x y c = Some ((x0 <=? x)%Z && (x <? x0 + 300)%Z
                    && (y0 <=? y)%Z && (y <? y0 + 300)%Z).
Proof.
  intros Hpoly. unfold hit. rewrite Hpoly. unfold square.
  cbn [fmap list_fmap fst snd py_min_list py_max_list foldl mbind option_bind
       length Nat.sub].
  rewrite ray_cast_rectangle.
  rewrite (proj1 (corners_x _ _)), (proj2 (corners_x _ _)),
          (proj1 (corners_y _ _)), (proj2 (corners_y _ _)).
  rewrite Z.min_l, Z.max_r, Z.min_l, Z.max_r by lia.
  destruct (Z.leb_spec x0 x), (Z.leb_spec x (x0 + 300)), (Z.leb_spec y0 y),
           (Z.leb_spec y (y0 + 300)), (Z.gtb_spec (y0 + 300) y),
           (Z.gtb_spec y0 y), (Z.ltb_spec x (x0 + 300)), (Z.ltb_spec x x0),
           (Z.ltb_spec y (y0 + 300));
    cbn; try reflexivity; lia.
Qed.

(** X16: in the world the game creates every point of the map belongs to
    exactly one country, the one of its quadrant; the lines between two
    quadrants belong to the right and to the lower one, and a point off
    the map hits no country. *)
Theorem get_country_at_created (x y : Z) :
  get_country_at (Game_init (A := Qc)) (x, y)
  = Some (if bool_decide ((0 <= x < 600)%Z /\ (0 <= y < 600)%Z)
          then Some ((if (x <? 300)%Z then 0 else 1)
                     + (if (y <? 300)%Z then 0 else 2))%nat
          else None).
Proof.
  unfold get_country_at, Game_init, create_world.
  cbn [world countries fst snd get_country_from].
  rewrite (hit_square Albia 0 0), (hit_square Borovia 300 0),
          (hit_square Cyrenia 0 300), (hit_square Demeria 300 300)
    by reflexivity.
  change (0 + 300)%Z with 300%Z. change (300 + 300)%Z with 600%Z.
  destruct (Z.leb_spec 0 x), (Z.leb_spec 300 x), (Z.ltb_spec x 300),
           (Z.ltb_spec x 600), (Z.leb_spec 0 y), (Z.leb_spec 300 y),
           (Z.ltb_spec y 300), (Z.ltb_spec y 600);
    try lia; cbn [andb mbind option_bind Nat.add]; f_equal;
    first [ rewrite bool_decide_eq_true_2 by lia
          | rewrite bool_decide_eq_false_2 by lia ]; reflexivity.
Qed.

(** ** [Game.ai_actions] and [Game.advance_turn] *)

Section Turns.
Context {A : Type} `{Num A}.

Lemma economic_policy_sanctions (policy : string) (c : Country A) :
  policy ∈ economic_policies ->
  sanctions (apply_policy policy None c) = sanctions c /\
  new_sanctions (apply_policy policy None c) = new_sanctions c.
Proof.
  unfold economic_policies. intros Hin.
  repeat (apply elem_of_cons in Hin as [->|Hin]);
    [..|by apply elem_of_nil in Hin];
    unfold apply_policy; cbn [String.eqb Ascii.eqb Bool.eqb];
    try match goal with |- context [forallb ?f ?l] => destruct (forallb f l) end;
    split; reflexivity.
Qed.

(** One iteration of the loop of [ai_actions]. *)
Lemma ai_action_step (d : Draws A) (player : option nat) (k : nat)
    (cs : list (Country A)) (c : Country A) :
  cs !! k = Some c ->
  exists c', ai_action d player k cs = Some (<[k := c']> cs) /\
             ai_moved c c' /\ (player = Some k -> c' = c).
Proof.
  intros Hk. unfold ai_action. case_bool_decide as Hp.
  { exists c. rewrite list_insert_id by exact Hk.
    split; [reflexivity|]. split; [by left|done]. }
  rewrite Hk. cbn [mbind option_bind]. unfold random_choice, ai_choices.
  cbn [length].
  pose proof (Nat.mod_upper_bound (policy_draws d k) 6 ltac:(lia)) as Hlt.
  destruct (policy_draws d k mod 6)%nat as [|[|[|[|[|[|n]]]]]]; [..|lia];
    cbn [lookup list_lookup mbind option_bind String.eqb Ascii.eqb Bool.eqb].
  6: { exists c. rewrite list_insert_id by exact Hk.
    split; [reflexivity|]. split; [by left|done]. }
  all: eexists; split; [reflexivity|]; split; [|done];
    right; eexists; split; [|reflexivity]; unfold economic_policies;
    repeat first [ by left | right ].
Qed.

Lemma ai_actions_loop (d : Draws A) (player : option nat) (ks : list nat) :
  NoDup ks ->
  forall cs : list (Country A),
    (forall k, k ∈ ks -> (k < length cs)%nat) ->
    exists cs', for_each (ai_action d player) ks cs = Some cs' /\
      length cs' = length cs /\
      forall k c, cs !! k = Some c ->
        exists c', cs' !! k = Some c' /\ ai_moved c c' /\
                   (k ∉ ks -> c' = c) /\ (player = Some k -> c' = c).
Proof.
  induction 1 as [|k ks Hk Hnd IH]; intros cs Hks.
  - exists cs. split; [reflexivity|]. split; [reflexivity|].
    intros k c Hc. exists c. split; [exact Hc|]. split; [by left|done].
  - cbn [for_each].
    destruct (lookup_lt_is_Some_2 cs k) as [c Hc]; [apply Hks; by left|].
    destruct (ai_action_step d player k cs c Hc) as (c1 & -> & Hm & Hp).
    cbn [mbind option_bind].
    destruct (IH (<[k := c1]> cs)) as (cs' & -> & Hlen & Hcs').
    { intros j Hj. rewrite length_insert. apply Hks. by right. }
    exists cs'. split; [reflexivity|].
    split; [by rewrite Hlen, length_insert|].
    intros j cj Hj. destruct (decide (j = k)) as [->|Hne].
    + rewrite Hc in Hj. injection Hj as <-.
      destruct (Hcs' k c1) as (c' & Hc' & _ & Hsame & _).
      { apply list_lookup_insert_eq. by eapply lookup_lt_Some. }
      rewrite (Hsame Hk) in Hc'. exists c1. repeat split; try done.
      intros Hout. exfalso. apply Hout. by left.
    + destruct (Hcs' j cj) as (c' & Hc' & Hm' & Hsame & Hp').
      { by rewrite list_lookup_insert_ne. }
      exists c'. repeat split; try done.
      intros Hout. apply Hsame. intros Hin. apply Hout. by right.
Qed.

(** X17: in its part of a turn the computer applies at most one of the five
    economic policies to each country other than the player's, which it
    leaves as it is; it never sanctions anybody, and it raises nothing. *)
Theorem ai_actions_moves (d : Draws A) (g : Game A) :
  exists g', ai_actions d g = Some g' /\ same_but_world g g' /\
    length (countries (world g')) = length (countries (world g)) /\
    forall k c, countries (world g) !! k = Some c ->
      exists c', countries (world g') !! k = Some c' /\
        ai_moved c c' /\ (player_country g = Some k -> c' = c) /\
        sanctions c' = sanctions c /\ new_sanctions c' = new_sanctions c.
Proof.
  unfold ai_actions.
  destruct (ai_actions_loop d (player_country g)
              (seq 0 (length (countries (world g)))) (NoDup_seq _ _)
              (countries (world g))) as (cs' & -> & Hlen & Hcs').
  { intros k Hk. apply elem_of_seq in Hk. lia. }
  cbn [mbind option_bind]. eexists. split; [reflexivity|].
  split; [by repeat split|]. cbn [world set_world countries].
  split; [exact Hlen|]. intros k c Hc.
  destruct (Hcs' k c Hc) as (c' & Hc' & Hm & _ & Hp).
  exists c'. repeat split; try done;
    destruct Hm as [->|(policy & Hin & ->)]; try reflexivity;
    by apply economic_policy_sanctions.
Qed.

Lemma ai_actions_moves_at (d : Draws A) (g g1 : Game A) :
  ai_actions d g = Some g1 ->
  g1 = set_world (world g1) g /\
  length (countries (world g1)) = length (countries (world g)) /\
  forall k c, countries (world g) !! k = Some c ->
    exists c', countries (world g1) !! k = Some c' /\ ai_moved c c' /\
               sanctions c' = sanctions c /\
               (player_country g = Some k -> c' = c).
Proof.
  unfold ai_actions. intros Hrun.
  destruct (ai_actions_loop d (player_country g)
              (seq 0 (length (countries (world g)))) (NoDup_seq _ _)
              (countries (world g))) as (cs' & E & Hlen & Hcs').
  { intros k Hk. apply elem_of_seq in Hk. lia. }
  rewrite E in Hrun. cbn in Hrun. injection Hrun as <-.
  split; [reflexivity|]. cbn [world set_world countries].
  split; [exact Hlen|]. intros k c Hc.
  destruct (Hcs' k c Hc) as (c' & Hc' & Hm & _ & Hp).
  exists c'. repeat split; try done.
  destruct Hm as [->|(policy & Hin & ->)]; [reflexivity|].
  by apply economic_policy_sanctions.
Qed.

Lemma sanctions_messages_none (cs : list (Country A)) :
  (forall c, c ∈ cs -> new_sanctions c = ∅) -> sanctions_messages cs = [].
Proof.
  intros Hcs. unfold sanctions_messages. apply bind_nil_all.
  intros c Hc. rewrite (Hcs c Hc), elements_empty. reflexivity.
Qed.

Lemma advance_turn_inv (d : Draws A) (g g' : Game A) :
  advance_turn d g = Some g' ->
  exists g1 w,
    ai_actions d g = Some g1 /\ update (fluctuations d) (world g1) = Some w /\
    g' = set_turn_count (turn_count g + 1)%Z (set_world w g1).
Proof.
  unfold advance_turn. intros Hrun.
  destruct (ai_actions d g) as [g1|] eqn:E1; [|done].
  cbn [mbind option_bind] in Hrun.
  destruct (update _ _) as [w|] eqn:E2; [|done].
  cbn [mbind option_bind] in Hrun.
  rewrite sanctions_messages_none in Hrun.
  - injection Hrun as <-. exists g1, w.
    split; [reflexivity|]. split; [exact E2|].
    destruct (ai_actions_moves_at d g g1 E1) as (-> & _). reflexivity.
  - intros c' Hc'. apply list_elem_of_lookup in Hc' as [k Hk].
    destruct (update_lookup _ _ _ k c' E2 Hk) as (c & c1 & _ & _ & ->).
    reflexivity.
Qed.

(** X18: a turn adds one to the turn count and changes nothing else of the
    game but the world; the message is the one the caller has set, for the
    sanctions of the turn are forgotten before they are read, and no
    country is added or removed. *)
Theorem advance_turn_keeps_message (d : Draws A) (g g' : Game A) :
  advance_turn d g = Some g' ->
  turn_count g' = (turn_count g + 1)%Z /\ message g' = message g /\
  map_width g' = map_width g /\ player_country g' = player_country g /\
  selected_country g' = selected_country g /\
  awaiting_sanction_target g' = awaiting_sanction_target g /\
  length (countries (world g')) = length (countries (world g)) /\
  forall c', c' ∈ countries (world g') -> new_sanctions c' = ∅.
Proof.
  intros Hrun.
  destruct (advance_turn_inv d g g' Hrun) as (g1 & w & E1 & E2 & ->).
  destruct (ai_actions_moves_at d g g1 E1) as (-> & Hlen & _).
  cbn [turn_count message map_width player_country selected_country
       awaiting_sanction_target world set_turn_count set_world].
  repeat split; try done.
  - by rewrite (update_length _ _ _ E2).
  - intros c' Hc'. apply list_elem_of_lookup in Hc' as [k Hk].
    destruct (update_lookup _ _ _ k c' E2 Hk) as (c & c1 & _ & _ & ->).
    reflexivity.
Qed.

End Turns.

(** The first turn of a new game. *)
Lemma advance_turn_keeps_message_witness :
  turn_count first_turn = (turn_count (Game_init (A := Qc)) + 1)%Z /\
  message first_turn = message (Game_init (A := Qc)) /\
  map_width first_turn = map_width (Game_init (A := Qc)) /\
  player_country first_turn = player_country (Game_init (A := Qc)) /\
  selected_country first_turn = selected_country (Game_init (A := Qc)) /\
  awaiting_sanction_target first_turn
    = awaiting_sanction_target (Game_init (A := Qc)) /\
  length (countries (world first_turn))
    = length (countries (world (Game_init (A := Qc)))) /\
  forall c', c' ∈ countries (world first_turn) -> new_sanctions c' = ∅.
Proof.
  apply (advance_turn_keeps_message idle_draws Game_init first_turn).
  vm_compute. reflexivity.
Defined.

(** ** A turn of the game *)

Section Handlers.
Context {A : Type} `{Num A}.

Lemma game_keeps_refl (c : Country A) : game_keeps c c.
Proof. by repeat split. Qed.

Lemma game_keeps_trans (c1 c2 c3 : Country A) :
  game_keeps c1 c2 -> game_keeps c2 c3 -> game_keeps c1 c3.
Proof.
  intros (Hn & Hp & Hc & Hpop & Hs & Hd) (Hn' & Hp' & Hc' & Hpop' & Hs' & Hd').
  repeat split; try congruence. by etrans.
Qed.

Lemma kept_refl (cs : list (Country A)) : Forall2 game_keeps cs cs.
Proof.
  apply Forall_Forall2_diag, Forall_forall. intros c _. apply game_keeps_refl.
Qed.

Lemma kept_trans (cs1 cs2 cs3 : list (Country A)) :
  Forall2 game_keeps cs1 cs2 -> Forall2 game_keeps cs2 cs3 ->
  Forall2 game_keeps cs1 cs3.
Proof.
  intros H12. revert cs3. induction H12 as [|c1 c2 cs1 cs2 Hc _ IH];
    intros cs3 H23; inversion H23; subst; constructor.
  - by eapply game_keeps_trans.
  - by apply IH.
Qed.

Lemma kept_kinds (cs cs' : list (Country A)) :
  Forall2 game_keeps cs cs' -> holds_first_kinds cs -> holds_first_kinds cs'.
Proof.
  intros Hkept Hkinds first' c' Hfirst' Hc'.
  apply list_elem_of_lookup in Hc' as [k Hk].
  destruct (Forall2_lookup_r _ _ _ k c' Hkept Hk) as (c & Hc & Hkeeps).
  rewrite head_lookup in Hfirst'.
  destruct (Forall2_lookup_r _ _ _ 0%nat first' Hkept Hfirst')
    as (first & Hfirst & Hf).
  destruct Hf as (_ & _ & _ & _ & _ & ->).
  destruct Hkeeps as (_ & _ & _ & _ & _ & ->).
  apply (Hkinds first c); [by rewrite head_lookup|].
  by eapply list_elem_of_lookup_2.
Qed.

Lemma kept_polygons (P : list (Z * Z) -> Prop) (cs cs' : list (Country A)) :
  Forall2 game_keeps cs cs' -> (forall c, c ∈ cs -> P (polygon c)) ->
  forall c', c' ∈ cs' -> P (polygon c').
Proof.
  intros Hkept Hpoly c' Hc'. apply list_elem_of_lookup in Hc' as [k Hk].
  destruct (Forall2_lookup_r _ _ _ k c' Hkept Hk) as (c & Hc & Hkeeps).
  destruct Hkeeps as (_ & -> & _). apply Hpoly.
  by eapply list_elem_of_lookup_2.
Qed.

Lemma economic_policy_keeps (policy : string) (c : Country A) :
  policy ∈ economic_policies -> game_keeps c (apply_policy policy None c).
Proof.
  unfold economic_policies. intros Hin.
  repeat (apply elem_of_cons in Hin as [->|Hin]);
    [..|by apply elem_of_nil in Hin];
    unfold apply_policy; cbn [String.eqb Ascii.eqb Bool.eqb];
    try match goal with |- context [forallb ?f ?l] => destruct (forallb f l) end;
    unfold game_keeps; split_and!; try done.
  cbn [resources set_growth_rate set_resources]. apply dom_fmap_L.
Qed.

Lemma sanction_keeps (target c : Country A) :
  game_keeps c (apply_policy "sanction" (Some target) c) /\
  name target ∈ sanctions (apply_policy "sanction" (Some target) c).
Proof.
  unfold apply_policy. cbn [String.eqb Ascii.eqb Bool.eqb].
  case_bool_decide as Hin.
  - split; [apply game_keeps_refl|exact Hin].
  - split.
    + unfold game_keeps. split_and!; try done.
      cbn [sanctions set_sanctions]. apply union_subseteq_r.
    + cbn [sanctions set_sanctions]. apply elem_of_union_l, elem_of_singleton.
      reflexivity.
Qed.

Lemma ai_moved_keeps (c c' : Country A) : ai_moved c c' -> game_keeps c c'.
Proof.
  intros [->|(policy & Hin & ->)]; [apply game_keeps_refl|].
  by apply economic_policy_keeps.
Qed.

Lemma turn_keeps_game (c c' : Country A) : turn_keeps c c' -> game_keeps c c'.
Proof.
  intros (Hn & Hp & Hc & _ & Hpop & _ & _ & Hs & _ & Hd).
  unfold game_keeps. split_and!; try done. by rewrite Hs.
Qed.

(** Production and growth keep what trade clearing asks of a world. *)
Lemma update_runs_kinds (draws : nat -> A) (w : World A) :
  holds_first_kinds (countries w) -> is_Some (update draws w).
Proof.
  intros Hkinds. unfold update.
  match goal with
  | |- context [resolve_trade ?w1] =>
      destruct (resolve_trade_defined w1) as [w' ->]; [|by eexists]
  end.
  cbn [countries]. revert Hkinds. apply kept_kinds.
  apply Forall2_same_length_lookup_2.
  { by rewrite length_imap, length_fmap. }
  intros k c c' Hc Hc'. rewrite list_lookup_imap, list_lookup_fmap, Hc in Hc'.
  cbn in Hc'. injection Hc' as <-. unfold game_keeps. split_and!; try done.
  cbn [update_economy set_gdp resources produce_resources set_resources].
  apply dom_fmap_L.
Qed.

(** X19: trade clearing, and with it a whole turn of the world, raises no
    [KeyError] when every country holds the resource kinds of the first
    one, whatever the stocks, the rates and the draws are. *)
Theorem update_raises_nothing (draws : nat -> A) (w : World A) :
  holds_first_kinds (countries w) ->
  is_Some (resolve_trade w) /\ is_Some (update draws w).
Proof.
  intros Hkinds. split.
  - by apply resolve_trade_defined.
  - by apply update_runs_kinds.
Qed.

(** What a turn of the game does to the state. *)
Lemma advance_turn_world (d : Draws A) (g g' : Game A) :
  advance_turn d g = Some g' ->
  exists w,
    g' = set_turn_count (turn_count g + 1)%Z (set_world w g) /\
    Forall2 game_keeps (countries (world g)) (countries w) /\
    forall k c, countries (world g) !! k = Some c ->
      exists c', countries w !! k = Some c' /\ sanctions c' = sanctions c.
Proof.
  intros Hrun.
  destruct (advance_turn_inv d g g' Hrun) as (g1 & w & E1 & E2 & ->).
  destruct (ai_actions_moves_at d g g1 E1) as (Hg1 & Hlen & Hcs).
  pose proof (update_turn_keeps _ _ _ E2) as Hturn.
  exists w. split; [by rewrite Hg1|]. split.
  - apply Forall2_same_length_lookup_2.
    { by rewrite <- (Forall2_length _ _ _ Hturn). }
    intros k c c' Hc Hc'.
    destruct (Hcs k c Hc) as (c1 & Hc1 & Hm & _).
    eapply game_keeps_trans; [by apply ai_moved_keeps|].
    apply turn_keeps_game. by eapply (Forall2_lookup_lr _ _ _ k c1 c' Hturn).
  - intros k c Hc. destruct (Hcs k c Hc) as (c1 & Hc1 & _ & Hs & _).
    destruct (Forall2_lookup_l _ _ _ k c1 Hturn Hc1) as (c' & Hc' & Hkeeps).
    exists c'. split; [exact Hc'|].
    destruct Hkeeps as (_ & _ & _ & _ & _ & _ & _ & -> & _). exact Hs.
Qed.

Lemma advance_turn_runs (d : Draws A) (g : Game A) :
  holds_first_kinds (countries (world g)) -> is_Some (advance_turn d g).
Proof.
  intros Hkinds. unfold advance_turn.
  destruct (ai_actions_loop d (player_country g)
              (seq 0 (length (countries (world g)))) (NoDup_seq _ _)
              (countries (world g))) as (cs' & E & Hlen & Hcs').
  { intros k Hk. apply elem_of_seq in Hk. lia. }
  unfold ai_actions. rewrite E. cbn [mbind option_bind world set_world].
  destruct (update_runs_kinds (fluctuations d) {| countries := cs' |})
    as [w ->].
  - cbn [countries]. revert Hkinds. apply kept_kinds.
    apply Forall2_same_length_lookup_2; [done|].
    intros k c c' Hc Hc'. destruct (Hcs' k c Hc) as (c1 & Hc1 & Hm & _).
    rewrite Hc' in Hc1. injection Hc1 as <-. by apply ai_moved_keeps.
  - cbn [mbind option_bind]. destruct (sanctions_messages _); by eexists.
Qed.

End Handlers.

Lemma create_world_kinds {A} `{Num A} :
  holds_first_kinds (countries (create_world (A := A))).
Proof.
  intros first c Hfirst Hc. cbn in Hfirst. injection Hfirst as <-.
  cbn [create_world countries] in Hc.
  repeat (apply elem_of_cons in Hc as [->|Hc]); [..|by apply elem_of_nil in Hc];
    cbn [resources Albia Borovia Cyrenia Demeria create_country Country_init
         default];
    unfold id, resource_set; by rewrite !dom_insert_L.
Qed.

(** The created world. *)
Lemma update_raises_nothing_witness :
  is_Some (resolve_trade (create_world (A := Qc))) /\
  is_Some (update steady create_world).
Proof. apply update_raises_nothing. apply create_world_kinds. Defined.

(** ** The handlers of the game *)

Section Events.
Context {A : Type} `{Num A} `{FromInt A}.

(** *** [get_country_at] raises nothing on polygons with a corner, as
    far as the ints of line 403 are numbers of the carrier *)

Lemma foldl_min_bound (b : Z) (zs : list Z) :
  Forall (λ z, (Z.abs z <= b)%Z) zs ->
  forall a, (- b <= a)%Z -> (- b <= foldl Z.min a zs)%Z.
Proof.
  induction 1 as [|z zs Hz _ IH]; intros a Ha; cbn [foldl]; [exact Ha|].
  apply IH. lia.
Qed.

Lemma foldl_max_bound (b : Z) (zs : list Z) :
  Forall (λ z, (Z.abs z <= b)%Z) zs ->
  forall a, (a <= b)%Z -> (foldl Z.max a zs <= b)%Z.
Proof.
  induction 1 as [|z zs Hz _ IH]; intros a Ha; cbn [foldl]; [exact Ha|].
  apply IH. lia.
Qed.

(** A point between the least and the greatest of ints within [b] is
    within [b]. *)
Lemma between_bound (b z lo hi : Z) (zs : list Z) :
  Forall (λ z, (Z.abs z <= b)%Z) zs ->
  py_min_list zs = Some lo -> py_max_list zs = Some hi ->
  (lo <= z)%Z -> (z <= hi)%Z -> (Z.abs z <= b)%Z.
Proof.
  intros Hzs Hlo Hhi Hl Hh. destruct zs as [|a zs]; [discriminate Hlo|].
  cbn [py_min_list py_max_list] in Hlo, Hhi.
  injection Hlo as <-. injection Hhi as <-.
  inversion Hzs as [|? ? Ha Hrest]; subst.
  pose proof (foldl_min_bound b zs Hrest a ltac:(lia)).
  pose proof (foldl_max_bound b zs Hrest a ltac:(lia)). lia.
Qed.

Lemma crosses_runs (b x y : Z) (pi pj : Z * Z) :
  converts A (4 * b * b) ->
  (Z.abs pi.1 <= b)%Z /\ (Z.abs pi.2 <= b)%Z ->
  (Z.abs pj.1 <= b)%Z /\ (Z.abs pj.2 <= b)%Z ->
  (Z.abs y <= b)%Z ->
  is_Some (crosses x y pi pj).
Proof.
  destruct pi as [xi yi], pj as [xj yj]. cbn [fst snd].
  intros Hconv [Hxi Hyi] [Hxj Hyj] Hy. unfold crosses.
  destruct (negb _); [|by eexists].
  assert (Hside : (2 * b <= 4 * b * b)%Z) by nia.
  assert (Hproduct : (Z.abs ((xj - xi) * (y - yi)) <= 4 * b * b)%Z).
  { rewrite Z.abs_mul. replace (4 * b * b)%Z with ((2 * b) * (2 * b))%Z by ring.
    apply Z.mul_le_mono_nonneg; lia. }
  destruct (Hconv (yj - yi)%Z) as [height ->]; [lia|].
  destruct (Hconv ((xj - xi) * (y - yi))%Z) as [product ->]; [exact Hproduct|].
  destruct (Hconv xi) as [start ->]; [lia|].
  by eexists.
Qed.

Lemma ray_cast_runs (b x y : Z) (poly : list (Z * Z)) (idxs : list nat) :
  converts A (4 * b * b) -> within b poly -> (Z.abs y <= b)%Z ->
  Forall (λ i, (i < length poly)%nat) idxs ->
  forall j inside, (j < length poly)%nat ->
    is_Some (ray_cast x y poly idxs j inside).
Proof.
  intros Hconv Hpoly Hy.
  induction 1 as [|i idxs Hi _ IH]; intros j inside Hj; cbn [ray_cast].
  - by eexists.
  - destruct (lookup_lt_is_Some_2 poly i Hi) as [pi Epi].
    destruct (lookup_lt_is_Some_2 poly j Hj) as [pj Epj].
    rewrite Epi, Epj. cbn [mbind option_bind].
    destruct (crosses_runs b x y pi pj Hconv) as [crossed ->]; [..|exact Hy|].
    + apply Hpoly. by eapply list_elem_of_lookup_2.
    + apply Hpoly. by eapply list_elem_of_lookup_2.
    + cbn [mbind option_bind]. by apply IH.
Qed.

Lemma hit_runs (b x y : Z) (c : Country A) :
  converts A (4 * b * b) -> polygon c ≠ [] -> within b (polygon c) ->
  is_Some (hit x y c).
Proof.
  intros Hconv Hne Hpoly. unfold hit.
  assert (Hys : Forall (λ z, (Z.abs z <= b)%Z) (polygon c).*2).
  { apply Forall_fmap, Forall_forall. intros p Hp. by apply Hpoly. }
  destruct (polygon c) as [|p poly] eqn:Epoly; [done|]. rewrite <- Epoly in *.
  destruct (py_min_list (polygon c).*1) as [min_x|] eqn:Emin_x;
    [|by rewrite Epoly in Emin_x].
  destruct (py_max_list (polygon c).*1) as [max_x|] eqn:Emax_x;
    [|by rewrite Epoly in Emax_x].
  destruct (py_min_list (polygon c).*2) as [min_y|] eqn:Emin_y;
    [|by rewrite Epoly in Emin_y].
  destruct (py_max_list (polygon c).*2) as [max_y|] eqn:Emax_y;
    [|by rewrite Epoly in Emax_y].
  cbn [mbind option_bind].
  destruct (_ && _ && _ && _) eqn:Ebox; cbn [negb]; [|by eexists].
  apply andb_prop in Ebox as [Ebox Hhi]. apply andb_prop in Ebox as [_ Hlo].
  apply Z.leb_le in Hhi, Hlo.
  apply (ray_cast_runs b); [exact Hconv|exact Hpoly| | |].
  - by eapply between_bound.
  - apply Forall_forall. intros i Hi. apply elem_of_seq in Hi. lia.
  - rewrite Epoly. cbn [length]. lia.
Qed.

Lemma get_country_from_runs (b x y : Z) (cs : list (Country A)) :
  converts A (4 * b * b) ->
  (forall c, c ∈ cs -> polygon c ≠ [] /\ within b (polygon c)) ->
  forall k, is_Some (get_country_from x y cs k).
Proof.
  intros Hconv.
  induction cs as [|c cs IH]; intros Hpoly k; cbn [get_country_from].
  - by eexists.
  - destruct (hit_runs b x y c Hconv) as [inside ->];
      [apply Hpoly; by left..|].
    cbn [mbind option_bind]. destruct inside; [by eexists|].
    apply IH. intros c' Hc'. apply Hpoly. by right.
Qed.

Lemma get_country_from_bound (x y : Z) (cs : list (Country A)) :
  forall k j, get_country_from x y cs k = Some (Some j) ->
    (k <= j < k + length cs)%nat.
Proof.
  induction cs as [|c cs IH]; intros k j; cbn [get_country_from]; [done|].
  destruct (hit x y c) as [[|]|]; cbn [mbind option_bind]; [| |done].
  - intros [= <-]. cbn [length]. lia.
  - intros Hj. apply IH in Hj. cbn [length]. lia.
Qed.

Lemma get_country_at_bound (g : Game A) (pos : Z * Z) (k : nat) :
  get_country_at g pos = Some (Some k) ->
  (k < length (countries (world g)))%nat.
Proof.
  unfold get_country_at. intros Hk. apply get_country_from_bound in Hk. lia.
Qed.

(** *** One policy of the player and the turn it starts *)

Lemma apply_policy_keeps (policy : string) (target : option (Country A))
    (c : Country A) :
  game_keeps c (apply_policy policy target c).
Proof.
  unfold apply_policy, game_keeps.
  repeat match goal with
  | |- context [String.eqb policy ?s] => destruct (String.eqb policy s)
  end;
  try match goal with |- context [forallb ?f ?l] => destruct (forallb f l) end;
  try (destruct target as [t|]; [destruct (bool_decide _)|]);
  cbn [name polygon color population sanctions resources
       set_tax_rate set_tariff_rate set_growth_rate set_resources
       set_sanctions];
  split_and!; try done; try apply union_subseteq_r.
  apply dom_fmap_L.
Qed.

Lemma play_policy_world (d : Draws A) (p : nat) (policy : string)
    (target : option nat) (msg : string) (g g' : Game A) :
  play_policy d p policy target msg g = Some g' ->
  exists w,
    g' = set_turn_count (turn_count g + 1)%Z (set_world w (set_message msg g)) /\
    Forall2 game_keeps (countries (world g)) (countries w) /\
    forall k ck, target = Some k -> countries (world g) !! k = Some ck ->
      policy = "sanction" ->
      exists cp', countries w !! p = Some cp' /\ name ck ∈ sanctions cp'.
Proof.
  unfold play_policy. intros Hrun.
  destruct (countries (world g) !! p) as [c|] eqn:Ep; [|done].
  cbn [mbind option_bind] in Hrun.
  destruct (match target with Some k => _ | None => _ end) as [t|] eqn:Et;
    [|done].
  cbn [mbind option_bind] in Hrun.
  apply advance_turn_world in Hrun as (w & -> & Hkept & Hs).
  cbn [world set_world set_message countries turn_count] in *.
  exists w. split; [reflexivity|]. split.
  - eapply kept_trans; [|exact Hkept].
    rewrite <- (list_insert_id (countries (world g)) p c) at 1 by exact Ep.
    apply Forall2_insert; [apply kept_refl|apply apply_policy_keeps].
  - intros k ck -> Hk ->. rewrite Hk in Et. cbn in Et. injection Et as <-.
    destruct (Hs p (apply_policy "sanction" (Some ck) c)) as (cp' & Hp' & Hsp).
    { apply list_lookup_insert_eq. by eapply lookup_lt_Some. }
    exists cp'. split; [exact Hp'|]. rewrite Hsp. apply sanction_keeps.
Qed.

Lemma play_policy_runs (d : Draws A) (p : nat) (policy : string)
    (target : option nat) (msg : string) (g : Game A) :
  holds_first_kinds (countries (world g)) ->
  (p < length (countries (world g)))%nat ->
  (forall k, target = Some k -> (k < length (countries (world g)))%nat) ->
  is_Some (play_policy d p policy target msg g).
Proof.
  intros Hkinds Hp Ht. unfold play_policy.
  destruct (lookup_lt_is_Some_2 _ _ Hp) as [c Hc]. rewrite Hc.
  cbn [mbind option_bind].
  assert (Htarget : is_Some (match target with
                             | Some k => Some <$> countries (world g) !! k
                             | None => Some None
                             end)).
  { destruct target as [k|]; [|by eexists].
    destruct (lookup_lt_is_Some_2 _ _ (Ht k eq_refl)) as [ck ->]. by eexists. }
  destruct Htarget as [t ->]. cbn [mbind option_bind].
  apply advance_turn_runs. cbn [world set_world set_message countries].
  revert Hkinds. apply kept_kinds.
  rewrite <- (list_insert_id (countries (world g)) p c) at 1 by exact Hc.
  apply Forall2_insert; [apply kept_refl|apply apply_policy_keeps].
Qed.

(** *** The relation between two states of a game *)

Lemma stepped_refl (g : Game A) : stepped g g.
Proof.
  unfold stepped. split_and!; try done; try (intros; by left).
  apply kept_refl.
Qed.

Lemma stepped_trans (g1 g2 g3 : Game A) :
  stepped g1 g2 -> stepped g2 g3 -> stepped g1 g3.
Proof.
  intros (Hw & Hk & Hp & Hpv & Hsv & Ht & Hn)
         (Hw' & Hk' & Hp' & Hpv' & Hsv' & Ht' & Hn').
  pose proof (Forall2_length _ _ _ Hk) as Hlen.
  unfold stepped. split_and!.
  - congruence.
  - by eapply kept_trans.
  - intros p Hp1. by apply Hp', Hp.
  - intros p Hp3. destruct (Hpv' p Hp3) as [Hp2|Hlt]; [by apply Hpv|].
    right. by rewrite Hlen.
  - intros s Hs3. destruct (Hsv' s Hs3) as [Hs2|Hlt]; [by apply Hsv|].
    right. by rewrite Hlen.
  - lia.
  - intros Hnone. destruct (Hn' Hnone) as [Hw3 Ht3].
    destruct (player_country g2) as [p|] eqn:E2.
    { rewrite (Hp' p eq_refl) in Hnone. discriminate Hnone. }
    destruct (Hn eq_refl) as [Hw2 Ht2]. split; congruence.
Qed.

Lemma played_stepped (g g' : Game A) (p : nat) (w : World A) (msg : string)
    (b : bool) :
  player_country g = Some p ->
  Forall2 game_keeps (countries (world g)) (countries w) ->
  g' = set_turn_count (turn_count g + 1)%Z
         (set_world w (set_message msg (set_awaiting b g))) ->
  stepped g g'.
Proof.
  intros Hp Hkept ->. unfold stepped.
  cbn [map_width world player_country selected_country turn_count
       set_turn_count set_world set_message set_awaiting].
  split_and!; try done; try (intros; by left); try lia.
  by rewrite Hp.
Qed.

Lemma handle_key_stepped (d : Draws A) (key : Z) (g g' : Game A) :
  handle_key d key g = Some g' -> stepped g g'.
Proof.
  unfold handle_key.
  destruct (player_country g) as [p|] eqn:Ep;
    [|intros [= <-]; apply stepped_refl].
  destruct (selected_country g) as [s|] eqn:Es;
    [|intros [= <-]; apply stepped_refl].
  destruct (negb _); [intros [= <-]; apply stepped_refl|].
  destruct (awaiting_sanction_target g) eqn:Ea;
    [intros [= <-]; apply stepped_refl|].
  assert (Hplay : forall policy msg,
            play_policy d p policy None msg g = Some g' -> stepped g g').
  { intros policy msg Hrun.
    apply play_policy_world in Hrun as (w & -> & Hkept & _).
    apply (played_stepped g _ p w msg false Ep Hkept).
    unfold set_turn_count, set_world, set_message, set_awaiting.
    cbn [map_width world player_country selected_country
         awaiting_sanction_target turn_count message].
    by rewrite Ea. }
  repeat (destruct (_ =? _)%Z; [by apply Hplay|]).
  destruct (_ =? _)%Z; intros [= <-]; [|apply stepped_refl].
  unfold stepped.
  cbn [map_width world player_country selected_country turn_count
       set_message set_awaiting].
  split_and!; try done; try (intros; by left); try lia.
  apply kept_refl.
Qed.

Lemma handle_click_stepped (d : Draws A) (pos : Z * Z) (g g' : Game A) :
  handle_click d pos g = Some g' -> stepped g g'.
Proof.
  unfold handle_click.
  destruct (_ <? _)%Z; [|intros [= <-]; apply stepped_refl].
  destruct (get_country_at g pos) as [clicked|] eqn:Eclick; [|done].
  cbn [mbind option_bind].
  assert (Hclicked : forall k, clicked = Some k ->
            (k < length (countries (world g)))%nat).
  { intros k ->. by eapply get_country_at_bound. }
  assert (Hselect :
    match player_country g, clicked with
    | None, Some k =>
        ck ← countries (world g) !! k;
        Some (set_message ("You are now playing as " +:+ name ck +:+ ".")
                (set_player_country (Some k) (set_selected_country clicked g)))
    | _, _ =>
        match clicked with
        | Some k =>
            ck ← countries (world g) !! k;
            Some (set_message ("Selected " +:+ name ck)
                    (set_selected_country clicked g))
        | None => Some (set_message EmptyString (set_selected_country clicked g))
        end
    end = Some g' -> stepped g g').
  { destruct (player_country g) as [p|] eqn:Ep, clicked as [k|];
      try (destruct (countries (world g) !! k) as [ck|]; [|done]);
      cbn [mbind option_bind]; intros [= <-]; unfold stepped;
      cbn [map_width world player_country selected_country turn_count
           set_message set_player_country set_selected_country];
      rewrite ?Ep; split_and!; try done; try (intros; by left); try lia;
      try apply kept_refl;
      intros ? [= <-]; right; by apply Hclicked. }
  destruct (awaiting_sanction_target g) eqn:Ea; [|exact Hselect].
  destruct clicked as [k|]; [|exact Hselect].
  destruct (player_country g) as [p|] eqn:Ep; [|exact Hselect].
  destruct (negb _).
  - destruct (countries (world g) !! k) as [ck|]; [|done].
    cbn [mbind option_bind]. intros Hrun. clear Hselect.
    apply play_policy_world in Hrun as (w & -> & Hkept & _).
    exact (played_stepped g _ p w _ false Ep Hkept eq_refl).
  - intros [= <-]. unfold stepped.
    cbn [map_width world player_country selected_country turn_count
         set_message set_awaiting].
    split_and!; try done; try (intros; by left); try lia.
    apply kept_refl.
Qed.

Lemma handle_event_stepped (ed : Event * Draws A) (g g' : Game A) :
  handle_event ed g = Some g' -> stepped g g'.
Proof.
  unfold handle_event. destruct ed.1.
  - intros [= <-]. apply stepped_refl.
  - apply handle_click_stepped.
  - apply handle_key_stepped.
  - intros [= <-]. apply stepped_refl.
Qed.

Lemma events_stepped (events : list (Event * Draws A)) :
  forall g g', for_each handle_event events g = Some g' -> stepped g g'.
Proof.
  induction events as [|ed events IH]; intros g g'; cbn [for_each].
  - intros [= <-]. apply stepped_refl.
  - destruct (handle_event ed g) as [g1|] eqn:E1; [|done].
    cbn [mbind option_bind]. intros Hrest.
    eapply stepped_trans; [by eapply handle_event_stepped|by apply IH].
Qed.

Lemma run_stepped (frames : list (list (Event * Draws A))) :
  forall g g', run frames g = Some g' -> stepped g g'.
Proof.
  induction frames as [|events frames IH]; intros g g'; cbn [run].
  - intros [= <-]. apply stepped_refl.
  - destruct (for_each handle_event events g) as [g1|] eqn:E1; [|done].
    cbn [mbind option_bind]. apply events_stepped in E1.
    destruct (existsb _ _).
    + by intros [= <-].
    + intros Hrest. eapply stepped_trans; [exact E1|by apply IH].
Qed.

(** X20: in a run of the game the width of the map, the countries and their
    names, polygons, colours, populations and resource kinds stay as they
    are; no sanction is lifted, the player's country is chosen once and
    for all, the turn count never falls, and as long as no country has
    been chosen the world and the turn count do not change. *)
Theorem run_keeps (frames : list (list (Event * Draws A))) (g g' : Game A) :
  run frames g = Some g' ->
  map_width g' = map_width g /\
  Forall2 game_keeps (countries (world g)) (countries (world g')) /\
  (forall p, player_country g = Some p -> player_country g' = Some p) /\
  (turn_count g <= turn_count g')%Z /\
  (player_country g' = None ->
     world g' = world g /\ turn_count g' = turn_count g).
Proof.
  intros Hrun. apply run_stepped in Hrun.
  destruct Hrun as (Hw & Hk & Hp & _ & _ & Ht & Hn). by split_and!.
Qed.

(** *** The handlers raise nothing *)

Lemma playable_stepped (b : Z) (g g' : Game A) :
  playable b g -> stepped g g' -> playable b g'.
Proof.
  intros (Hkinds & Hpoly & Hp & Hs) (_ & Hk & _ & Hpv & Hsv & _).
  pose proof (Forall2_length _ _ _ Hk) as Hlen.
  unfold playable. split_and!.
  - by eapply kept_kinds.
  - by apply (kept_polygons (λ poly, poly ≠ [] /\ within b poly) _ _ Hk).
  - intros p Hp'. rewrite <- Hlen. destruct (Hpv p Hp'); [by apply Hp|done].
  - intros s Hs'. rewrite <- Hlen. destruct (Hsv s Hs'); [by apply Hs|done].
Qed.

Lemma handle_key_runs (b : Z) (d : Draws A) (key : Z) (g : Game A) :
  playable b g -> is_Some (handle_key d key g).
Proof.
  intros (Hkinds & _ & Hp & _). unfold handle_key.
  destruct (player_country g) as [p|]; [|by eexists].
  destruct (selected_country g) as [s|]; [|by eexists].
  destruct (negb _); [by eexists|].
  destruct (awaiting_sanction_target g); [by eexists|].
  repeat (destruct (_ =? _)%Z;
          [apply play_policy_runs; [exact Hkinds|by apply Hp|done]|]).
  destruct (_ =? _)%Z; by eexists.
Qed.

Lemma handle_click_runs (b : Z) (d : Draws A) (pos : Z * Z) (g : Game A) :
  converts A (4 * b * b) -> playable b g -> is_Some (handle_click d pos g).
Proof.
  intros Hconv (Hkinds & Hpoly & Hp & _). unfold handle_click.
  destruct (_ <? _)%Z; [|by eexists].
  destruct (get_country_from_runs b pos.1 pos.2 (countries (world g)) Hconv
              Hpoly 0) as [clicked Eclick].
  unfold get_country_at at 1. rewrite Eclick. cbn [mbind option_bind].
  assert (Hclicked : forall k, clicked = Some k ->
            is_Some (countries (world g) !! k)).
  { intros k ->. apply lookup_lt_is_Some_2.
    by eapply get_country_at_bound. }
  assert (Hselect : is_Some
    match player_country g, clicked with
    | None, Some k =>
        ck ← countries (world g) !! k;
        Some (set_message ("You are now playing as " +:+ name ck +:+ ".")
                (set_player_country (Some k) (set_selected_country clicked g)))
    | _, _ =>
        match clicked with
        | Some k =>
            ck ← countries (world g) !! k;
            Some (set_message ("Selected " +:+ name ck)
                    (set_selected_country clicked g))
        | None => Some (set_message EmptyString (set_selected_country clicked g))
        end
    end).
  { destruct (player_country g) as [p|], clicked as [k|];
      try (destruct (Hclicked k eq_refl) as [ck ->]); by eexists. }
  destruct (awaiting_sanction_target g); [|exact Hselect].
  destruct clicked as [k|]; [|exact Hselect].
  destruct (player_country g) as [p|] eqn:Ep; [|exact Hselect].
  destruct (negb _); [|by eexists].
  destruct (Hclicked k eq_refl) as [ck Hck]. rewrite Hck.
  cbn [mbind option_bind]. apply play_policy_runs.
  - exact Hkinds.
  - by apply Hp.
  - intros k' [= <-]. by eapply lookup_lt_Some.
Qed.

Lemma handle_event_runs (b : Z) (ed : Event * Draws A) (g : Game A) :
  converts A (4 * b * b) -> playable b g -> is_Some (handle_event ed g).
Proof.
  intros Hconv Hg. unfold handle_event. destruct ed.1.
  - by eexists.
  - by apply (handle_click_runs b).
  - by apply (handle_key_runs b).
  - by eexists.
Qed.

Lemma events_run (b : Z) (events : list (Event * Draws A)) (g : Game A) :
  converts A (4 * b * b) -> playable b g ->
  exists g', for_each handle_event events g = Some g' /\ playable b g'.
Proof.
  intros Hconv Hg. apply (for_each_runs (playable b)); [|exact Hg].
  intros ed g0 _ Hg0. destruct (handle_event_runs b ed g0 Hconv Hg0) as [g1 E1].
  exists g1. split; [exact E1|].
  apply (playable_stepped b g0 g1 Hg0). by eapply handle_event_stepped.
Qed.

(** X21: the handlers raise nothing in a game whose countries all hold the
    resource kinds of the first one and have a polygon with a corner and
    with all corners within [b], and whose player's and selected country
    are in the world, provided that every int up to [4 * b * b] is a number
    of the carrier: then none of the conversions of line 403 raises
    [OverflowError].  And they leave such a game behind, whatever the
    events and the draws are. *)
Theorem run_raises_nothing (b : Z) (frames : list (list (Event * Draws A)))
    (g : Game A) :
  converts A (4 * b * b) -> playable b g ->
  exists g', run frames g = Some g' /\ playable b g'.
Proof.
  intros Hconv. revert g.
  induction frames as [|events frames IH]; intros g Hg; cbn [run].
  - by exists g.
  - destruct (events_run b events g Hconv Hg) as (g1 & -> & Hg1).
    cbn [mbind option_bind]. destruct (existsb _ _); [by exists g1|].
    by apply IH.
Qed.

(** X22: a click on another country while a sanction target is awaited puts
    that country's name among the sanctions of the player's country, ends
    the wait and plays a turn; a click on the player's own country is
    refused and plays no turn. *)
Theorem handle_click_sanctions (d : Draws A) (pos : Z * Z) (g g' : Game A)
    (p k : nat) :
  (pos.1 < map_width g)%Z -> awaiting_sanction_target g = true ->
  player_country g = Some p -> get_country_at g pos = Some (Some k) ->
  handle_click d pos g = Some g' ->
  awaiting_sanction_target g' = false /\
  (k = p ->
     g' = set_awaiting false
            (set_message "Cannot sanction your own country." g)) /\
  (k ≠ p ->
     exists ck cp',
       countries (world g) !! k = Some ck /\
       countries (world g') !! p = Some cp' /\
       name ck ∈ sanctions cp' /\
       turn_count g' = (turn_count g + 1)%Z /\
       message g' = "You sanctioned " +:+ name ck +:+ ".").
Proof.
  intros Hx Ha Hp Hk. unfold handle_click.
  rewrite (proj2 (Z.ltb_lt _ _) Hx), Hk, Ha, Hp. cbn [mbind option_bind].
  case_bool_decide as Hkp; cbn [negb].
  - intros [= <-]. split; [reflexivity|]. split; [done|]. intros Hne. done.
  - destruct (countries (world g) !! k) as [ck|] eqn:Eck; [|done].
    cbn [mbind option_bind]. intros Hrun.
    apply play_policy_world in Hrun as (w & -> & _ & Hs).
    split; [reflexivity|]. split; [done|]. intros _.
    destruct (Hs k ck eq_refl Eck eq_refl) as (cp' & Hcp' & Hin).
    by exists ck, cp'.
Qed.

End Events.

Lemma square_within (x y : Z) :
  (0 <= x <= 300)%Z -> (0 <= y <= 300)%Z -> within 600 (square x y).
Proof.
  intros Hx Hy p Hp. unfold square in Hp.
  repeat (apply elem_of_cons in Hp as [->|Hp]); [..|by apply elem_of_nil in Hp];
    cbn [fst snd]; lia.
Qed.

Lemma Game_init_playable {A} `{Num A} : playable 600 (Game_init (A := A)).
Proof.
  unfold playable. split_and!.
  - apply create_world_kinds.
  - intros c Hc. cbn [Game_init world create_world countries] in Hc.
    repeat (apply elem_of_cons in Hc as [->|Hc]); [..|by apply elem_of_nil in Hc];
      (split; [discriminate|]);
      first [ apply (square_within 0 0) | apply (square_within 300 0)
            | apply (square_within 0 300) | apply (square_within 300 300) ];
      lia.
  - intros p Hp. discriminate Hp.
  - intros s Hs. discriminate Hs.
Qed.

(** Every int is an exact rational. *)
Lemma Qc_converts (m : Z) : converts Qc m.
Proof. intros z _. by eexists. Qed.

(** The ints below 2^1024 - 2^970 in absolute value are converted to a
    float. *)
Lemma float_converts (m : Z) : (m < float_int_bound)%Z -> converts float m.
Proof.
  intros Hm z Hz. unfold from_int, float_FromInt, float_from_int.
  rewrite (proj2 (Z.ltb_lt _ _)) by lia. by eexists.
Qed.

(** The bound is the least int that rounding takes out of the floats: the
    int below it is rounded to the largest float, 1.7976931348623157e308,
    and the bound itself to infinity; 2^53 + 1 is the least int that is not
    a float. *)
Lemma nearest_float_range :
  nearest_float (float_int_bound - 1) = 0x1.fffffffffffffp+1023%float /\
  nearest_float float_int_bound = infinity /\
  nearest_float (- (float_int_bound - 1)) = (-0x1.fffffffffffffp+1023)%float /\
  nearest_float (- float_int_bound) = neg_infinity /\
  nearest_float (2 ^ 53) = 9007199254740992%float /\
  nearest_float (2 ^ 53 + 1) = 9007199254740992%float /\
  nearest_float (2 ^ 53 + 3) = 9007199254740996%float.
Proof. repeat split; vm_compute; reflexivity. Qed.

(** In binary64 arithmetic a click into a country with a corner at 10^400
    raises [OverflowError]: the edge at 10^400 spans the height of the
    click, and its [xi] is converted.  A click below the country is sorted
    out by line 395 and raises nothing. *)
Lemma get_country_at_binary64_overflow :
  get_country_at far_game (5, 5)%Z = None /\
  handle_click idle_draws_binary64 (5, 5)%Z far_game = None /\
  get_country_at far_game (5, 20)%Z = Some None.
Proof. repeat split; vm_compute; reflexivity. Qed.

(** A short game. *)
Lemma run_keeps_witness :
  map_width short_game_end = map_width (Game_init (A := Qc)) /\
  Forall2 game_keeps (countries (world Game_init))
                     (countries (world short_game_end)) /\
  (forall p, player_country (Game_init (A := Qc)) = Some p ->
     player_country short_game_end = Some p) /\
  (turn_count (Game_init (A := Qc)) <= turn_count short_game_end)%Z /\
  (player_country short_game_end = None ->
     world short_game_end = world Game_init /\
     turn_count short_game_end = turn_count Game_init).
Proof.
  apply (run_keeps short_game Game_init short_game_end).
  vm_compute. reflexivity.
Defined.

(** A short game on the created world, in binary64 arithmetic. *)
Lemma run_raises_nothing_witness :
  exists g', run short_game_binary64 (Game_init (A := float)) = Some g' /\
             playable 600 g'.
Proof.
  apply (run_raises_nothing 600).
  - apply float_converts. vm_compute. reflexivity.
  - apply Game_init_playable.
Defined.

(** Albia sanctions Borovia. *)
Lemma handle_click_sanctions_witness :
  awaiting_sanction_target sanction_click = false /\
  (1%nat = 0%nat ->
     sanction_click
     = set_awaiting false
         (set_message "Cannot sanction your own country." awaiting_game)) /\
  (1%nat ≠ 0%nat ->
     exists ck cp',
       countries (world awaiting_game) !! 1%nat = Some ck /\
       countries (world sanction_click) !! 0%nat = Some cp' /\
       name ck ∈ sanctions cp' /\
       turn_count sanction_click = (turn_count awaiting_game + 1)%Z /\
       message sanction_click = "You sanctioned " +:+ name ck +:+ ".").
Proof.
  apply (handle_click_sanctions idle_draws (310, 10)%Z awaiting_game
           sanction_click 0 1).
  - reflexivity.
  - reflexivity.
  - reflexivity.
  - vm_compute. reflexivity.
  - vm_compute. reflexivity.
Defined.
